(** * turbo-firestore-api: optimistic mirrors, subscriptions and auth-gated retry

    A shallow embedding of the TypeScript sources:
    - [TurboFirestoreException] (error taxonomy and [fromFirestoreError]),
    - [TurboFirestoreApi] (the wrappers around the Firestore SDK that the
      mirrors call),
    - [useTurboCollection], [useTurboDocument] and [TurboDocumentService]
      (the three mirrors and their optimistic mutators),
    - [useAuthSync] and [FirebaseAuthService] (the retry supervisors),
    - [TurboCollectionService], the local mutators and lookups of the
      mirrors, the payload and field helpers of the API and the type guards
      of the writeable interfaces.

    JavaScript effects are made explicit: a computation is a function from
    a state to an outcome (a returned value or a thrown value) and a new
    state; calls to the Firestore SDK, to timers and to caller-supplied
    callbacks are appended to a trace kept in the state. *)

From Stdlib Require Import ZArith Lia.
From stdpp Require Import gmap strings list fin_maps.

Set Default Proof Using "Type".
Open Scope string_scope.
Open Scope list_scope.

(** ** Strings *)

(** The double quote used inside the template strings of the sources. *)
Definition dquote : string := String (Ascii.ascii_of_nat 34) EmptyString.

(** JavaScript truthiness of a string: only the empty string is falsy. *)
Definition truthy (s : string) : bool :=
  match s with
  | EmptyString => false
  | String _ _ => true
  end.

(** ** Handles

    Unsubscribe functions and timers are named by numbers; [remove h l]
    takes the handle [h] out of the handles [l] that are live. *)
Definition remove (h : nat) (l : list nat) : list nat :=
  filter (fun h' => h' ≠ h) l.

(** ** Error taxonomy (TurboFirestoreException.ts) *)

Module Exn.

(** The class of an exception object: the base class or one of its seven
    subclasses. *)
Inductive ExceptionClass : Set :=
| BaseException
| PermissionDeniedException
| UnavailableException
| NotFoundException
| AlreadyExistsException
| CancelledException
| DeadlineExceededException
| GenericException.

#[global] Instance ExceptionClass_eq_dec : EqDecision ExceptionClass.
Proof. solve_decision. Defined.

(** [class TurboFirestoreException extends Error]: the fields set by the
    constructor. [optional] fields are [undefined] when [None]. *)
Record TurboFirestoreException : Set := mkException {
  exn_class : ExceptionClass;
  exn_message : string;
  exn_code : string;
  exn_path : option string;
  exn_query : option string;
  exn_stackTrace : option string
}.

(** The part of firebase's [FirestoreError] that the sources read. *)
Record FirestoreError : Set := mkFirestoreError {
  fe_message : string;
  fe_code : string;
  fe_stack : option string
}.

(** [static fromFirestoreError(error, path?, query?)]: a [switch] on
    [error.code]; each branch passes the same five constructor arguments. *)
Definition fromFirestoreError (error : FirestoreError)
    (path query : option string) : TurboFirestoreException :=
  let stackTrace := fe_stack error in
  let make cls :=
    mkException cls (fe_message error) (fe_code error) path query stackTrace in
  if String.eqb (fe_code error) "permission-denied" then
    make PermissionDeniedException
  else if String.eqb (fe_code error) "unavailable" then
    make UnavailableException
  else if String.eqb (fe_code error) "not-found" then
    make NotFoundException
  else if String.eqb (fe_code error) "already-exists" then
    make AlreadyExistsException
  else if String.eqb (fe_code error) "cancelled" then
    make CancelledException
  else if String.eqb (fe_code error) "deadline-exceeded" then
    make DeadlineExceededException
  else
    make GenericException.

(** The mapping as the specification words it: six codes with a dedicated
    subclass, every other code generic. *)
Definition dedicated_subclasses : list (string * ExceptionClass) :=
  [ ("permission-denied", PermissionDeniedException);
    ("unavailable", UnavailableException);
    ("not-found", NotFoundException);
    ("already-exists", AlreadyExistsException);
    ("cancelled", CancelledException);
    ("deadline-exceeded", DeadlineExceededException) ].

Fixpoint assoc (code : string) (table : list (string * ExceptionClass))
    : option ExceptionClass :=
  match table with
  | [] => None
  | (c, cls) :: rest => if decide (c = code) then Some cls else assoc code rest
  end.

Definition subclass_for_code (code : string) : ExceptionClass :=
  default GenericException (assoc code dedicated_subclasses).

End Exn.

Export Exn.

(** ** Thrown values and results *)

(** What a JavaScript [throw] (or a rejected promise) carries in these
    sources: a plain [Error], an SDK [FirestoreError] or one of the
    library's exceptions. *)
Inductive Thrown : Set :=
| JsError (message : string)
| JsFirestoreError (e : FirestoreError)
| JsException (e : TurboFirestoreException).

(** The outcome of running a piece of code: it returns or it throws. For an
    [async] function, [Throws] is a rejected promise. *)
Inductive Outcome (A : Type) : Type :=
| Returns (a : A)
| Throws (e : Thrown).
Arguments Returns {A} a.
Arguments Throws {A} e.

(** [TurboResponse<A>] of @appboypov/turbo-response: the fields the sources
    read and write. *)
Inductive TurboResponse (A : Type) : Type :=
| Success (result : A) (title message : option string)
| Fail (error : Thrown) (title message stackTrace : option string).
Arguments Success {A} result title message.
Arguments Fail {A} error title message stackTrace.

Definition isSuccess {A} (r : TurboResponse A) : bool :=
  match r with Success _ _ _ => true | Fail _ _ _ _ => false end.

Definition isFail {A} (r : TurboResponse A) : bool := negb (isSuccess r).

(** ** A state-and-exception monad

    [M S A] is a computation over a state [S] that returns an [A] or throws.
    The state reached before a [throw] is kept, as in JavaScript. *)

Definition M (S A : Type) : Type := S -> Outcome A * S.

Definition ret {S A} (a : A) : M S A := fun s => (Returns a, s).

Definition throw {S A} (e : Thrown) : M S A := fun s => (Throws e, s).

Definition bind {S A B} (m : M S A) (k : A -> M S B) : M S B :=
  fun s =>
    match m s with
    | (Returns a, s') => k a s'
    | (Throws e, s') => (Throws e, s')
    end.

(** [try { body } catch (error) { handler }]. *)
Definition try_catch {S A} (body : M S A) (handler : Thrown -> M S A) : M S A :=
  fun s =>
    match body s with
    | (Returns a, s') => (Returns a, s')
    | (Throws e, s') => handler e s'
    end.

(** Running caller-supplied code whose outcome is given. *)
Definition lift {S A} (o : Outcome A) : M S A := fun s => (o, s).

Definition gets {S A} (f : S -> A) : M S A := fun s => (Returns (f s), s).

Definition modify {S} (f : S -> S) : M S unit := fun s => (Returns tt, f s).

Notation "x <- m ;; k" := (bind m (fun x => k))
  (at level 100, m at next level, right associativity).
Notation "m ;; k" := (bind m (fun _ => k))
  (at level 100, right associativity).

(** [array.map(f)] where [f] may throw: the first throw ends the loop. *)
Fixpoint mapM {S A B} (f : A -> M S B) (l : list A) : M S (list B) :=
  match l with
  | [] => ret []
  | a :: rest => b <- f a ;; bs <- mapM f rest ;; ret (b :: bs)
  end.

(** The value and the final state of a run. *)
Definition outcome_of {S A} (r : Outcome A * S) : Outcome A := fst r.
Definition state_of {S A} (r : Outcome A * S) : S := snd r.

(** ** Documents, the Firestore SDK and the world around a mirror *)

(** [interface TurboWriteableId]: a document has an [id] and a [toJson()]
    that, being caller code, may throw. *)
Class TurboWriteableId (T Json : Type) := {
  doc_id : T -> string;
  toJson : T -> Outcome Json
}.

(** The calls [TurboFirestoreApi] makes into the Firestore SDK. [DocRef id]
    is [doc(collection(..), id)], the reference of a document; [NewDocRef] is
    [doc(collection(..))], the reference with a generated id that [genId]
    asks for. The payload of a write is the document (or the JSON) handed to
    the API; timestamps and converter fields added on the way are not
    tracked. *)
Inductive SdkCall (T Json : Type) : Type :=
| DocRef (id : string)
| NewDocRef
| SetDoc (id : string) (data : T) (merge : bool)
| UpdateDoc (id : string) (data : Json)
| DeleteDoc (id : string)
| GetDoc (id : string)
| BatchSet (id : string) (data : T) (merge : bool)
| BatchUpdate (id : string) (data : Json)
| BatchDelete (id : string)
| BatchCommit
| OnSnapshot (id : string).
Arguments DocRef {T Json} id.
Arguments NewDocRef {T Json}.
Arguments SetDoc {T Json} id data merge.
Arguments UpdateDoc {T Json} id data.
Arguments DeleteDoc {T Json} id.
Arguments GetDoc {T Json} id.
Arguments BatchSet {T Json} id data merge.
Arguments BatchUpdate {T Json} id data.
Arguments BatchDelete {T Json} id.
Arguments BatchCommit {T Json}.
Arguments OnSnapshot {T Json} id.

(** What the outside world sees of a mirror: SDK calls, and the life of
    snapshot listeners ([Listening h] when [onSnapshot] hands back the
    unsubscribe function [h], [Unsubscribed h] when [h] is called). *)
Inductive Event (T Json : Type) : Type :=
| Call (c : SdkCall T Json)
| Listening (h : nat)
| Unsubscribed (h : nat).
Arguments Call {T Json} c.
Arguments Listening {T Json} h.
Arguments Unsubscribed {T Json} h.

(** The environment of one call: how the SDK answers, and what the code of
    the caller does. *)
Class Env (T Json : Type) := {
  (** [Some e] when the SDK call throws (or its promise rejects with) [e] *)
  sdk_error : SdkCall T Json -> option FirestoreError;
  (** [docSnap.exists()] of a successful read *)
  snapshot_exists : string -> bool;
  (** [collectionPath()] *)
  collectionPath : string;
  (** the [id] of the reference that [doc(collection(..))] returns *)
  new_id : string;
  (** [new Date()] *)
  now : Z;
  (** [getUserId()]: caller code, which may throw *)
  getUserId : Outcome (option string)
}.

(** The state of a mirror [L] and of the world around it. *)
Record World (T Json L : Type) : Type := mkWorld {
  local : L;
  trace : list (Event T Json);
  next_handle : nat
}.
Arguments mkWorld {T Json L} local trace next_handle.
Arguments local {T Json L} _.
Arguments trace {T Json L} _.
Arguments next_handle {T Json L} _.

(** The SDK calls of a trace, in order. *)
Definition sdk_calls {T Json} (tr : list (Event T Json)) : list (SdkCall T Json) :=
  omap (fun ev => match ev with Call c => Some c | _ => None end) tr.

(** The listeners of a trace that were registered and not unsubscribed
    since. *)
Fixpoint live_listeners {T Json} (tr : list (Event T Json)) (live : list nat)
    : list nat :=
  match tr with
  | [] => live
  | Listening h :: rest => live_listeners rest (live ++ [h])
  | Unsubscribed h :: rest => live_listeners rest (remove h live)
  | Call _ :: rest => live_listeners rest live
  end.

(** [TurboAuthVars]: [{ id, now, userId }]. *)
Record TurboAuthVars : Set := mkVars {
  vars_id : string;
  vars_now : Z;
  vars_userId : string
}.

(** [CreateDocDef<T> = (vars) => T], [UpdateDocDef<T> = (current, vars) =>
    T], [UpsertDocDef<T> = (current: T | null, vars) => T]: caller code,
    which may throw. *)
Definition CreateDocDef (T : Type) : Type := TurboAuthVars -> Outcome T.
Definition UpdateDocDef (T : Type) : Type := T -> TurboAuthVars -> Outcome T.
Definition UpsertDocDef (T : Type) : Type :=
  option T -> TurboAuthVars -> Outcome T.

(** ** TurboFirestoreApi *)

Module Api.
Section TurboFirestoreApi.
Context {T Json L : Type} {env : Env T Json}.

Definition update_local (f : L -> L) : M (World T Json L) unit :=
  modify (fun w => mkWorld (f (local w)) (trace w) (next_handle w)).

Definition read_local {A} (f : L -> A) : M (World T Json L) A :=
  gets (fun w => f (local w)).

(** One SDK call: it is recorded, and the environment says whether it
    throws. *)
Definition sdk (c : SdkCall T Json) : M (World T Json L) (option FirestoreError) :=
  fun w =>
    (Returns (sdk_error c),
     mkWorld (local w) (trace w ++ [Call c]) (next_handle w)).

(** The [catch] block shared by the API methods:
    [fromFirestoreError(error, this.collectionPathFn())] wrapped in
    [fail(exception, undefined, exception.message, exception.stackTrace)]. *)
Definition api_catch (error : FirestoreError) : TurboResponse unit :=
  let exception := fromFirestoreError error (Some collectionPath) None in
  Fail (JsException exception) None (Some (exn_message exception))
       (exn_stackTrace exception).

(** [try { calls...; return success(..) } catch (error) { ... }]: the SDK
    calls of the [try] block run in order until one throws. The other
    statements of the block ([toJsonFn], [addTimestamps]) only prepare the
    payload and are taken to return. *)
Fixpoint api_try (calls : list (SdkCall T Json))
    : M (World T Json L) (TurboResponse unit) :=
  match calls with
  | [] => ret (Success tt None None)
  | c :: rest =>
      thrown <- sdk c ;;
      match thrown with
      | Some error => ret (api_catch error)
      | None => api_try rest
      end
  end.

(** [get genId()]: [doc(this.getCollectionReference()).id], a call into
    the SDK, outside any [try]. *)
Definition genId : M (World T Json L) string :=
  thrown <- sdk NewDocRef ;;
  match thrown with
  | Some error => throw (JsFirestoreError error)
  | None => ret new_id
  end.

(** [turboVars()]: [{ id: this.genId, now: new Date() }]. *)
Definition turboVars : M (World T Json L) (string * Z) :=
  id <- genId ;;
  ret (id, now).

(** The SDK calls of [async createDoc({ writeable, id, merge })]:
    [getDocRefById(id)], then [setDoc(docRef, data, { merge })]. *)
Definition createDoc_calls (writeable : T) (id : string) (merge : bool)
    : list (SdkCall T Json) :=
  [DocRef id; SetDoc id writeable merge].
Definition createDoc (writeable : T) (id : string) (merge : bool) :=
  api_try (createDoc_calls writeable id merge).

(** [async updateDoc({ id, data })] *)
Definition updateDoc_calls (id : string) (data : Json) : list (SdkCall T Json) :=
  [DocRef id; UpdateDoc id data].
Definition updateDoc (id : string) (data : Json) :=
  api_try (updateDoc_calls id data).

(** [async deleteDoc(id)] *)
Definition deleteDoc_calls (id : string) : list (SdkCall T Json) :=
  [DocRef id; DeleteDoc id].
Definition deleteDoc (id : string) := api_try (deleteDoc_calls id).

(** [createDocInBatch], [updateDocInBatch], [deleteDocInBatch]: the same
    with [batch.set], [batch.update], [batch.delete]. *)
Definition createDocInBatch (writeable : T) (id : string) (merge : bool) :=
  api_try [DocRef id; BatchSet id writeable merge].
Definition updateDocInBatch (id : string) (data : Json) :=
  api_try [DocRef id; BatchUpdate id data].
Definition deleteDocInBatch (id : string) :=
  api_try [DocRef id; BatchDelete id].

(** The error a sequence of SDK calls ends with, if one of them throws:
    the remote call fails. *)
Fixpoint error_of (calls : list (SdkCall T Json)) : option FirestoreError :=
  match calls with
  | [] => None
  | c :: rest =>
      match sdk_error c with
      | Some error => Some error
      | None => error_of rest
      end
  end.

(** The calls made until (and with) the first that throws. *)
Fixpoint attempted (calls : list (SdkCall T Json)) : list (SdkCall T Json) :=
  match calls with
  | [] => []
  | c :: rest =>
      match sdk_error c with
      | Some _ => [c]
      | None => c :: attempted rest
      end
  end.

(** [async docExists(id)]:
    [try { docRef = getDocRefById(id); docSnap = await getDoc(docRef);
           return docSnap.exists() } catch (error) { return false }]. *)
Definition docExists (id : string) : M (World T Json L) bool :=
  thrown <- sdk (DocRef id) ;;
  match thrown with
  | Some _ => ret false
  | None =>
      thrown <- sdk (GetDoc id) ;;
      match thrown with
      | Some _ => ret false
      | None => ret (snapshot_exists id)
      end
  end.

(** [streamDocByIdWithConverter(id, onData, onError)]: builds the document
    reference (which may throw) and returns what [onSnapshot] returns, a
    fresh unsubscribe function. *)
Definition streamDocByIdWithConverter (id : string) : M (World T Json L) nat :=
  thrown <- sdk (OnSnapshot id) ;;
  match thrown with
  | Some error => throw (JsFirestoreError error)
  | None =>
      fun w =>
        (Returns (next_handle w),
         mkWorld (local w) (trace w ++ [Listening (next_handle w)])
                 (S (next_handle w)))
  end.

(** Calling an unsubscribe function. *)
Definition unsubscribe (h : nat) : M (World T Json L) unit :=
  modify (fun w => mkWorld (local w) (trace w ++ [Unsubscribed h]) (next_handle w)).

End TurboFirestoreApi.
End Api.

(** ** useTurboCollection

    The hook's React state is [docsById] (and [isReady]). A state update
    [setDocsById(prev => ...)] acts on the current state; [tryFindById]
    reads the [docsById] of the render that created the callback, which is
    passed to the callbacks that read it. The optional observer callbacks
    ([onDocsChanged], [onError]) are left out. *)

Module Collection.
Section useTurboCollection.
Context {T Json : Type} {writeable : TurboWriteableId T Json} {env : Env T Json}.

Record State : Type := mkState {
  docsById : gmap string T;
  isReady : bool
}.

Definition setDocsById (f : gmap string T -> gmap string T)
    : M (World T Json State) unit :=
  Api.update_local (fun s => mkState (f (docsById s)) (isReady s)).

(** [createAuthVars(api, getUserId)]:
    [const baseVars = api.turboVars();
     return { ...baseVars, userId: getUserId() ?? '' }]. *)
Definition createAuthVars : M (World T Json State) TurboAuthVars :=
  baseVars <- Api.turboVars ;;
  userId <- lift getUserId ;;
  ret (mkVars (fst baseVars) (snd baseVars) (default EmptyString userId)).

(** The snapshot callback of [streamAllWithConverter]. *)
Definition onSnapshot (newDocs : list T) : M (World T Json State) unit :=
  Api.update_local (fun _ =>
    mkState (list_to_map (map (fun doc => (doc_id doc, doc)) (rev newDocs))) true).

(** [tryFindById(id)]: [if (!id) return null; return docsById.get(id) ?? null]. *)
Definition tryFindById (docsById : gmap string T) (id : string) : option T :=
  if truthy id then docsById !! id else None.

Definition not_found_error (id : string) : Thrown :=
  JsError ("Document with id " +:+ dquote +:+ id +:+ dquote +:+ " not found").

Definition cannot (verb id : string) : string :=
  "Cannot " +:+ verb +:+ " non-existent document with id "
    +:+ dquote +:+ id +:+ dquote.

(** [createDoc(def)] *)
Definition createDoc (def : CreateDocDef T) : M (World T Json State) (TurboResponse T) :=
  vars <- createAuthVars ;;
  newDoc <- lift (def vars) ;;
  setDocsById (fun prev => <[doc_id newDoc := newDoc]> prev) ;;
  response <- Api.createDoc newDoc (doc_id newDoc) false ;;
  match response with
  | Fail error title message stackTrace =>
      setDocsById (fun prev => delete (doc_id newDoc) prev) ;;
      ret (Fail error title message stackTrace)
  | Success _ title message => ret (Success newDoc title message)
  end.

(** [updateDoc(id, def)] *)
Definition updateDoc (docsById : gmap string T) (id : string)
    (def : UpdateDocDef T) : M (World T Json State) (TurboResponse T) :=
  match tryFindById docsById id with
  | None =>
      ret (Fail (not_found_error id) (Some "Update Failed")
                (Some (cannot "update" id)) None)
  | Some current =>
      vars <- createAuthVars ;;
      updatedDoc <- lift (def current vars) ;;
      let previousDoc := current in
      setDocsById (fun prev => <[id := updatedDoc]> prev) ;;
      data <- lift (toJson updatedDoc) ;;
      response <- Api.updateDoc id data ;;
      match response with
      | Fail error title message stackTrace =>
          setDocsById (fun prev => <[id := previousDoc]> prev) ;;
          ret (Fail error title message stackTrace)
      | Success _ title message => ret (Success updatedDoc title message)
      end
  end.

(** [upsertDoc(id, def)] *)
Definition upsertDoc (docsById : gmap string T) (id : string)
    (def : UpsertDocDef T) : M (World T Json State) (TurboResponse T) :=
  let current := tryFindById docsById id in
  vars <- createAuthVars ;;
  upsertedDoc <- lift (def current vars) ;;
  let previousDoc := current in
  setDocsById (fun prev => <[id := upsertedDoc]> prev) ;;
  response <- Api.createDoc upsertedDoc id true ;;
  match response with
  | Fail error title message stackTrace =>
      setDocsById (fun prev =>
        match previousDoc with
        | Some previousDoc => <[id := previousDoc]> prev
        | None => delete id prev
        end) ;;
      ret (Fail error title message stackTrace)
  | Success _ title message => ret (Success upsertedDoc title message)
  end.

(** [deleteDoc(id)] *)
Definition deleteDoc (docsById : gmap string T) (id : string)
    : M (World T Json State) (TurboResponse unit) :=
  match tryFindById docsById id with
  | None =>
      ret (Fail (not_found_error id) (Some "Delete Failed")
                (Some (cannot "delete" id)) None)
  | Some current =>
      setDocsById (fun prev => delete id prev) ;;
      response <- Api.deleteDoc id ;;
      match response with
      | Fail error title message stackTrace =>
          setDocsById (fun prev => <[id := current]> prev) ;;
          ret (Fail error title message stackTrace)
      | Success _ title message => ret (Success tt title message)
      end
  end.

(** [docs.forEach(doc => updated.set(doc.id, doc))] *)
Definition set_all (docs : list T) (updated : gmap string T) : gmap string T :=
  foldl (fun updated doc => <[doc_id doc := doc]> updated) updated docs.

(** [docs.forEach(doc => updated.delete(doc.id))] *)
Definition delete_all (ids : list string) (updated : gmap string T)
    : gmap string T :=
  foldl (fun updated id => delete id updated) updated ids.

(** [previousDocs.forEach((doc, id) => updated.set(id, doc))]: the keys of
    a [Map] are distinct, so the order of the visits does not matter and
    the result is the union that prefers [previousDocs]. *)
Definition restore_all (previousDocs updated : gmap string T) : gmap string T :=
  previousDocs ∪ updated.

(** [batchResults.find(r => !isSuccess(r))] *)
Definition find_failed {A} (batchResults : list (TurboResponse A))
    : option (TurboResponse A) :=
  List.find (fun r => negb (isSuccess r)) batchResults.

(** [try { await batch.commit(); return success(result) }
     catch (error) { rollback; return fail(error, title, message) }] *)
Definition commit {A} (result : A) (rollback : gmap string T -> gmap string T)
    (title message : string) : M (World T Json State) (TurboResponse A) :=
  thrown <- Api.sdk BatchCommit ;;
  match thrown with
  | None => ret (Success result None None)
  | Some error =>
      setDocsById rollback ;;
      ret (Fail (JsFirestoreError error) (Some title) (Some message) None)
  end.

(** [createDocs(defs)] *)
Definition createDocs (defs : list (CreateDocDef T))
    : M (World T Json State) (TurboResponse (list T)) :=
  vars <- createAuthVars ;;
  newDocs <- mapM (fun def => lift (def vars)) defs ;;
  setDocsById (set_all newDocs) ;;
  batchResults <-
    mapM (fun doc => Api.createDocInBatch doc (doc_id doc) false) newDocs ;;
  match find_failed batchResults with
  | Some (Fail error title message stackTrace) =>
      setDocsById (delete_all (map doc_id newDocs)) ;;
      ret (Fail error title message stackTrace)
  | _ =>
      commit newDocs (delete_all (map doc_id newDocs))
        "Batch Create Failed" "Failed to commit batch create operation"
  end.

(** The first loop of [updateDocs]: every id is looked up in the render's
    [docsById]; a missing one ends the call with a failure, otherwise the
    previous document is recorded and the transform applied. *)
Fixpoint collect_updates (docsById : gmap string T) (vars : TurboAuthVars)
    (updates : list (string * UpdateDocDef T))
    (previousDocs : gmap string T) (updatedDocs : list T)
    : Outcome (TurboResponse (list T) + gmap string T * list T) :=
  match updates with
  | [] => Returns (inr (previousDocs, updatedDocs))
  | (id, def) :: rest =>
      match tryFindById docsById id with
      | None =>
          Returns (inl (Fail (not_found_error id) (Some "Batch Update Failed")
                             (Some (cannot "update" id)) None))
      | Some current =>
          match def current vars with
          | Throws e => Throws e
          | Returns updatedDoc =>
              collect_updates docsById vars rest
                (<[id := current]> previousDocs) (updatedDocs ++ [updatedDoc])
          end
      end
  end.

(** [updateDocs(updates)] *)
Definition updateDocs (docsById : gmap string T)
    (updates : list (string * UpdateDocDef T))
    : M (World T Json State) (TurboResponse (list T)) :=
  vars <- createAuthVars ;;
  collected <- lift (collect_updates docsById vars updates ∅ []) ;;
  match collected with
  | inl failure => ret failure
  | inr (previousDocs, updatedDocs) =>
      setDocsById (set_all updatedDocs) ;;
      batchResults <-
        mapM (fun doc =>
                data <- lift (toJson doc) ;;
                Api.updateDocInBatch (doc_id doc) data) updatedDocs ;;
      match find_failed batchResults with
      | Some (Fail error title message stackTrace) =>
          setDocsById (restore_all previousDocs) ;;
          ret (Fail error title message stackTrace)
      | _ =>
          commit updatedDocs (restore_all previousDocs)
            "Batch Update Failed" "Failed to commit batch update operation"
      end
  end.

(** The first loop of [deleteDocs]. *)
Fixpoint collect_deletes (docsById : gmap string T) (ids : list string)
    (previousDocs : gmap string T)
    : TurboResponse unit + gmap string T :=
  match ids with
  | [] => inr previousDocs
  | id :: rest =>
      match tryFindById docsById id with
      | None =>
          inl (Fail (not_found_error id) (Some "Batch Delete Failed")
                    (Some (cannot "delete" id)) None)
      | Some current =>
          collect_deletes docsById rest (<[id := current]> previousDocs)
      end
  end.

(** [deleteDocs(ids)] *)
Definition deleteDocs (docsById : gmap string T) (ids : list string)
    : M (World T Json State) (TurboResponse unit) :=
  match collect_deletes docsById ids ∅ with
  | inl failure => ret failure
  | inr previousDocs =>
      setDocsById (delete_all ids) ;;
      batchResults <- mapM (fun id => Api.deleteDocInBatch id) ids ;;
      match find_failed batchResults with
      | Some (Fail error title message stackTrace) =>
          setDocsById (restore_all previousDocs) ;;
          ret (Fail error title message stackTrace)
      | _ =>
          commit tt (restore_all previousDocs)
            "Batch Delete Failed" "Failed to commit batch delete operation"
      end
  end.

End useTurboCollection.
Arguments State T : clear implicits.
End Collection.

(** ** useTurboDocument

    The hook's state is [doc] and [isReady]; [previousDocRef] is a ref that
    [updateLocalState] keeps next to [doc]. The optional callbacks
    ([beforeLocalUpdate], [afterLocalUpdate], [onDocChanged], [onError]) are
    left out. *)

Module Document.
Section useTurboDocument.
Context {T Json : Type} {writeable : TurboWriteableId T Json} {env : Env T Json}.

(** The [documentId] option. *)
Context (documentId : string).

Record State : Type := mkState {
  doc : option T;
  isReady : bool;
  previousDocRef : option T
}.

(** [useState(() => initialValueLocator?.() ?? null)],
    [useState(false)], [useRef(null)]. *)
Definition initial (initialValue : option T) : State :=
  mkState initialValue false None.

(** [updateLocalState(newDoc)]: [setDoc(newDoc); previousDocRef.current = newDoc]. *)
Definition updateLocalState (newDoc : option T) : M (World T Json State) unit :=
  Api.update_local (fun s => mkState newDoc (isReady s) newDoc).

(** [generateAuthVars()]:
    [const userId = getUserId(); const apiVars = api.turboVars();
     return { ...apiVars, userId: userId ?? '' }]. *)
Definition generateAuthVars : M (World T Json State) TurboAuthVars :=
  userId <- lift getUserId ;;
  apiVars <- Api.turboVars ;;
  ret (mkVars (fst apiVars) (snd apiVars) (default EmptyString userId)).

(** The snapshot callback: [snapshot ?? defaultValueLocator?.() ?? null]. *)
Definition onSnapshot (snapshot defaultValue : option T)
    : M (World T Json State) unit :=
  let newDoc := match snapshot with Some d => Some d | None => defaultValue end in
  updateLocalState newDoc ;;
  Api.update_local (fun s => mkState (doc s) true (previousDocRef s)).

(** [createDoc(def)] *)
Definition createDoc (def : CreateDocDef T) : M (World T Json State) (TurboResponse T) :=
  vars <- generateAuthVars ;;
  newDoc <- lift (def vars) ;;
  previousDoc <- Api.read_local previousDocRef ;;
  updateLocalState (Some newDoc) ;;
  response <- Api.createDoc newDoc documentId false ;;
  match response with
  | Fail error title message stackTrace =>
      updateLocalState previousDoc ;;
      ret (Fail error title message stackTrace)
  | Success _ _ _ => ret (Success newDoc None None)
  end.

(** The failure of [updateDoc] on a missing document:
    [new TurboFirestoreException('Cannot update: document does not exist',
    'not-found', documentId)]. *)
Definition not_found_exception : TurboFirestoreException :=
  mkException BaseException "Cannot update: document does not exist"
    "not-found" (Some documentId) None None.

(** [updateDoc(def)] *)
Definition updateDoc (def : UpdateDocDef T) : M (World T Json State) (TurboResponse T) :=
  currentDoc <- Api.read_local previousDocRef ;;
  match currentDoc with
  | None =>
      let error := not_found_exception in
      ret (Fail (JsException error) None (Some (exn_message error))
                (exn_stackTrace error))
  | Some currentDoc =>
      vars <- generateAuthVars ;;
      updatedDoc <- lift (def currentDoc vars) ;;
      let previousDoc := Some currentDoc in
      updateLocalState (Some updatedDoc) ;;
      data <- lift (toJson updatedDoc) ;;
      response <- Api.updateDoc documentId data ;;
      match response with
      | Fail error title message stackTrace =>
          updateLocalState previousDoc ;;
          ret (Fail error title message stackTrace)
      | Success _ _ _ => ret (Success updatedDoc None None)
      end
  end.

(** [upsertDoc(def)] *)
Definition upsertDoc (def : UpsertDocDef T) : M (World T Json State) (TurboResponse T) :=
  currentDoc <- Api.read_local previousDocRef ;;
  vars <- generateAuthVars ;;
  upsertedDoc <- lift (def currentDoc vars) ;;
  let previousDoc := currentDoc in
  updateLocalState (Some upsertedDoc) ;;
  response <- Api.createDoc upsertedDoc documentId true ;;
  match response with
  | Fail error title message stackTrace =>
      updateLocalState previousDoc ;;
      ret (Fail error title message stackTrace)
  | Success _ _ _ => ret (Success upsertedDoc None None)
  end.

(** [deleteDoc()] *)
Definition deleteDoc : M (World T Json State) (TurboResponse unit) :=
  previousDoc <- Api.read_local previousDocRef ;;
  updateLocalState None ;;
  response <- Api.deleteDoc documentId ;;
  match response with
  | Fail error title message stackTrace =>
      updateLocalState previousDoc ;;
      ret (Fail error title message stackTrace)
  | Success _ _ _ => ret (Success tt None None)
  end.

End useTurboDocument.
Arguments State T : clear implicits.
End Document.

(** ** TurboDocumentService

    The class keeps its document in an [Informer] ([_doc]) and the
    unsubscribe function of its stream in [_unsubscribe]. The
    [doNotifyListeners] arguments and the optional callbacks only reach
    observers and are left out. *)

Module DocumentService.
Section TurboDocumentService.
Context {T Json : Type} {writeable : TurboWriteableId T Json} {env : Env T Json}.

Record State : Type := mkState {
  _doc : option T;
  _unsubscribe : option nat;
  _isReadyResolved : bool
}.

(** The constructor: [initialValueLocator?.() ?? defaultValueLocator?.() ?? null]. *)
Definition initial (initialValue : option T) : State :=
  mkState initialValue None false.

Definition NO_AUTH_ID : string := "no-auth".

(** [turboVars(id?)]: [{ id: id ?? this.api.genId, now: new Date(),
    userId: this._getUserId() ?? NO_AUTH_ID }]; [genId] is only asked for
    when no [id] is given. *)
Definition turboVars (id : option string) : M (World T Json State) TurboAuthVars :=
  id <- match id with
        | Some id => ret id
        | None => Api.genId
        end ;;
  userId <- lift getUserId ;;
  ret (mkVars id now (default NO_AUTH_ID userId)).

(** [_updateDoc(value)]: [this._doc.update(value, ...)]. *)
Definition _updateDoc (value : option T) : M (World T Json State) unit :=
  Api.update_local (fun s => mkState value (_unsubscribe s) (_isReadyResolved s)).

(** [stopStream()]: [this._unsubscribe?.(); this._unsubscribe = null]. *)
Definition stopStream : M (World T Json State) unit :=
  handle <- Api.read_local _unsubscribe ;;
  match handle with
  | Some h => Api.unsubscribe h
  | None => ret tt
  end ;;
  Api.update_local (fun s => mkState (_doc s) None (_isReadyResolved s)).

(** [stream(documentId)]: [this.stopStream(); this._unsubscribe =
    this.api.streamDocByIdWithConverter(documentId, ...)]. *)
Definition stream (documentId : string) : M (World T Json State) unit :=
  stopStream ;;
  h <- Api.streamDocByIdWithConverter documentId ;;
  Api.update_local (fun s => mkState (_doc s) (Some h) (_isReadyResolved s)).

(** [createLocalDoc(doc)] *)
Definition createLocalDoc (doc : CreateDocDef T) : M (World T Json State) T :=
  vars <- turboVars None ;;
  pDoc <- lift (doc vars) ;;
  _updateDoc (Some pDoc) ;;
  ret pDoc.

(** [updateLocalDoc(doc)] *)
Definition updateLocalDoc (doc : UpdateDocDef T) : M (World T Json State) T :=
  current <- Api.read_local _doc ;;
  match current with
  | None => throw (JsError "Cannot update non-existent document")
  | Some current =>
      vars <- turboVars (Some (doc_id current)) ;;
      pDoc <- lift (doc current vars) ;;
      _updateDoc (Some pDoc) ;;
      ret pDoc
  end.

(** [deleteLocalDoc()] *)
Definition deleteLocalDoc : M (World T Json State) unit := _updateDoc None.

(** [upsertLocalDoc(id, doc)] *)
Definition upsertLocalDoc (id : string) (doc : UpsertDocDef T)
    : M (World T Json State) T :=
  current <- Api.read_local _doc ;;
  vars <- turboVars (Some id) ;;
  pDoc <- lift (doc current vars) ;;
  _updateDoc (Some pDoc) ;;
  ret pDoc.

(** The snapshot callback installed by [stream]. *)
Definition onSnapshot (value : option T) : M (World T Json State) unit :=
  match value with
  | Some v => upsertLocalDoc (doc_id v) (fun _ _ => Returns v) ;; ret tt
  | None => _updateDoc None
  end ;;
  Api.update_local (fun s => mkState (_doc s) (_unsubscribe s) true).

(** [catch (error) { return fail(error) }] *)
Definition catch_fail {A} (error : Thrown) : M (World T Json State) (TurboResponse A) :=
  ret (Fail error None None None).

(** [createDoc(doc)] *)
Definition createDoc (doc : CreateDocDef T) : M (World T Json State) (TurboResponse T) :=
  try_catch
    (pDoc <- createLocalDoc doc ;;
     response <- Api.createDoc pDoc (doc_id pDoc) false ;;
     match response with
     | Fail error title message stackTrace =>
         ret (Fail error title message stackTrace)
     | Success _ _ _ => ret (Success pDoc None None)
     end)
    catch_fail.

(** [updateDoc(doc)] *)
Definition updateDoc (doc : UpdateDocDef T) : M (World T Json State) (TurboResponse T) :=
  try_catch
    (current <- Api.read_local _doc ;;
     match current with
     | None =>
         ret (Fail (JsError "Cannot update non-existent document")
                   (Some "Update Failed") (Some "Document does not exist") None)
     | Some current =>
         pDoc <- updateLocalDoc doc ;;
         data <- lift (toJson pDoc) ;;
         response <- Api.updateDoc (doc_id current) data ;;
         match response with
         | Fail error title message stackTrace =>
             ret (Fail error title message stackTrace)
         | Success _ _ _ => ret (Success pDoc None None)
         end
     end)
    catch_fail.

(** [deleteDoc()] *)
Definition deleteDoc : M (World T Json State) (TurboResponse unit) :=
  try_catch
    (current <- Api.read_local _doc ;;
     match current with
     | None =>
         ret (Fail (JsError "Cannot delete non-existent document")
                   (Some "Delete Failed") (Some "Document does not exist") None)
     | Some current =>
         let docId := doc_id current in
         deleteLocalDoc ;;
         response <- Api.deleteDoc docId ;;
         match response with
         | Fail error title message stackTrace =>
             ret (Fail error title message stackTrace)
         | Success _ _ _ => ret (Success tt None None)
         end
     end)
    catch_fail.

(** [upsertDoc(id, doc)] *)
Definition upsertDoc (id : string) (doc : UpsertDocDef T)
    : M (World T Json State) (TurboResponse T) :=
  try_catch
    (pDoc <- upsertLocalDoc id doc ;;
     response <- Api.createDoc pDoc id true ;;
     match response with
     | Fail error title message stackTrace =>
         ret (Fail error title message stackTrace)
     | Success _ _ _ => ret (Success pDoc None None)
     end)
    catch_fail.

End TurboDocumentService.
Arguments State T : clear implicits.
End DocumentService.

(** ** The world around a retry supervisor *)

(** firebase's [User], of which the sources read [uid]. *)
Record User : Set := mkUser { uid : string }.

(** What the outside world sees of a supervisor. Handles name the
    unsubscribe functions and the timers the environment hands out. *)
Inductive SupEvent (V : Type) : Type :=
| AuthListening (h : nat)        (* onAuthStateChanged returned h *)
| AuthStopped (h : nat)          (* the auth unsubscribe h was called *)
| StreamStarted (h : nat) (user : User)  (* stream(user) returned h *)
| StreamStopped (h : nat)        (* the stream unsubscribe h was called *)
| TimerSet (t : nat) (delay : Z) (* setTimeout(..., delay) returned t *)
| TimerCleared (t : nat)         (* clearTimeout(t) *)
| TimerFired (t : nat)           (* the callback of t starts to run *)
| OnAuth (user : User)
| OnData (value : option V) (user : option User)
| OnError (error : TurboFirestoreException)
| OnDone (retryCount maxRetries : Z).
Arguments AuthListening {V} h.
Arguments AuthStopped {V} h.
Arguments StreamStarted {V} h user.
Arguments StreamStopped {V} h.
Arguments TimerSet {V} t delay.
Arguments TimerCleared {V} t.
Arguments TimerFired {V} t.
Arguments OnAuth {V} user.
Arguments OnData {V} value user.
Arguments OnError {V} error.
Arguments OnDone {V} retryCount maxRetries.

(** The state of a supervisor [L] and of the world around it: the trace,
    the next fresh handle, the data streams that are live and the timers
    that are pending. *)
Record SupWorld (V L : Type) : Type := mkSupWorld {
  sup : L;
  events : list (SupEvent V);
  fresh : nat;
  live_streams : list nat;
  pending_timers : list nat
}.
Arguments mkSupWorld {V L} sup events fresh live_streams pending_timers.
Arguments sup {V L} _.
Arguments events {V L} _.
Arguments fresh {V L} _.
Arguments live_streams {V L} _.
Arguments pending_timers {V L} _.

(** What the caller-supplied code does during one stream setup: [onAuth]
    and [stream] may each throw. *)
Record Setup : Set := mkSetup {
  onAuth_throws : option Thrown;
  stream_throws : option Thrown
}.

Module Sup.
Section primitives.
Context {V L : Type}.

Definition update (f : L -> L) : M (SupWorld V L) unit :=
  modify (fun w =>
    mkSupWorld (f (sup w)) (events w) (fresh w) (live_streams w)
               (pending_timers w)).

Definition read {A} (f : L -> A) : M (SupWorld V L) A :=
  gets (fun w => f (sup w)).

(** A callback of the caller is invoked. *)
Definition emit (ev : SupEvent V) : M (SupWorld V L) unit :=
  modify (fun w =>
    mkSupWorld (sup w) (events w ++ [ev]) (fresh w) (live_streams w)
               (pending_timers w)).

(** [stream(user)] returns a fresh unsubscribe function, or throws. *)
Definition start_stream (user : User) (throws : option Thrown)
    : M (SupWorld V L) nat :=
  match throws with
  | Some error => throw error
  | None =>
      fun w =>
        (Returns (fresh w),
         mkSupWorld (sup w) (events w ++ [StreamStarted (fresh w) user])
                    (S (fresh w)) (live_streams w ++ [fresh w])
                    (pending_timers w))
  end.

(** Calling the unsubscribe function [h] of a stream. *)
Definition stop_stream (h : nat) : M (SupWorld V L) unit :=
  modify (fun w =>
    mkSupWorld (sup w) (events w ++ [StreamStopped h]) (fresh w)
               (remove h (live_streams w)) (pending_timers w)).

(** [setTimeout(callback, delay)] *)
Definition setTimeout (delay : Z) : M (SupWorld V L) nat :=
  fun w =>
    (Returns (fresh w),
     mkSupWorld (sup w) (events w ++ [TimerSet (fresh w) delay])
                (S (fresh w)) (live_streams w) (pending_timers w ++ [fresh w])).

(** [clearTimeout(t)] *)
Definition clearTimeout (t : nat) : M (SupWorld V L) unit :=
  modify (fun w =>
    mkSupWorld (sup w) (events w ++ [TimerCleared t]) (fresh w)
               (live_streams w) (remove t (pending_timers w))).

(** The timer [t] fires: it is no longer pending. *)
Definition fire (t : nat) : M (SupWorld V L) unit :=
  modify (fun w =>
    mkSupWorld (sup w) (events w ++ [TimerFired t]) (fresh w)
               (live_streams w) (remove t (pending_timers w))).

(** [if (b) { m }] *)
Definition when (b : bool) (m : M (SupWorld V L) unit) : M (SupWorld V L) unit :=
  if b then m else ret tt.

End primitives.
End Sup.

(** ** useAuthSync

    State updates ([setRetryCount] and the like) take effect in program
    order, each updater running once. The options [onAuth], [onError] and
    [onDone] are optional: the record says which are given.

    A callback runs until it returns or suspends at an [await]; what it does
    after the [await] runs later, and other callbacks may run in between.
    [setupStream] is therefore given in two parts, and as the call in which
    the two parts follow each other at once. *)

Module AuthSync.
Section useAuthSync.
Context {V : Type}.

Record Options : Set := mkOptions {
  has_onAuth : bool;
  has_onError : bool;
  has_onDone : bool;
  maxRetries : Z;
  retryDelayMs : Z
}.

(** [maxRetries = 20, retryDelayMs = 1000] *)
Definition default_options : Options := mkOptions false false false 20 1000.

Context (options : Options).

Record State : Set := mkState {
  isReady : bool;
  cachedUserId : option string;
  isRetrying : bool;
  retryCount : Z;
  streamUnsubscribeRef : option nat;
  retryTimeoutRef : option nat;
  currentUserRef : option User;
  isMountedRef : bool
}.

Definition initial : State :=
  mkState false None false 0 None None None true.

Definition setIsReady (b : bool) (s : State) : State :=
  mkState b (cachedUserId s) (isRetrying s) (retryCount s)
    (streamUnsubscribeRef s) (retryTimeoutRef s) (currentUserRef s)
    (isMountedRef s).
Definition setCachedUserId (u : option string) (s : State) : State :=
  mkState (isReady s) u (isRetrying s) (retryCount s)
    (streamUnsubscribeRef s) (retryTimeoutRef s) (currentUserRef s)
    (isMountedRef s).
Definition setIsRetrying (b : bool) (s : State) : State :=
  mkState (isReady s) (cachedUserId s) b (retryCount s)
    (streamUnsubscribeRef s) (retryTimeoutRef s) (currentUserRef s)
    (isMountedRef s).
Definition setRetryCount (n : Z) (s : State) : State :=
  mkState (isReady s) (cachedUserId s) (isRetrying s) n
    (streamUnsubscribeRef s) (retryTimeoutRef s) (currentUserRef s)
    (isMountedRef s).
Definition set_streamUnsubscribeRef (h : option nat) (s : State) : State :=
  mkState (isReady s) (cachedUserId s) (isRetrying s) (retryCount s)
    h (retryTimeoutRef s) (currentUserRef s) (isMountedRef s).
Definition set_retryTimeoutRef (t : option nat) (s : State) : State :=
  mkState (isReady s) (cachedUserId s) (isRetrying s) (retryCount s)
    (streamUnsubscribeRef s) t (currentUserRef s) (isMountedRef s).
Definition set_currentUserRef (u : option User) (s : State) : State :=
  mkState (isReady s) (cachedUserId s) (isRetrying s) (retryCount s)
    (streamUnsubscribeRef s) (retryTimeoutRef s) u (isMountedRef s).
Definition set_isMountedRef (b : bool) (s : State) : State :=
  mkState (isReady s) (cachedUserId s) (isRetrying s) (retryCount s)
    (streamUnsubscribeRef s) (retryTimeoutRef s) (currentUserRef s) b.

#[local] Abbreviation Hook A := (M (SupWorld V State) A).

(** [cleanupStream()] *)
Definition cleanupStream : Hook unit :=
  handle <- Sup.read streamUnsubscribeRef ;;
  match handle with
  | Some h => Sup.stop_stream h ;; Sup.update (set_streamUnsubscribeRef None)
  | None => ret tt
  end ;;
  timer <- Sup.read retryTimeoutRef ;;
  match timer with
  | Some t => Sup.clearTimeout t ;; Sup.update (set_retryTimeoutRef None)
  | None => ret tt
  end.

(** [handleStreamError(error)]; the callback of the timer it sets is
    [onRetryTimeout] below. *)
Definition handleStreamError (error : TurboFirestoreException) : Hook unit :=
  mounted <- Sup.read isMountedRef ;;
  if negb mounted then ret tt else
  Sup.when (has_onError options) (Sup.emit (OnError error)) ;;
  prev <- Sup.read retryCount ;;
  let newCount := (prev + 1)%Z in
  if (newCount >=? maxRetries options)%Z then
    Sup.update (setIsRetrying false) ;;
    Sup.when (has_onDone options)
      (Sup.emit (OnDone newCount (maxRetries options))) ;;
    Sup.update (setRetryCount newCount)
  else
    Sup.update (setIsRetrying true) ;;
    t <- Sup.setTimeout (retryDelayMs options) ;;
    Sup.update (set_retryTimeoutRef (Some t)) ;;
    Sup.update (setRetryCount newCount).

(** The [catch] block of [setupStream]: a [TurboFirestoreException] is
    passed on, anything else is wrapped with the code 'unknown'. *)
Definition as_exception (error : Thrown) : TurboFirestoreException :=
  match error with
  | JsException e => e
  | JsError message => mkException BaseException message "unknown" None None None
  | JsFirestoreError e =>
      mkException BaseException (fe_message e) "unknown" None None (fe_stack e)
  end.

(** [setupStream(user)], up to its [await]:
    [if (!isMountedRef.current) return; cleanupStream();
     try { if (onAuth) { await onAuth(user); } ...]. It tells whether the
    call goes on. When [onAuth] is given it is called and the function
    suspends until the promise settles; without [onAuth] there is no
    [await] and the rest follows at once. *)
Definition setupStream_begin (user : User) : Hook bool :=
  mounted <- Sup.read isMountedRef ;;
  if negb mounted then ret false else
  cleanupStream ;;
  Sup.when (has_onAuth options) (Sup.emit (OnAuth user)) ;;
  ret true.

(** [setupStream(user)], from its [await] on: the promise of [onAuth] has
    settled ([onAuth_throws] says whether it rejected), and the rest of the
    [try] block and the [catch] block run. Nothing is checked again:
    [... const unsubscribe = stream(user);
         streamUnsubscribeRef.current = unsubscribe; setIsReady(true);
         setRetryCount(0); setIsRetrying(false);
     } catch (error) { handleStreamError(...) }]. *)
Definition setupStream_resume (user : User) (env : Setup) : Hook unit :=
  try_catch
    (Sup.when (has_onAuth options)
       (match onAuth_throws env with
        | Some error => throw error
        | None => ret tt
        end) ;;
     unsubscribe <- Sup.start_stream user (stream_throws env) ;;
     Sup.update (set_streamUnsubscribeRef (Some unsubscribe)) ;;
     Sup.update (setIsReady true) ;;
     Sup.update (setRetryCount 0) ;;
     Sup.update (setIsRetrying false))
    (fun error => handleStreamError (as_exception error)).

(** A call of [setupStream(user)] during which no other callback runs. *)
Definition setupStream (user : User) (env : Setup) : Hook unit :=
  goes_on <- setupStream_begin user ;;
  if goes_on then setupStream_resume user env else ret tt.

(** Two calls of [setupStream], the second made as soon as the first
    returns its promise. With an [onAuth] the first is then suspended at
    [await onAuth(user)]: the calls overlap, and they resume in the order
    in which they started. Without one there is no [await] on the way, and
    the first has run to its end. *)
Definition overlapping_setups (user1 : User) (env1 : Setup)
    (user2 : User) (env2 : Setup) : Hook unit :=
  if has_onAuth options then
    first_goes_on <- setupStream_begin user1 ;;
    second_goes_on <- setupStream_begin user2 ;;
    (if first_goes_on then setupStream_resume user1 env1 else ret tt) ;;
    (if second_goes_on then setupStream_resume user2 env2 else ret tt)
  else
    setupStream user1 env1 ;;
    setupStream user2 env2.

(** The callback of the retry timer:
    [if (isMountedRef.current && currentUserRef.current)
       setupStream(currentUserRef.current)]. *)
Definition onRetryTimeout (t : nat) (env : Setup) : Hook unit :=
  Sup.fire t ;;
  mounted <- Sup.read isMountedRef ;;
  user <- Sup.read currentUserRef ;;
  match mounted, user with
  | true, Some user => setupStream user env
  | _, _ => ret tt
  end.

(** [handleSignOut()] *)
Definition handleSignOut : Hook unit :=
  mounted <- Sup.read isMountedRef ;;
  if negb mounted then ret tt else
  cleanupStream ;;
  Sup.update (setCachedUserId None) ;;
  Sup.update (setIsReady false) ;;
  Sup.update (setRetryCount 0) ;;
  Sup.update (setIsRetrying false) ;;
  Sup.update (set_currentUserRef None) ;;
  Sup.emit (OnData None None) ;;
  Sup.when (has_onDone options) (Sup.emit (OnDone 0 (maxRetries options))).

(** [resetAndReinitialize()] *)
Definition resetAndReinitialize (env : Setup) : Hook unit :=
  mounted <- Sup.read isMountedRef ;;
  if negb mounted then ret tt else
  cleanupStream ;;
  Sup.update (setRetryCount 0) ;;
  Sup.update (setIsRetrying false) ;;
  user <- Sup.read currentUserRef ;;
  match user with
  | Some user => setupStream user env
  | None => ret tt
  end.

(** The callback given to [onAuthStateChanged]. *)
Definition onAuthStateChanged (user : option User) (env : Setup) : Hook unit :=
  mounted <- Sup.read isMountedRef ;;
  if negb mounted then ret tt else
  Sup.update (set_currentUserRef user) ;;
  match user with
  | Some user =>
      Sup.update (setCachedUserId (Some (uid user))) ;;
      setupStream user env
  | None => handleSignOut
  end.

(** The cleanup of the effect (unmount). *)
Definition unmount : Hook unit :=
  Sup.update (set_isMountedRef false) ;;
  cleanupStream.

(** A stream setup that fails: [onAuth] (when given) or [stream] throws. *)
Definition setup_fails (env : Setup) : bool :=
  (has_onAuth options && bool_decide (is_Some (onAuth_throws env)))
  || bool_decide (is_Some (stream_throws env)).

(** The retry timer fires as long as one is set. *)
Definition retry (env : Setup) : Hook unit :=
  timer <- Sup.read retryTimeoutRef ;;
  match timer with
  | Some t => onRetryTimeout t env
  | None => ret tt
  end.

(** A sign-in followed by the retries its failures schedule. *)
Fixpoint retries (envs : list Setup) : Hook unit :=
  match envs with
  | [] => ret tt
  | env :: rest => retry env ;; retries rest
  end.

Definition sign_in_and_retry (user : User) (env : Setup) (envs : list Setup)
    : Hook unit :=
  onAuthStateChanged (Some user) env ;; retries envs.

End useAuthSync.
End AuthSync.

(** ** FirebaseAuthService

    [onError] and [onDone] are methods with a default body, [onAuth] is
    optional. The errors handed to the service are the ones its casts
    expect: a firebase [FirestoreError] or a [TurboFirestoreException].

    The callback given to [onAuthStateChanged] suspends twice when a user is
    reported; it is given in its three parts, and as the call in which the
    parts follow each other at once. *)

Module AuthService.
Section FirebaseAuthService.
Context {V : Type}.

(** Whether the subclass defines [onAuth]. *)
Context (has_onAuth : bool).

Inductive StreamError : Set :=
| FromFirestore (e : FirestoreError)
| FromTurbo (e : TurboFirestoreException).

Record State : Set := mkState {
  cachedUserId : option string;
  _subscription : option nat;
  _userSubscription : option nat;
  _retryTimer : option nat;
  _nrOfRetry : Z
}.

Definition _maxNrOfRetry : Z := 20.

Definition initial : State := mkState None None None None 0.

Definition set_cachedUserId (u : option string) (s : State) : State :=
  mkState u (_subscription s) (_userSubscription s) (_retryTimer s)
    (_nrOfRetry s).
Definition set_subscription (h : option nat) (s : State) : State :=
  mkState (cachedUserId s) h (_userSubscription s) (_retryTimer s)
    (_nrOfRetry s).
Definition set_userSubscription (h : option nat) (s : State) : State :=
  mkState (cachedUserId s) (_subscription s) h (_retryTimer s) (_nrOfRetry s).
Definition set_retryTimer (t : option nat) (s : State) : State :=
  mkState (cachedUserId s) (_subscription s) (_userSubscription s) t
    (_nrOfRetry s).
Definition set_nrOfRetry (n : Z) (s : State) : State :=
  mkState (cachedUserId s) (_subscription s) (_userSubscription s)
    (_retryTimer s) n.

#[local] Abbreviation Service A := (M (SupWorld V State) A).

(** [error instanceof TurboFirestoreException ? error
      : TurboFirestoreException.fromFirestoreError(error)] *)
Definition as_exception (error : StreamError) : TurboFirestoreException :=
  match error with
  | FromTurbo e => e
  | FromFirestore e => fromFirestoreError e None None
  end.

(** [_resetStream()] *)
Definition _resetStream : Service unit :=
  userSubscription <- Sup.read _userSubscription ;;
  match userSubscription with
  | Some h => Sup.emit (AuthStopped h)
  | None => ret tt
  end ;;
  Sup.update (set_userSubscription None) ;;
  subscription <- Sup.read _subscription ;;
  match subscription with
  | Some h => Sup.stop_stream h
  | None => ret tt
  end ;;
  Sup.update (set_subscription None).

(** [_resetRetryTimer()] *)
Definition _resetRetryTimer : Service unit :=
  timer <- Sup.read _retryTimer ;;
  match timer with
  | Some t => Sup.clearTimeout t ;; Sup.update (set_retryTimer None)
  | None => ret tt
  end.

(** [_tryRetry()]; the callback of the timer it sets is [onRetryTimeout]
    below. *)
Definition _tryRetry : Service unit :=
  nrOfRetry <- Sup.read _nrOfRetry ;;
  if (nrOfRetry <? _maxNrOfRetry)%Z then
    timer <- Sup.read _retryTimer ;;
    match timer with
    | Some _ => _resetRetryTimer
    | None => ret tt
    end ;;
    t <- Sup.setTimeout 10000 ;;
    Sup.update (set_retryTimer (Some t))
  else
    _resetStream.

(** [tryInitialiseStream()]: [this._userSubscription ??=
    onAuthStateChanged(...)] inside a [try]; [throws] says whether
    [onAuthStateChanged] throws. *)
Definition tryInitialiseStream (throws : option StreamError) : Service unit :=
  userSubscription <- Sup.read _userSubscription ;;
  match userSubscription with
  | Some _ => ret tt
  | None =>
      match throws with
      | Some error =>
          Sup.emit (OnError (as_exception error)) ;;
          _tryRetry
      | None =>
          fun w =>
            (Returns tt,
             mkSupWorld (set_userSubscription (Some (fresh w)) (sup w))
               (events w ++ [AuthListening (fresh w)]) (S (fresh w))
               (live_streams w) (pending_timers w))
      end
  end.

(** The report of a user, up to the first [await]:
    [this.cachedUserId = userId; await this.onAuth?.(user)]. *)
Definition onUser_begin (user : User) : Service unit :=
  Sup.update (set_cachedUserId (Some (uid user))) ;;
  Sup.when has_onAuth (Sup.emit (OnAuth user)).

(** The report of a user, from the first [await] to the second, inside
    [this._subscription ??= await this.stream(user, ...)]: the promise of
    [onAuth] has settled (a rejection rejects the callback), [_subscription]
    is tested and, when it is [null], [stream] is called and awaited. The
    unsubscribe function that is still to be assigned is returned. *)
Definition onUser_stream (user : User) (env : Setup) : Service (option nat) :=
  Sup.when has_onAuth
    (match onAuth_throws env with
     | Some error => throw error
     | None => ret tt
     end) ;;
  subscription <- Sup.read _subscription ;;
  match subscription with
  | Some _ => ret None
  | None =>
      h <- Sup.start_stream user (stream_throws env) ;;
      ret (Some h)
  end.

(** The report of a user, after the second [await]: the assignment of
    [this._subscription ??= ...]. *)
Definition onUser_assign (started : option nat) : Service unit :=
  match started with
  | Some h => Sup.update (set_subscription (Some h))
  | None => ret tt
  end.

(** The report of no user:
    [this.cachedUserId = null; this._subscription?.();
     this._subscription = null; await this.onData(null, null)]. *)
Definition onNoUser : Service unit :=
  Sup.update (set_cachedUserId None) ;;
  subscription <- Sup.read _subscription ;;
  match subscription with
  | Some h => Sup.stop_stream h
  | None => ret tt
  end ;;
  Sup.update (set_subscription None) ;;
  Sup.emit (OnData None None).

(** The callback given to [onAuthStateChanged], called while no other
    callback runs. *)
Definition onAuthStateChanged (user : option User) (env : Setup) : Service unit :=
  match user with
  | Some user =>
      onUser_begin user ;;
      started <- onUser_stream user env ;;
      onUser_assign started
  | None => onNoUser
  end.

(** A part of a report whose rejection ends that report only. *)
Definition settled (part : Service (option nat)) : Service (option nat) :=
  try_catch part (fun _ => ret None).

(** Two reports of a user that overlap: the second starts while the first
    is suspended, and each part of the first runs before the same part of
    the second. *)
Definition overlapping_reports (user1 : User) (env1 : Setup)
    (user2 : User) (env2 : Setup) : Service unit :=
  onUser_begin user1 ;;
  onUser_begin user2 ;;
  started1 <- settled (onUser_stream user1 env1) ;;
  started2 <- settled (onUser_stream user2 env2) ;;
  onUser_assign started1 ;;
  onUser_assign started2.

(** The value callback handed to [stream]. *)
Definition onValue (value : option V) (user : User) : Service unit :=
  Sup.emit (OnData value (Some user)).

(** The error callback handed to [stream]. *)
Definition onStreamError (error : StreamError) : Service unit :=
  Sup.emit (OnError (as_exception error)) ;;
  _tryRetry.

(** The callback of the retry timer:
    [this._nrOfRetry++; await this._resetStream();
     await this.tryInitialiseStream(); this._retryTimer = null]. *)
Definition onRetryTimeout (t : nat) (throws : option StreamError) : Service unit :=
  Sup.fire t ;;
  nrOfRetry <- Sup.read _nrOfRetry ;;
  Sup.update (set_nrOfRetry (nrOfRetry + 1)) ;;
  _resetStream ;;
  tryInitialiseStream throws ;;
  Sup.update (set_retryTimer None).

(** [resetAndTryInitialiseStream()] *)
Definition resetAndTryInitialiseStream (throws : option StreamError) : Service unit :=
  _resetStream ;;
  tryInitialiseStream throws.

(** [dispose()] *)
Definition dispose : Service unit :=
  _resetStream ;;
  _resetRetryTimer ;;
  Sup.update (set_nrOfRetry 0).

(** One stream error and the retry it schedules: the error callback runs,
    the pending timers fire, the service listens to the authentication
    state again and the user is reported again. *)
Definition fire_pending (throws : option StreamError) : Service unit :=
  pending <- gets pending_timers ;;
  match pending with
  | t :: _ => onRetryTimeout t throws
  | [] => ret tt
  end.

Definition error_and_retry (user : User) (error : StreamError) : Service unit :=
  onStreamError error ;;
  fire_pending None ;;
  onAuthStateChanged (Some user) (mkSetup None None).

Fixpoint errors_and_retries (user : User) (errors : list StreamError)
    : Service unit :=
  match errors with
  | [] => ret tt
  | error :: rest => error_and_retry user error ;; errors_and_retries user rest
  end.

(** The same when it is [onAuthStateChanged] that keeps throwing: no stream
    is set up between two errors. *)
Fixpoint failing_initialisations (errors : list StreamError) : Service unit :=
  match errors with
  | [] => ret tt
  | error :: rest =>
      fire_pending (Some error) ;; failing_initialisations rest
  end.

End FirebaseAuthService.
End AuthService.

(** ** TurboFirestoreApi: the payload of a write and the fields of a read

    A JSON object ([Record<string, unknown>]) is a finite map from field
    names to values. Of the values the sources build two: the sentinel
    that [serverTimestamp()] returns and a string. *)

Module ApiData.

(** [enum TurboTimestampType] *)
Inductive TurboTimestampType : Set :=
| NoTimestamps   (* TurboTimestampType.None *)
| CreatedAt
| UpdatedAt
| Both.

#[global] Instance TurboTimestampType_eq_dec : EqDecision TurboTimestampType.
Proof. solve_decision. Defined.

(** The options of [TurboFirestoreApiOptions] that name and switch the
    fields the API adds; all of them are optional. *)
Record TurboFirestoreApiOptions : Set := mkApiOptions {
  opt_tryAddLocalId : option bool;
  opt_idFieldName : option string;
  opt_createdAtFieldName : option string;
  opt_updatedAtFieldName : option string;
  opt_documentReferenceFieldName : option string;
  opt_tryAddLocalDocumentReference : option bool
}.

(** The private fields the constructor sets from them. *)
Record Fields : Set := mkFields {
  tryAddLocalId : bool;
  idFieldName : string;
  createdAtFieldName : string;
  updatedAtFieldName : string;
  documentReferenceFieldName : string;
  tryAddLocalDocumentReference : bool
}.

(** [constructor(options)]: [options.x ?? default]. *)
Definition constructor (options : TurboFirestoreApiOptions) : Fields :=
  mkFields
    (default true (opt_tryAddLocalId options))
    (default "id" (opt_idFieldName options))
    (default "createdAt" (opt_createdAtFieldName options))
    (default "updatedAt" (opt_updatedAtFieldName options))
    (default "documentReferencePath" (opt_documentReferenceFieldName options))
    (default false (opt_tryAddLocalDocumentReference options)).

Section TurboFirestoreApi_data.
Context {Value : Type}.

(** [serverTimestamp()], and a string stored as a field. *)
Context (serverTimestamp : Value) (string_value : string -> Value).

(** The fields of [this]. *)
Context (this : Fields).

(** [addTimestamps(data, timestampType, isCreate)] *)
Definition addTimestamps (data : gmap string Value)
    (timestampType : TurboTimestampType) (isCreate : bool)
    : gmap string Value :=
  let result := data in
  let result :=
    if bool_decide (timestampType = CreatedAt)
       || bool_decide (timestampType = Both)
    then
      if isCreate
      then <[createdAtFieldName this := serverTimestamp]> result
      else result
    else result in
  let result :=
    if bool_decide (timestampType = UpdatedAt)
       || bool_decide (timestampType = Both)
    then <[updatedAtFieldName this := serverTimestamp]> result
    else result in
  result.

(** [addLocalFields(data, id, path)] *)
Definition addLocalFields (data : gmap string Value) (id path : string)
    : gmap string Value :=
  let result := data in
  let result :=
    if tryAddLocalId this
    then <[idFieldName this := string_value id]> result
    else result in
  let result :=
    if tryAddLocalDocumentReference this
    then <[documentReferenceFieldName this := string_value path]> result
    else result in
  result.

(** The payload [createDoc] and [createDocInBatch] hand to [setDoc] and
    [batch.set]: [addTimestamps(data, timestampType, true)] with
    [timestampType = TurboTimestampType.Both] by default; [data] is what
    [toJsonFn] made of the writeable. *)
Definition createDoc_data (data : gmap string Value)
    (timestampType : option TurboTimestampType) : gmap string Value :=
  addTimestamps data (default Both timestampType) true.

(** The payload [updateDoc] and [updateDocInBatch] hand to [updateDoc] and
    [batch.update]: [addTimestamps({ ...data }, timestampType, false)] with
    [timestampType = TurboTimestampType.UpdatedAt] by default. *)
Definition updateDoc_data (data : gmap string Value)
    (timestampType : option TurboTimestampType) : gmap string Value :=
  addTimestamps data (default UpdatedAt timestampType) false.

(** What the sources read of a [DocumentSnapshot]: [id], [ref.path] and
    [data()], which is there when [exists()]. *)
Record DocumentSnapshot : Type := mkSnapshot {
  snap_id : string;
  snap_path : string;
  snap_data : option (gmap string Value)
}.

(** [collectionPathFn()], and the answer of the SDK to building the
    reference of a document in a collection and reading it: a snapshot or
    a thrown [FirestoreError]. *)
Context (collectionPathFn : string).
Context (getDoc : string -> string -> FirestoreError + DocumentSnapshot).

(** The path [getCollectionReference(collectionPathOverride)] uses:
    [collectionPathOverride ?? this.collectionPathFn()]. *)
Definition collection_path (collectionPathOverride : option string) : string :=
  default collectionPathFn collectionPathOverride.

(** [async getById(id, collectionPathOverride?)] *)
Definition getById (id : string) (collectionPathOverride : option string)
    : TurboResponse (option (gmap string Value)) :=
  match getDoc (collection_path collectionPathOverride) id with
  | inr docSnap =>
      match snap_data docSnap with
      | None => Success None None None
      | Some data =>
          let data :=
            addLocalFields data (snap_id docSnap) (snap_path docSnap) in
          Success (Some data) None None
      end
  | inl firestoreError =>
      let exception :=
        fromFirestoreError firestoreError (Some collectionPathFn) None in
      Fail (JsException exception) None (Some (exn_message exception))
           (exn_stackTrace exception)
  end.

End TurboFirestoreApi_data.
End ApiData.

(** ** Type guards (TurboWriteable.ts, TurboWriteableId.ts) *)

Module Guards.

(** A JavaScript value as the guards see it: its type and, for an object,
    the properties that ['key' in obj] finds. *)
#[warnings="-register-all"]
Inductive JsValue : Type :=
| JsUndefined
| JsNull
| JsBoolean (b : bool)
| JsNumber (n : Z)
| JsString (s : string)
| JsFunction
| JsObject (properties : list (string * JsValue)).

(** [typeof value] *)
Definition typeof (value : JsValue) : string :=
  match value with
  | JsUndefined => "undefined"
  | JsNull => "object"
  | JsBoolean _ => "boolean"
  | JsNumber _ => "number"
  | JsString _ => "string"
  | JsFunction => "function"
  | JsObject _ => "object"
  end.

(** The first binding of a key in a list of properties. *)
Fixpoint lookup_property (key : string) (properties : list (string * JsValue))
    : option JsValue :=
  match properties with
  | [] => None
  | (k, v) :: rest =>
      if String.eqb k key then Some v else lookup_property key rest
  end.

(** ['key' in obj], for an [obj] whose [typeof] is 'object' and that is
    not [null]. *)
Definition has_property (key : string) (obj : JsValue) : bool :=
  match obj with
  | JsObject properties => bool_decide (is_Some (lookup_property key properties))
  | _ => false
  end.

(** [obj.key]: [undefined] when the property is missing. *)
Definition get_property (key : string) (obj : JsValue) : JsValue :=
  match obj with
  | JsObject properties => default JsUndefined (lookup_property key properties)
  | _ => JsUndefined
  end.

Definition is_null (value : JsValue) : bool :=
  match value with JsNull => true | _ => false end.

Definition is_undefined (value : JsValue) : bool :=
  match value with JsUndefined => true | _ => false end.

(** [isTurboWriteable(obj)] *)
Definition isTurboWriteable (obj : JsValue) : bool :=
  negb (is_null obj)
  && negb (is_undefined obj)
  && String.eqb (typeof obj) "object"
  && has_property "toJson" obj
  && String.eqb (typeof (get_property "toJson" obj)) "function".

(** [isTurboWriteableId(obj)] *)
Definition isTurboWriteableId (obj : JsValue) : bool :=
  negb (is_null obj)
  && negb (is_undefined obj)
  && String.eqb (typeof obj) "object"
  && has_property "id" obj
  && (String.eqb (typeof (get_property "id" obj)) "string"
      || String.eqb (typeof (get_property "id" obj)) "number")
  && has_property "toJson" obj
  && String.eqb (typeof (get_property "toJson" obj)) "function".

End Guards.

(** ** useTurboCollection: lookups and local mutators *)

Module CollectionLocal.
Section useTurboCollection_local.
Context {T Json : Type} {writeable : TurboWriteableId T Json} {env : Env T Json}.

(** [new Map(docs.map(doc => [doc.id, doc]))]: of two documents with the
    same id the later one stays. *)
Definition by_id (docs : list T) : gmap string T :=
  list_to_map (map (fun doc => (doc_id doc, doc)) (rev docs)).

(** The first state of the hook:
    [useState(() => new Map(initialDocs?.map(doc => [doc.id, doc]) ?? []))]
    and [useState(false)]. *)
Definition initial (initialDocs : option (list T)) : Collection.State T :=
  Collection.mkState (by_id (default [] initialDocs)) false.

(** [hasDocs]: [docsById.size > 0]. *)
Definition hasDocs (docsById : gmap string T) : bool :=
  bool_decide (0 < size docsById).

Definition not_in_collection (id : string) : Thrown :=
  JsError ("Document with id " +:+ dquote +:+ id +:+ dquote
             +:+ " not found in collection").

(** [findById(id)]: like [tryFindById] it reads the [docsById] of the
    render that created the callback. *)
Definition findById (docsById : gmap string T) (id : string) : Outcome T :=
  match docsById !! id with
  | Some doc => Returns doc
  | None => Throws (not_in_collection id)
  end.

(** [exists(id)]: [docsById.has(id)]. *)
Definition exists_ (docsById : gmap string T) (id : string) : bool :=
  bool_decide (is_Some (docsById !! id)).

(** [createLocalDoc(def)] *)
Definition createLocalDoc (def : CreateDocDef T)
    : M (World T Json (Collection.State T)) T :=
  vars <- Collection.createAuthVars ;;
  newDoc <- lift (def vars) ;;
  Collection.setDocsById (fun prev => <[doc_id newDoc := newDoc]> prev) ;;
  ret newDoc.

(** [updateLocalDoc(id, def)] *)
Definition updateLocalDoc (docsById : gmap string T) (id : string)
    (def : UpdateDocDef T) : M (World T Json (Collection.State T)) T :=
  current <- lift (findById docsById id) ;;
  vars <- Collection.createAuthVars ;;
  updatedDoc <- lift (def current vars) ;;
  Collection.setDocsById (fun prev => <[id := updatedDoc]> prev) ;;
  ret updatedDoc.

(** [deleteLocalDoc(id)] *)
Definition deleteLocalDoc (id : string)
    : M (World T Json (Collection.State T)) unit :=
  Collection.setDocsById (fun prev => delete id prev).

End useTurboCollection_local.
End CollectionLocal.

(** ** useTurboDocument: getters and local mutators *)

Module DocumentLocal.
Section useTurboDocument_local.
Context {T Json : Type} {writeable : TurboWriteableId T Json} {env : Env T Json}.
Context (documentId : string).

(** [id: doc?.id ?? null] *)
Definition id (s : Document.State T) : option string :=
  match Document.doc s with
  | Some doc => Some (doc_id doc)
  | None => None
  end.

(** [exists: doc !== null] *)
Definition exists_ (s : Document.State T) : bool :=
  bool_decide (is_Some (Document.doc s)).

(** The error callback of the stream: [onError?.(error); setIsReady(true)]. *)
Definition onStreamError : M (World T Json (Document.State T)) unit :=
  Api.update_local (fun s =>
    Document.mkState (Document.doc s) true (Document.previousDocRef s)).

(** [createLocalDoc(def)] *)
Definition createLocalDoc (def : CreateDocDef T)
    : M (World T Json (Document.State T)) T :=
  vars <- Document.generateAuthVars ;;
  newDoc <- lift (def vars) ;;
  Document.updateLocalState (Some newDoc) ;;
  ret newDoc.

(** The exception of [updateLocalDoc] on a missing document. *)
Definition not_found_locally : TurboFirestoreException :=
  mkException BaseException "Cannot update locally: document does not exist"
    "not-found" (Some documentId) None None.

(** [updateLocalDoc(def)] *)
Definition updateLocalDoc (def : UpdateDocDef T)
    : M (World T Json (Document.State T)) T :=
  currentDoc <- Api.read_local Document.previousDocRef ;;
  match currentDoc with
  | None => throw (JsException not_found_locally)
  | Some currentDoc =>
      vars <- Document.generateAuthVars ;;
      updatedDoc <- lift (def currentDoc vars) ;;
      Document.updateLocalState (Some updatedDoc) ;;
      ret updatedDoc
  end.

(** [deleteLocalDoc()] *)
Definition deleteLocalDoc : M (World T Json (Document.State T)) unit :=
  Document.updateLocalState None.

End useTurboDocument_local.
End DocumentLocal.

(** ** TurboDocumentService: getters and lifecycle *)

Module DocumentServiceLife.
Section TurboDocumentService_life.
Context {T Json : Type} {writeable : TurboWriteableId T Json} {env : Env T Json}.

(** [get id()]: [this._doc.value?.id ?? null] *)
Definition id (s : DocumentService.State T) : option string :=
  match DocumentService._doc s with
  | Some doc => Some (doc_id doc)
  | None => None
  end.

(** [get exists()]: [this._doc.value !== null] *)
Definition exists_ (s : DocumentService.State T) : bool :=
  bool_decide (is_Some (DocumentService._doc s)).

(** [_markReady()] *)
Definition _markReady : M (World T Json (DocumentService.State T)) unit :=
  resolved <- Api.read_local DocumentService._isReadyResolved ;;
  if negb resolved
  then Api.update_local (fun s =>
         DocumentService.mkState (DocumentService._doc s)
           (DocumentService._unsubscribe s) true)
  else ret tt.

(** [dispose()]: [this.stopStream(); this._doc.dispose()] and the promise
    of [isReady] is resolved if it was not. *)
Definition dispose : M (World T Json (DocumentService.State T)) unit :=
  DocumentService.stopStream ;;
  _markReady.

End TurboDocumentService_life.
End DocumentServiceLife.

(** ** TurboCollectionService

    The class keeps its documents in an [Informer] ([_docsById]), the list
    of the last snapshot in another ([_docsInformer]) and the unsubscribe
    function of its stream in [_unsubscribe]. As for the document service,
    the [doNotifyListeners] arguments only reach observers and are left
    out, and so is what [Informer.dispose()] does to them. The optional
    callbacks ([beforeSync], [afterSync], [onError]) are [null], as the
    field initialisers leave them. [load] and the promise it keeps are not
    modelled, nor are [createLocalDocs] and [createDocs], which draw a fresh
    id from the API for every element. *)

Module CollectionService.
Section TurboCollectionService.
Context {T Json : Type} {writeable : TurboWriteableId T Json} {env : Env T Json}.

Record State : Type := mkState {
  _docsById : gmap string T;
  _docsInformer : list T;
  _isReadyResolved : bool;
  _isLoaded : bool;
  _isLoading : bool;
  _unsubscribe : option nat
}.

(** The field initialisers. *)
Definition initial : State := mkState ∅ [] false false false None.

#[local] Abbreviation Service A := (M (World T Json State) A).

Definition set_docsById (f : gmap string T -> gmap string T) (s : State) : State :=
  mkState (f (_docsById s)) (_docsInformer s) (_isReadyResolved s)
    (_isLoaded s) (_isLoading s) (_unsubscribe s).

Definition set_unsubscribe (h : option nat) (s : State) : State :=
  mkState (_docsById s) (_docsInformer s) (_isReadyResolved s)
    (_isLoaded s) (_isLoading s) h.

(** [this._docsById.updateCurrent(map => ...)] *)
Definition updateCurrent (f : gmap string T -> gmap string T) : Service unit :=
  Api.update_local (set_docsById f).

(** [get hasDocs()] *)
Definition hasDocs (s : State) : bool := bool_decide (0 < size (_docsById s)).

(** [exists(id)] *)
Definition exists_ (s : State) (id : string) : bool :=
  bool_decide (is_Some (_docsById s !! id)).

(** [findById(id)] *)
Definition findById (id : string) : Service T :=
  docs <- Api.read_local _docsById ;;
  match docs !! id with
  | Some doc => ret doc
  | None => throw (CollectionLocal.not_in_collection id)
  end.

(** [tryFindById(id)] and [tryGetById(id)]:
    [if (!id) return null; return this._docsById.value.get(id) ?? null]. *)
Definition tryFindById (id : string) : Service (option T) :=
  if truthy id then Api.read_local (fun s => _docsById s !! id) else ret None.

(** [getById(id)] *)
Definition getById (id : string) : Service (option T) :=
  Api.read_local (fun s => _docsById s !! id).

(** What a read of the remote store finds: [docSnap.data()] of a snapshot
    that exists, through the converter, which is taken to return. *)
Context (snapshot_data : string -> T).

(** [api.getByIdWithConverter(id)]:
    [try { docRef = getDocRefByIdWithConverter(id); docSnap = await
    getDoc(docRef); if (!docSnap.exists()) return success(null);
    return success(docSnap.data()) } catch (error) { return fail(...) }]. *)
Definition getByIdWithConverter (id : string) : Service (TurboResponse (option T)) :=
  let failed (error : FirestoreError) : TurboResponse (option T) :=
    let exception := fromFirestoreError error (Some collectionPath) None in
    Fail (JsException exception) None (Some (exn_message exception))
         (exn_stackTrace exception) in
  thrown <- Api.sdk (DocRef id) ;;
  match thrown with
  | Some error => ret (failed error)
  | None =>
      thrown <- Api.sdk (GetDoc id) ;;
      match thrown with
      | Some error => ret (failed error)
      | None =>
          if snapshot_exists id
          then ret (Success (Some (snapshot_data id)) None None)
          else ret (Success None None None)
      end
  end.

(** [async fetchById(id)] *)
Definition fetchById (id : string) : Service (option T) :=
  cached <- Api.read_local (fun s => _docsById s !! id) ;;
  match cached with
  | Some cached => ret (Some cached)
  | None =>
      response <- getByIdWithConverter id ;;
      match response with
      | Success (Some result) _ _ => ret (Some result)
      | _ => ret None
      end
  end.

(** [stopStream()] *)
Definition stopStream : Service unit :=
  handle <- Api.read_local _unsubscribe ;;
  match handle with
  | Some h => Api.unsubscribe h
  | None => ret tt
  end ;;
  Api.update_local (set_unsubscribe None).

(** [api.streamAllWithConverter(...)] and [api.streamByQuery(queryDef,
    ...)]: they build the reference (and the query, with caller code), which
    may throw, and return what [onSnapshot] returns, a fresh unsubscribe
    function. *)
Definition listen (throws : option Thrown) : Service nat :=
  match throws with
  | Some error => throw error
  | None =>
      fun w =>
        (Returns (next_handle w),
         mkWorld (local w) (trace w ++ [Listening (next_handle w)])
                 (S (next_handle w)))
  end.

(** [stream()] and [streamByQuery(queryDef)]:
    [this.stopStream(); this._unsubscribe = this.api.stream...(...)]. *)
Definition stream (throws : option Thrown) : Service unit :=
  stopStream ;;
  h <- listen throws ;;
  Api.update_local (set_unsubscribe (Some h)).

Definition streamByQuery (throws : option Thrown) : Service unit :=
  stopStream ;;
  h <- listen throws ;;
  Api.update_local (set_unsubscribe (Some h)).

(** [_markReady()] *)
Definition _markReady : Service unit :=
  resolved <- Api.read_local _isReadyResolved ;;
  if negb resolved
  then Api.update_local (fun s =>
         mkState (_docsById s) (_docsInformer s) true (_isLoaded s)
           (_isLoading s) (_unsubscribe s))
  else ret tt.

(** [_handleStreamData(docs)], with [beforeSync] and [afterSync] at [null]. *)
Definition _handleStreamData (docs : list T) : Service unit :=
  let map := CollectionLocal.by_id docs in
  Api.update_local (fun s =>
    mkState map (_docsInformer s) (_isReadyResolved s) (_isLoaded s)
      (_isLoading s) (_unsubscribe s)) ;;
  Api.update_local (fun s =>
    mkState (_docsById s) docs (_isReadyResolved s) (_isLoaded s)
      (_isLoading s) (_unsubscribe s)) ;;
  Api.update_local (fun s =>
    mkState (_docsById s) (_docsInformer s) (_isReadyResolved s) true
      false (_unsubscribe s)) ;;
  _markReady.

Definition NO_AUTH_ID : string := "no-auth".

(** [turboVars(id?)], as in the document service. *)
Definition turboVars (id : option string) : Service TurboAuthVars :=
  id <- match id with
        | Some id => ret id
        | None => Api.genId
        end ;;
  userId <- lift getUserId ;;
  ret (mkVars id now (default NO_AUTH_ID userId)).

(** [createLocalDoc(doc)] *)
Definition createLocalDoc (doc : CreateDocDef T) : Service T :=
  vars <- turboVars None ;;
  pDoc <- lift (doc vars) ;;
  updateCurrent (fun map => <[doc_id pDoc := pDoc]> map) ;;
  ret pDoc.

(** [updateLocalDoc(id, doc)] *)
Definition updateLocalDoc (id : string) (doc : UpdateDocDef T) : Service T :=
  current <- findById id ;;
  vars <- turboVars (Some id) ;;
  pDoc <- lift (doc current vars) ;;
  updateCurrent (fun map => <[doc_id pDoc := pDoc]> map) ;;
  ret pDoc.

(** [deleteLocalDoc(id)] *)
Definition deleteLocalDoc (id : string) : Service unit :=
  updateCurrent (fun map => delete id map).

(** [upsertLocalDoc(id, doc)] *)
Definition upsertLocalDoc (id : string) (doc : UpsertDocDef T) : Service T :=
  current <- tryFindById id ;;
  vars <- turboVars (Some id) ;;
  pDoc <- lift (doc current vars) ;;
  updateCurrent (fun map => <[doc_id pDoc := pDoc]> map) ;;
  ret pDoc.

(** [updateLocalDocs(ids, doc)]:
    [for (const id of ids) pDocs.push(this.updateLocalDoc(id, doc, false))]. *)
Definition updateLocalDocs (ids : list string) (doc : UpdateDocDef T)
    : Service (list T) :=
  mapM (fun id => updateLocalDoc id doc) ids.

(** [deleteLocalDocs(ids)] *)
Definition deleteLocalDocs (ids : list string) : Service unit :=
  mapM deleteLocalDoc ids ;; ret tt.

(** [upsertLocalDocs(ids, doc)] *)
Definition upsertLocalDocs (ids : list string) (doc : UpsertDocDef T)
    : Service (list T) :=
  mapM (fun id => upsertLocalDoc id doc) ids.

(** [catch (error) { return fail(error) }] *)
Definition catch_fail {A} (error : Thrown) : Service (TurboResponse A) :=
  ret (Fail error None None None).

(** [createDoc(doc)] *)
Definition createDoc (doc : CreateDocDef T) : Service (TurboResponse T) :=
  try_catch
    (pDoc <- createLocalDoc doc ;;
     response <- Api.createDoc pDoc (doc_id pDoc) false ;;
     match response with
     | Fail error title message stackTrace =>
         ret (Fail error title message stackTrace)
     | Success _ _ _ => ret (Success pDoc None None)
     end)
    catch_fail.

(** [updateDoc(id, doc)] *)
Definition updateDoc (id : string) (doc : UpdateDocDef T)
    : Service (TurboResponse T) :=
  try_catch
    (pDoc <- updateLocalDoc id doc ;;
     data <- lift (toJson pDoc) ;;
     response <- Api.updateDoc id data ;;
     match response with
     | Fail error title message stackTrace =>
         ret (Fail error title message stackTrace)
     | Success _ _ _ => ret (Success pDoc None None)
     end)
    catch_fail.

(** [deleteDoc(id)] *)
Definition deleteDoc (id : string) : Service (TurboResponse unit) :=
  try_catch
    (deleteLocalDoc id ;;
     response <- Api.deleteDoc id ;;
     match response with
     | Fail error title message stackTrace =>
         ret (Fail error title message stackTrace)
     | Success _ _ _ => ret (Success tt None None)
     end)
    catch_fail.

(** [upsertDoc(id, doc)] *)
Definition upsertDoc (id : string) (doc : UpsertDocDef T)
    : Service (TurboResponse T) :=
  try_catch
    (pDoc <- upsertLocalDoc id doc ;;
     response <- Api.createDoc pDoc id true ;;
     match response with
     | Fail error title message stackTrace =>
         ret (Fail error title message stackTrace)
     | Success _ _ _ => ret (Success pDoc None None)
     end)
    catch_fail.

(** The loop that stages a batch:
    [for (const x of xs) { const result = api...InBatch(...);
       if (isFail(result)) return fail(result.error, ...) }].
    It yields the failure that ends it, if any. *)
Fixpoint stage {A B} (inBatch : A -> Service (TurboResponse unit))
    (xs : list A) : Service (option (TurboResponse B)) :=
  match xs with
  | [] => ret None
  | x :: rest =>
      result <- inBatch x ;;
      match result with
      | Fail error title message stackTrace =>
          ret (Some (Fail error title message stackTrace))
      | Success _ _ _ => stage inBatch rest
      end
  end.

(** [await batch.commit()] *)
Definition commit : Service unit :=
  thrown <- Api.sdk BatchCommit ;;
  match thrown with
  | Some error => throw (JsFirestoreError error)
  | None => ret tt
  end.

(** [updateDocs(ids, doc)] *)
Definition updateDocs (ids : list string) (doc : UpdateDocDef T)
    : Service (TurboResponse (list T)) :=
  try_catch
    (pDocs <- updateLocalDocs ids doc ;;
     failed <- stage (fun pDoc =>
                 data <- lift (toJson pDoc) ;;
                 Api.updateDocInBatch (doc_id pDoc) data) pDocs ;;
     match failed with
     | Some failure => ret failure
     | None => commit ;; ret (Success pDocs None None)
     end)
    catch_fail.

(** [deleteDocs(ids)] *)
Definition deleteDocs (ids : list string) : Service (TurboResponse unit) :=
  try_catch
    (deleteLocalDocs ids ;;
     failed <- stage (fun id => Api.deleteDocInBatch id) ids ;;
     match failed with
     | Some failure => ret failure
     | None => commit ;; ret (Success tt None None)
     end)
    catch_fail.

(** [upsertDocs(ids, doc)] *)
Definition upsertDocs (ids : list string) (doc : UpsertDocDef T)
    : Service (TurboResponse (list T)) :=
  try_catch
    (pDocs <- upsertLocalDocs ids doc ;;
     failed <- stage (fun pDoc =>
                 Api.createDocInBatch pDoc (doc_id pDoc) true) pDocs ;;
     match failed with
     | Some failure => ret failure
     | None => commit ;; ret (Success pDocs None None)
     end)
    catch_fail.

(** [dispose()] *)
Definition dispose : Service unit :=
  stopStream ;;
  Api.update_local (fun s =>
    mkState (_docsById s) (_docsInformer s) (_isReadyResolved s) false false
      (_unsubscribe s)) ;;
  _markReady.

End TurboCollectionService.
Arguments State T : clear implicits.
End CollectionService.

(** ** Concrete documents and environments *)

Module Scenario.

(** A to-do item, as in the scenarios of the specification. *)
Record Task : Set := mkTask {
  task_id : string;
  task_title : string;
  task_completed : bool
}.

#[global] Instance Task_writeable : TurboWriteableId Task Task :=
  {| doc_id := task_id; toJson := fun task => Returns task |}.

Definition milk : Task := mkTask "t1" "Buy milk" false.
Definition milk_done : Task := mkTask "t1" "Buy milk" true.

(** The remote store answers every call. *)
Definition online : Env Task Task :=
  {| sdk_error := fun _ => None;
     snapshot_exists := fun _ => true;
     collectionPath := "tasks";
     new_id := "t1";
     now := 0;
     getUserId := Returns None |}.

Definition unavailable : FirestoreError :=
  mkFirestoreError "The service is currently unavailable" "unavailable" None.

(** The remote store is unreachable: document references can be built,
    every other call fails with 'unavailable'. *)
Definition offline : Env Task Task :=
  {| sdk_error := fun c =>
       match c with
       | DocRef _ | NewDocRef => None
       | _ => Some unavailable
       end;
     snapshot_exists := fun _ => false;
     collectionPath := "tasks";
     new_id := "t1";
     now := 0;
     getUserId := Returns None |}.

(** Only the commit of a batch fails. *)
Definition commit_fails : Env Task Task :=
  {| sdk_error := fun c =>
       match c with BatchCommit => Some unavailable | _ => None end;
     snapshot_exists := fun _ => false;
     collectionPath := "tasks";
     new_id := "t1";
     now := 0;
     getUserId := Returns None |}.



Definition collection (docs : gmap string Task)
    : World Task Task (Collection.State Task) :=
  mkWorld (Collection.mkState docs true) [] 0.

Definition document (doc : option Task)
    : World Task Task (Document.State Task) :=
  mkWorld (Document.mkState doc true doc) [] 0.


Definition no_tasks := collection ∅.
Definition one_task := collection {[ "t1" := milk ]}.


Definition create_milk : CreateDocDef Task := fun _ => Returns milk.
Definition complete : UpdateDocDef Task :=
  fun task _ => Returns (mkTask (task_id task) (task_title task) true).
Definition upsert_milk : UpsertDocDef Task := fun _ _ => Returns milk_done.
(** An update that also changes the id of the document. *)
Definition rename : UpdateDocDef Task :=
  fun task _ => Returns (mkTask "t9" (task_title task) (task_completed task)).

Definition alice : User := mkUser "alice".
Definition stream_fails : Setup :=
  mkSetup None (Some (JsError "stream setup failed")).
Definition stream_starts : Setup := mkSetup None None.

Definition sync_options (maxRetries : Z) : AuthSync.Options :=
  AuthSync.mkOptions true true true maxRetries 1000.

Definition mounted : SupWorld unit AuthSync.State :=
  mkSupWorld AuthSync.initial [] 0 [] [].

(** The hook after a sign-in whose stream setup succeeded. *)
Definition mounted_streaming : SupWorld unit AuthSync.State :=
  state_of
    (AuthSync.onAuthStateChanged (sync_options 3) (Some alice) stream_starts
       mounted).

Definition constructed : SupWorld unit AuthService.State :=
  mkSupWorld AuthService.initial [] 0 [] [].

Definition stream_error : AuthService.StreamError :=
  AuthService.FromFirestore unavailable.

(** A service that was constructed, listens to the authentication state
    and streams for [alice]. *)
Definition streaming_service : SupWorld unit AuthService.State :=
  state_of
    ((AuthService.tryInitialiseStream None ;;
      AuthService.onAuthStateChanged false (Some alice) stream_starts)
       constructed).

(** Twenty stream errors in a row, each of the first nineteen followed by
    its retry. *)
Definition twenty_stream_errors : SupWorld unit AuthService.State :=
  state_of
    ((AuthService.errors_and_retries false alice (replicate 19 stream_error) ;;
      AuthService.onStreamError stream_error) streaming_service).

(** Twenty failures of [onAuthStateChanged] in a row: the constructor's
    and those of nineteen retries. No stream is ever set up. *)
Definition twenty_failed_initialisations : SupWorld unit AuthService.State :=
  state_of
    ((AuthService.tryInitialiseStream (Some stream_error) ;;
      AuthService.failing_initialisations (replicate 19 stream_error))
       constructed).

(** A sign-out while a retry timer is pending. *)
Definition sign_out_while_retrying : SupWorld unit AuthService.State :=
  state_of
    ((AuthService.onStreamError stream_error ;;
      AuthService.onAuthStateChanged false None stream_starts)
       streaming_service).

(** A sign-out after one retry. *)
Definition sign_out_after_retry : SupWorld unit AuthService.State :=
  state_of
    ((AuthService.error_and_retry false alice stream_error ;;
      AuthService.onAuthStateChanged false None stream_starts)
       streaming_service).


(** The user is reported twice, the second time while the first report is
    suspended. *)
Definition signed_in_twice_overlapping : SupWorld unit AuthService.State :=
  state_of
    ((AuthService.tryInitialiseStream None ;;
      AuthService.overlapping_reports false alice stream_starts
        alice stream_starts) constructed).

(** The hook sets its stream up twice, the second time while the first
    setup waits for [onAuth]. *)
Definition set_up_twice_overlapping : SupWorld unit AuthSync.State :=
  state_of
    (AuthSync.overlapping_setups (sync_options 3) alice stream_starts
       alice stream_starts mounted).

End Scenario.

(** ** Further concrete inputs *)

Module Cases.

(** An API with the default options, over records whose values are
    strings. *)
Definition default_fields : ApiData.Fields :=
  ApiData.constructor (ApiData.mkApiOptions None None None None None None).

Definition server_time : string := "server time".

(** A stored record that carries an id of its own. *)
Definition stored : gmap string string :=
  {[ "id" := "stale"; "title" := "Buy milk" ]}.

(** A remote store that holds [stored] under every id. *)
Definition tasks_getDoc (path id : string)
    : FirestoreError + ApiData.DocumentSnapshot (Value:=string) :=
  inr (ApiData.mkSnapshot id (path +:+ "/" +:+ id) (Some stored)).

Definition bread : Scenario.Task := Scenario.mkTask "t2" "Buy bread" false.

(** A collection service whose mirror holds the given documents. *)
Definition collection_service (docs : gmap string Scenario.Task)
    : World Scenario.Task Scenario.Task (CollectionService.State Scenario.Task) :=
  mkWorld (CollectionService.mkState docs [] true true false None) [] 0.

Definition one_task_service := collection_service {[ "t1" := Scenario.milk ]}.

(** The collection service after the local update of its one task. *)
Definition one_task_done := collection_service {[ "t1" := Scenario.milk_done ]}.

(** A collection service and a document service that stream. *)
Definition streaming_collection_service
    : World Scenario.Task Scenario.Task (CollectionService.State Scenario.Task) :=
  mkWorld (CollectionService.mkState ∅ [] false false false (Some 0))
          [Listening 0] 1.

Definition streaming_document_service
    : World Scenario.Task Scenario.Task (DocumentService.State Scenario.Task) :=
  mkWorld (DocumentService.mkState None (Some 0) false) [Listening 0] 1.

(** [useAuthSync] waiting for its retry timer after one failed setup. *)
Definition mounted_retrying : SupWorld unit AuthSync.State :=
  state_of
    (AuthSync.onAuthStateChanged (Scenario.sync_options 3)
       (Some Scenario.alice) Scenario.stream_fails Scenario.mounted).

(** [FirebaseAuthService] whose first stream error scheduled a retry. *)
Definition service_retrying : SupWorld unit AuthService.State :=
  state_of (AuthService.onStreamError Scenario.stream_error
              Scenario.streaming_service).

(** A stream setup in which [onAuth] throws. *)
Definition onAuth_fails : Setup :=
  mkSetup (Some (JsError "onAuth failed")) None.

End Cases.

(** ** Notions used in the statements *)

(** A run resolves with a failure result. *)
Definition resolves_with_failure {S A} (r : Outcome (TurboResponse A) * S) : Prop :=
  exists error title message stackTrace,
    outcome_of r = Returns (Fail error title message stackTrace).


(** The single-document hook keeps [previousDocRef] equal to [doc] from the
    first [updateLocalState] on; before, the ref is [null]. *)
Definition ref_follows_doc {T} (s : Document.State T) : Prop :=
  Document.previousDocRef s = None \/ Document.previousDocRef s = Document.doc s.

Definition toJson_returns {T Json} {writeable : TurboWriteableId T Json} : Prop :=
  forall doc : T, exists data : Json, toJson doc = Returns data.

(** A computation that returns, leaves the mirror alone and only adds to
    the trace: the staging calls of a batch are of this kind. *)
Definition steady {T Json L A} (m : M (World T Json L) A) : Prop :=
  forall w, exists a tr,
    m w = (Returns a, mkWorld (local w) (trace w ++ tr) (next_handle w)).

(** What [cleanupStream], [stopStream] and the like do to the handle held
    in a ref: nothing when the ref is empty. *)
Definition remove_held (ref : option nat) (l : list nat) : list nat :=
  match ref with
  | Some h => remove h l
  | None => l
  end.

Definition stops {V} (ref : option nat) : list (SupEvent V) :=
  match ref with
  | Some h => [StreamStopped h]
  | None => []
  end.

Definition clears {V} (ref : option nat) : list (SupEvent V) :=
  match ref with
  | Some t => [TimerCleared t]
  | None => []
  end.

(** Every handle of [l] is the one held in [ref]: the supervisor owns at
    most one, and no other is around. *)
Definition held_in (ref : option nat) (l : list nat) : Prop :=
  forall h, h ∈ l -> ref = Some h.

(** The [onDone] calls of a trace. *)
Definition onDone_calls {V} (evs : list (SupEvent V)) : list (Z * Z) :=
  omap (fun ev =>
          match ev with
          | OnDone retryCount maxRetries => Some (retryCount, maxRetries)
          | _ => None
          end) evs.

(** The states of the specification's machine, read off the state of the
    hook between two callbacks ([Authenticating] only exists inside
    [setupStream]). *)
Inductive Phase : Set := SignedOut | Streaming | Retrying | Exhausted.

Definition sync_phase (s : AuthSync.State) : Phase :=
  match AuthSync.currentUserRef s with
  | None => SignedOut
  | Some _ =>
      match AuthSync.streamUnsubscribeRef s, AuthSync.retryTimeoutRef s with
      | Some _, _ => Streaming
      | None, Some _ => Retrying
      | None, None => Exhausted
      end
  end.

(** The listeners a document service owns. *)
Definition held_listener (ref : option nat) : list nat :=
  match ref with
  | Some h => [h]
  | None => []
  end.

Definition unsubscribes {T Json} (ref : option nat) : list (Event T Json) :=
  match ref with
  | Some h => [Unsubscribed h]
  | None => []
  end.


(** [useAuthSync] waits for its retry timer: a user is signed in, no stream
    is held, [retryCount] failures were counted and the one pending timer
    is the one held in [retryTimeoutRef]. *)
Definition sync_retrying {V} (user : User) (count : Z)
    (w : SupWorld V AuthSync.State) : Prop :=
  AuthSync.isMountedRef (sup w) = true /\
  AuthSync.currentUserRef (sup w) = Some user /\
  AuthSync.retryCount (sup w) = count /\
  AuthSync.isRetrying (sup w) = true /\
  AuthSync.streamUnsubscribeRef (sup w) = None /\
  exists t, AuthSync.retryTimeoutRef (sup w) = Some t /\ pending_timers w = [t].

(** [useAuthSync] has spent its retry budget: the count is the maximum, no
    stream is held, no timer is held or pending, and [onDone], when given,
    was the last callback, called with the final count. *)
Definition sync_exhausted {V} (options : AuthSync.Options)
    (w : SupWorld V AuthSync.State) : Prop :=
  AuthSync.retryCount (sup w) = AuthSync.maxRetries options /\
  AuthSync.isRetrying (sup w) = false /\
  AuthSync.streamUnsubscribeRef (sup w) = None /\
  AuthSync.retryTimeoutRef (sup w) = None /\
  pending_timers w = [] /\
  sync_phase (sup w) = Exhausted /\
  (AuthSync.has_onDone options = true ->
   last (events w) = Some (OnDone (AuthSync.maxRetries options)
                                  (AuthSync.maxRetries options))).

(** [FirebaseAuthService] streams: it listens to the authentication state,
    holds the one live stream, and no retry timer is held or pending. *)
Definition service_streaming {V} (nrOfRetry : Z)
    (w : SupWorld V AuthService.State) : Prop :=
  AuthService._nrOfRetry (sup w) = nrOfRetry /\
  AuthService._retryTimer (sup w) = None /\
  pending_timers w = [] /\
  is_Some (AuthService._userSubscription (sup w)) /\
  exists h, AuthService._subscription (sup w) = Some h /\ live_streams w = [h].

(** [useAuthSync] holds in its refs every stream that is live and every
    timer that is pending. *)
Definition sync_tracked {V} (w : SupWorld V AuthSync.State) : Prop :=
  held_in (AuthSync.streamUnsubscribeRef (sup w)) (live_streams w) /\
  held_in (AuthSync.retryTimeoutRef (sup w)) (pending_timers w).

(** [TurboDocumentService] holds in [_unsubscribe] the one listener that
    is live, if any. *)
Definition service_tracked {T Json}
    (w : World T Json (DocumentService.State T)) : Prop :=
  live_listeners (trace w) []
    = held_listener (DocumentService._unsubscribe (local w)).

(** The world once [api.genId] was read: the call that builds a reference
    with a generated id is in the trace. *)
Definition after_genId {T Json L} (w : World T Json L) : World T Json L :=
  mkWorld (local w) (trace w ++ [Call NewDocRef]) (next_handle w).

(** A run that makes no call to the remote store and registers no
    listener: the trace and the next handle are as before. *)
Definition stays_local {T Json L} (w w' : World T Json L) : Prop :=
  trace w' = trace w /\ next_handle w' = next_handle w.

(** A run that reads and writes nothing of the remote store and registers
    no listener: its one call to the SDK, if any, builds a reference with a
    generated id. *)
Definition at_most_generates_an_id {T Json L} (w w' : World T Json L) : Prop :=
  stays_local w w' \/ stays_local (after_genId w) w'.

(** The documents of a snapshot that carry a given id, in order. *)
Definition with_id {T Json} {writeable : TurboWriteableId T Json}
    (id : string) (docs : list T) : list T :=
  filter (fun doc => doc_id doc = id) docs.

(** The failure result an API method builds from an SDK error, at any
    result type. *)
Definition api_failure {T Json} {env : Env T Json} {A}
    (error : FirestoreError) : TurboResponse A :=
  let exception := fromFirestoreError error (Some collectionPath) None in
  Fail (JsException exception) None (Some (exn_message exception))
       (exn_stackTrace exception).

(** The collection service holds in [_unsubscribe] the one listener that
    is live, if any. *)
Definition collection_service_tracked {T Json}
    (w : World T Json (CollectionService.State T)) : Prop :=
  live_listeners (trace w) []
    = held_listener (CollectionService._unsubscribe (local w)).

(** What the commit of a batch that was staged leaves: a success, or the
    failure that wraps what [batch.commit()] threw. *)
Definition committed {T Json} {env : Env T Json} {A} (result : A)
    : TurboResponse A :=
  match sdk_error (BatchCommit (T:=T) (Json:=Json)) with
  | Some error => Fail (JsFirestoreError error) None None None
  | None => Success result None None
  end.

(** [FirebaseAuthService] holds in [_subscription] every data stream that
    is live. *)
Definition stream_held {V} (w : SupWorld V AuthService.State) : Prop :=
  held_in (AuthService._subscription (sup w)) (live_streams w).

(** The events of releasing the authentication listener held in a ref. *)
Definition auth_stops {V} (ref : option nat) : list (SupEvent V) :=
  match ref with
  | Some h => [AuthStopped h]
  | None => []
  end.

(** [useAuthSync] streams for a user with its retry budget untouched. *)
Definition sync_streaming {V} (h : nat) (w : SupWorld V AuthSync.State) : Prop :=
  AuthSync.isReady (sup w) = true /\
  AuthSync.retryCount (sup w) = 0%Z /\
  AuthSync.isRetrying (sup w) = false /\
  AuthSync.streamUnsubscribeRef (sup w) = Some h /\
  AuthSync.retryTimeoutRef (sup w) = None /\
  live_streams w = [h] /\
  pending_timers w = [].


(** * Theorems *)

(** ** The monad and the API *)

Ltac unfold_monad :=
  unfold bind, ret, lift, throw, try_catch, gets, modify, outcome_of, state_of,
    Api.update_local, Api.read_local, Api.sdk, Api.unsubscribe in *.

#[local] Arguments sdk_calls : simpl never.
#[local] Arguments Api.api_try : simpl never.
#[local] Arguments Api.createDoc_calls : simpl never.
#[local] Arguments Api.updateDoc_calls : simpl never.
#[local] Arguments Api.deleteDoc_calls : simpl never.

Lemma world_eta {T Json L} (w : World T Json L) :
  mkWorld (local w) (trace w) (next_handle w) = w.
Proof. by destruct w. Qed.

Section api_lemmas.
Context {T Json L : Type} {env : Env T Json}.

(** An API method returns the failure built from the first SDK error, or
    success; its SDK calls up to there are recorded. *)
Lemma api_try_run (calls : list (SdkCall T Json)) (w : World T Json L) :
  Api.api_try calls w =
    (Returns (match Api.error_of calls with
              | Some error => Api.api_catch error
              | None => Success tt None None
              end),
     mkWorld (local w) (trace w ++ map Call (Api.attempted calls))
             (next_handle w)).
Proof.
  revert w. induction calls as [|c calls IH]; intros w; cbn.
  - unfold Api.api_try. unfold_monad. by rewrite app_nil_r, world_eta.
  - unfold Api.api_try; fold (Api.api_try (L:=L) calls). unfold_monad. destruct (sdk_error c) as [error|]; cbn; [done |].
    rewrite IH. cbn. by rewrite <- app_assoc.
Qed.

Lemma sdk_calls_app (tr1 tr2 : list (Event T Json)) :
  sdk_calls (tr1 ++ tr2) = sdk_calls tr1 ++ sdk_calls tr2.
Proof. unfold sdk_calls. apply omap_app. Qed.

Lemma sdk_calls_map_Call (calls : list (SdkCall T Json)) :
  sdk_calls (map Call calls) = calls.
Proof.
  unfold sdk_calls. induction calls as [|c calls IH]; cbn; [done | by f_equal].
Qed.

End api_lemmas.

(** ** The vars of a mutation *)

#[local] Arguments Collection.createAuthVars : simpl never.
#[local] Arguments Document.generateAuthVars : simpl never.
#[local] Arguments DocumentService.turboVars : simpl never.
#[local] Arguments CollectionService.turboVars : simpl never.

Section vars_lemmas.
Context {T Json : Type} {env : Env T Json}.

(** [createAuthVars] asks the API for an id, then the caller for the user:
    it throws what the first of them throws. *)
Lemma createAuthVars_run (w : World T Json (Collection.State T)) :
  Collection.createAuthVars w =
    (match sdk_error NewDocRef with
     | Some error => Throws (JsFirestoreError error)
     | None =>
         match getUserId with
         | Returns userId =>
             Returns (mkVars new_id now (default EmptyString userId))
         | Throws e => Throws e
         end
     end, after_genId w).
Proof.
  unfold Collection.createAuthVars, Api.turboVars, Api.genId, after_genId.
  unfold_monad. destruct (sdk_error NewDocRef); cbn; [done |].
  by destruct getUserId.
Qed.

(** [generateAuthVars] asks the caller for the user first. *)
Lemma generateAuthVars_run (w : World T Json (Document.State T)) :
  Document.generateAuthVars w =
    match getUserId with
    | Throws e => (Throws e, w)
    | Returns userId =>
        (match sdk_error NewDocRef with
         | Some error => Throws (JsFirestoreError error)
         | None => Returns (mkVars new_id now (default EmptyString userId))
         end, after_genId w)
    end.
Proof.
  unfold Document.generateAuthVars, Api.turboVars, Api.genId, after_genId.
  unfold_monad. destruct getUserId; cbn; [| done].
  by destruct (sdk_error NewDocRef).
Qed.

(** [turboVars(id)] of the services makes no call into the SDK when it is
    given an id. *)
Lemma service_turboVars_run (id : option string)
    (w : World T Json (DocumentService.State T)) :
  DocumentService.turboVars id w =
    match id with
    | Some id =>
        (match getUserId with
         | Returns userId =>
             Returns (mkVars id now
                        (default DocumentService.NO_AUTH_ID userId))
         | Throws e => Throws e
         end, w)
    | None =>
        (match sdk_error NewDocRef with
         | Some error => Throws (JsFirestoreError error)
         | None =>
             match getUserId with
             | Returns userId =>
                 Returns (mkVars new_id now
                            (default DocumentService.NO_AUTH_ID userId))
             | Throws e => Throws e
             end
         end, after_genId w)
    end.
Proof.
  unfold DocumentService.turboVars, Api.genId, after_genId. unfold_monad.
  destruct id as [id|]; cbn.
  - by destruct getUserId.
  - destruct (sdk_error NewDocRef); cbn; [done |]. by destruct getUserId.
Qed.

Lemma collection_turboVars_run (id : option string)
    (w : World T Json (CollectionService.State T)) :
  CollectionService.turboVars id w =
    match id with
    | Some id =>
        (match getUserId with
         | Returns userId =>
             Returns (mkVars id now
                        (default CollectionService.NO_AUTH_ID userId))
         | Throws e => Throws e
         end, w)
    | None =>
        (match sdk_error NewDocRef with
         | Some error => Throws (JsFirestoreError error)
         | None =>
             match getUserId with
             | Returns userId =>
                 Returns (mkVars new_id now
                            (default CollectionService.NO_AUTH_ID userId))
             | Throws e => Throws e
             end
         end, after_genId w)
    end.
Proof.
  unfold CollectionService.turboVars, Api.genId, after_genId. unfold_monad.
  destruct id as [id|]; cbn.
  - by destruct getUserId.
  - destruct (sdk_error NewDocRef); cbn; [done |]. by destruct getUserId.
Qed.

(** Where the vars leave the world: the mirror is untouched, and the only
    call is the id generation. *)
Lemma createAuthVars_state (w : World T Json (Collection.State T)) :
  state_of (Collection.createAuthVars w) = after_genId w.
Proof. by rewrite createAuthVars_run. Qed.

Lemma createAuthVars_returns (w w1 : World T Json (Collection.State T))
    (vars : TurboAuthVars) :
  Collection.createAuthVars w = (Returns vars, w1) -> w1 = after_genId w.
Proof. rewrite createAuthVars_run. by intros [= _ <-]. Qed.

Lemma generateAuthVars_returns (w w1 : World T Json (Document.State T))
    (vars : TurboAuthVars) :
  Document.generateAuthVars w = (Returns vars, w1) -> w1 = after_genId w.
Proof.
  rewrite generateAuthVars_run. destruct getUserId; [| done].
  by intros [= _ <-].
Qed.

Lemma service_turboVars_returns (id : option string)
    (w w1 : World T Json (DocumentService.State T)) (vars : TurboAuthVars) :
  DocumentService.turboVars id w = (Returns vars, w1) ->
  w1 = match id with Some _ => w | None => after_genId w end.
Proof.
  rewrite service_turboVars_run. destruct id; by intros [= _ <-].
Qed.

Lemma collection_turboVars_returns (id : option string)
    (w w1 : World T Json (CollectionService.State T)) (vars : TurboAuthVars) :
  CollectionService.turboVars id w = (Returns vars, w1) ->
  w1 = match id with Some _ => w | None => after_genId w end.
Proof.
  rewrite collection_turboVars_run. destruct id; by intros [= _ <-].
Qed.

End vars_lemmas.

(** C10 — docExists never fails: for every id and every behaviour of the
    SDK, [docExists] resolves to a boolean; it is the snapshot's [exists()]
    when building the reference and reading both succeed, and [false]
    whenever one of them throws, which is also the answer for a document
    that is absent. *)
Theorem docExists_never_fails {T Json L : Type} (env : Env T Json)
    (id : string) (w : World T Json L) :
  outcome_of (Api.docExists id w) =
    Returns (match sdk_error (DocRef id), sdk_error (GetDoc id) with
             | None, None => snapshot_exists id
             | _, _ => false
             end).
Proof.
  unfold Api.docExists. unfold_monad.
  destruct (sdk_error (DocRef id)); cbn; [done |].
  by destruct (sdk_error (GetDoc id)).
Qed.

(** ** The error taxonomy *)

(** C9 — exception mapping totality: for every FirestoreError,
    [fromFirestoreError] is defined; message and code are the input's,
    path and query are the ones passed in, the stack trace is the input's
    stack, and the subclass is the one the table of six dedicated codes
    gives for the code, generic for every other code. *)
Theorem fromFirestoreError_mapping (error : FirestoreError)
    (path query : option string) :
  let e := fromFirestoreError error path query in
  exn_message e = fe_message error /\
  exn_code e = fe_code error /\
  exn_path e = path /\
  exn_query e = query /\
  exn_stackTrace e = fe_stack error /\
  exn_class e = subclass_for_code (fe_code error).
Proof.
  destruct error as [msg code stack]; cbn -[String.eqb].
  unfold fromFirestoreError, subclass_for_code; cbn -[String.eqb].
  repeat match goal with
  | |- context [String.eqb ?a ?b] =>
      destruct (String.eqb_spec a b) as [-> | ?]; [cbn; by repeat split |]
  end.
  cbn. repeat split.
  repeat (case_decide; [congruence |]). done.
Qed.

(** ** The mirrors *)


Ltac unfold_document :=
  unfold Document.createDoc, Document.updateDoc, Document.upsertDoc,
    Document.deleteDoc, Document.updateLocalState,
    Api.createDoc, Api.updateDoc, Api.deleteDoc in *.

Ltac unfold_service :=
  unfold DocumentService.createDoc, DocumentService.updateDoc,
    DocumentService.upsertDoc, DocumentService.deleteDoc,
    DocumentService.createLocalDoc, DocumentService.updateLocalDoc,
    DocumentService.upsertLocalDoc, DocumentService.deleteLocalDoc,
    DocumentService._updateDoc, DocumentService.catch_fail,
    Api.createDoc, Api.updateDoc, Api.deleteDoc in *.


(** Case analysis on the answer of the remote store. *)
Ltac case_error :=
  match goal with
  | |- context [Api.error_of ?calls] => destruct (Api.error_of calls) eqn:?; cbn
  end.



(** The operations of the single-document hook keep the ref next to the
    document. *)
Lemma updateLocalState_follows {T Json} (newDoc : option T)
    (w : World T Json (Document.State T)) :
  ref_follows_doc (local (state_of (Document.updateLocalState newDoc w))).
Proof. right. reflexivity. Qed.


Lemma failure_resolves {S A} (s : S) error title message stackTrace :
  resolves_with_failure
    (Returns (Fail (A:=A) error title message stackTrace), s).
Proof. by exists error, title, message, stackTrace. Qed.




(** Case analysis on what caller code does. *)
Ltac case_outcome :=
  match goal with
  | |- context [match ?x with Returns _ => _ | Throws _ => _ end] =>
      destruct x eqn:?; cbn
  end.

(** Case analysis on the building of the vars. *)
Ltac case_vars :=
  rewrite ?createAuthVars_run, ?generateAuthVars_run,
    ?service_turboVars_run, ?collection_turboVars_run;
  unfold after_genId; cbn;
  repeat match goal with
  | |- context [sdk_error NewDocRef] => destruct (sdk_error NewDocRef); cbn
  | |- context [@getUserId ?T ?Json ?env] =>
      destruct (@getUserId T Json env); cbn
  end.


(** ** Batch mutations of the collection hook *)

#[local] Arguments Collection.commit : simpl never.

Section batch.
Context {T Json : Type} {writeable : TurboWriteableId T Json} {env : Env T Json}.

Lemma steady_api_try (calls : list (SdkCall T Json)) :
  steady (L := Collection.State T) (Api.api_try calls).
Proof. intros w. rewrite api_try_run. eauto. Qed.

Lemma steady_bind {A B} (m : M (World T Json (Collection.State T)) A)
    (k : A -> M (World T Json (Collection.State T)) B) :
  steady m -> (forall a, steady (k a)) -> steady (bind m k).
Proof.
  intros Hm Hk w. destruct (Hm w) as (a & tr1 & Hrun1).
  destruct (Hk a (mkWorld (local w) (trace w ++ tr1) (next_handle w)))
    as (b & tr2 & Hrun2).
  exists b, (tr1 ++ tr2). unfold bind. rewrite Hrun1, Hrun2. cbn.
  by rewrite app_assoc.
Qed.

Lemma steady_ret {A} (a : A) :
  steady (L := Collection.State T) (T := T) (Json := Json) (ret a).
Proof.
  intros w. exists a, []. unfold ret. by rewrite app_nil_r, world_eta.
Qed.

Lemma steady_mapM {A B} (f : A -> M (World T Json (Collection.State T)) B)
    (l : list A) :
  (forall a, steady (f a)) -> steady (mapM f l).
Proof.
  intros Hf. induction l as [|a l IH]; cbn; [apply steady_ret |].
  apply steady_bind; [apply Hf | intros b].
  apply steady_bind; [apply IH | intros bs]. apply steady_ret.
Qed.

Lemma lookup_delete_all_notin (ids : list string) (m : gmap string T)
    (i : string) :
  i ∉ ids -> Collection.delete_all ids m !! i = m !! i.
Proof.
  revert m. unfold Collection.delete_all.
  induction ids as [|id ids IH]; intros m Hnotin; [done |].
  apply not_elem_of_cons in Hnotin as [Hne Hnotin]. cbn.
  rewrite IH by done. by apply lookup_delete_ne.
Qed.

Lemma lookup_delete_all_in (ids : list string) (m : gmap string T)
    (i : string) :
  i ∈ ids -> Collection.delete_all ids m !! i = None.
Proof.
  revert m. unfold Collection.delete_all.
  induction ids as [|id ids IH]; intros m Hin; [by apply elem_of_nil in Hin |].
  cbn. destruct (decide (i ∈ ids)) as [Hrest | Hrest]; [by apply IH |].
  apply elem_of_cons in Hin as [-> | Hin]; [| done].
  fold (Collection.delete_all ids (delete id m)).
  rewrite lookup_delete_all_notin by done. apply lookup_delete_eq.
Qed.

Lemma lookup_set_all_notin (docs : list T) (m : gmap string T) (i : string) :
  i ∉ map doc_id docs -> Collection.set_all docs m !! i = m !! i.
Proof.
  revert m. unfold Collection.set_all.
  induction docs as [|doc docs IH]; intros m Hnotin; [done |].
  cbn in Hnotin. apply not_elem_of_cons in Hnotin as [Hne Hnotin]. cbn.
  rewrite IH by done. by apply lookup_insert_ne.
Qed.

(** Deleting what was set brings back a mirror in which the ids were
    absent. *)
Lemma delete_all_set_all_fresh (docs : list T) (m : gmap string T) :
  (forall doc, doc ∈ docs -> m !! doc_id doc = None) ->
  Collection.delete_all (map doc_id docs) (Collection.set_all docs m) = m.
Proof.
  intros Hfresh. apply map_eq. intros i.
  destruct (decide (i ∈ map doc_id docs)) as [Hin | Hnotin].
  - rewrite lookup_delete_all_in by done.
    apply list_elem_of_fmap in Hin as (doc & -> & Hdoc).
    symmetry. by apply Hfresh.
  - rewrite lookup_delete_all_notin by done. by apply lookup_set_all_notin.
Qed.

(** Restoring the previous documents brings back the mirror when they
    cover every id that was touched. *)
Lemma restore_all_deleted (previousDocs m : gmap string T) (ids : list string) :
  previousDocs ⊆ m ->
  (forall id, id ∈ ids -> is_Some (previousDocs !! id)) ->
  Collection.restore_all previousDocs (Collection.delete_all ids m) = m.
Proof.
  intros Hsub Hcover. apply map_eq. intros i. unfold Collection.restore_all.
  destruct (previousDocs !! i) as [doc|] eqn:Hprev.
  - rewrite (lookup_union_Some_l _ _ _ _ Hprev).
    symmetry. by eapply lookup_weaken.
  - rewrite lookup_union_r by done. apply lookup_delete_all_notin.
    intros Hin. destruct (Hcover i Hin) as [doc Hdoc]. congruence.
Qed.

Lemma restore_all_set (previousDocs m : gmap string T) (docs : list T) :
  previousDocs ⊆ m ->
  (forall doc, doc ∈ docs -> is_Some (previousDocs !! doc_id doc)) ->
  Collection.restore_all previousDocs (Collection.set_all docs m) = m.
Proof.
  intros Hsub Hcover. apply map_eq. intros i. unfold Collection.restore_all.
  destruct (previousDocs !! i) as [doc|] eqn:Hprev.
  - rewrite (lookup_union_Some_l _ _ _ _ Hprev).
    symmetry. by eapply lookup_weaken.
  - rewrite lookup_union_r by done. apply lookup_set_all_notin.
    intros Hin. apply list_elem_of_fmap in Hin as (doc & -> & Hdoc).
    destruct (Hcover doc Hdoc) as [d Hd]. congruence.
Qed.

Lemma tryFindById_Some (docs : gmap string T) (id : string) (doc : T) :
  Collection.tryFindById docs id = Some doc -> docs !! id = Some doc.
Proof. unfold Collection.tryFindById. by destruct (truthy id). Qed.

Lemma collect_deletes_covers (docs m : gmap string T) (ids : list string) :
  (forall id, id ∈ ids -> docs !! id = m !! id) ->
  forall acc previousDocs,
    Collection.collect_deletes docs ids acc = inr previousDocs ->
    acc ⊆ m ->
    previousDocs ⊆ m /\
    (forall id, id ∈ ids \/ is_Some (acc !! id) -> is_Some (previousDocs !! id)).
Proof.
  induction ids as [|id ids IH]; intros Hagree acc previousDocs Hrun Hacc;
    cbn in Hrun.
  - injection Hrun as <-. split; [done |].
    intros id [Hin | Hsome]; [by apply elem_of_nil in Hin | done].
  - destruct (Collection.tryFindById docs id) as [current|] eqn:Hfind;
      [| done].
    apply tryFindById_Some in Hfind.
    rewrite (Hagree id) in Hfind by by left.
    apply IH in Hrun as [Hsub Hcover];
      [| intros i Hi; apply Hagree; by right | by apply insert_subseteq_l].
    split; [done |]. intros i [Hin | Hsome]; apply Hcover.
    + apply elem_of_cons in Hin as [-> | Hin]; [right | by left].
      rewrite lookup_insert_eq. eauto.
    + right. destruct (decide (id = i)) as [-> | Hne].
      * rewrite lookup_insert_eq. eauto.
      * by rewrite lookup_insert_ne.
Qed.

Lemma collect_updates_covers (docs m : gmap string T) (vars : TurboAuthVars)
    (updates : list (string * UpdateDocDef T)) :
  (forall id def, (id, def) ∈ updates -> docs !! id = m !! id) ->
  (forall id def current updatedDoc,
     (id, def) ∈ updates -> def current vars = Returns updatedDoc ->
     doc_id updatedDoc = id) ->
  forall acc updated previousDocs updatedDocs,
    Collection.collect_updates docs vars updates acc updated
      = Returns (inr (previousDocs, updatedDocs)) ->
    acc ⊆ m ->
    (forall doc, doc ∈ updated -> is_Some (acc !! doc_id doc)) ->
    previousDocs ⊆ m /\
    (forall doc, doc ∈ updatedDocs -> is_Some (previousDocs !! doc_id doc)).
Proof.
  induction updates as [|[id def] updates IH];
    intros Hagree Hkeep acc updated previousDocs updatedDocs Hrun Hacc Hcover;
    cbn in Hrun.
  - injection Hrun as <- <-. by split.
  - destruct (Collection.tryFindById docs id) as [current|] eqn:Hfind;
      [| done].
    apply tryFindById_Some in Hfind.
    rewrite (Hagree id def) in Hfind by by left.
    destruct (def current vars) as [updatedDoc|e] eqn:Hdef; [| done].
    assert (Hid : doc_id updatedDoc = id)
      by (eapply Hkeep; [left | exact Hdef]).
    eapply IH in Hrun; [exact Hrun | | | by apply insert_subseteq_l |].
    + intros id' def' Hin. eapply Hagree. by right.
    + intros id' def' current' updatedDoc' Hin. apply Hkeep. by right.
    + intros doc Hdoc. apply elem_of_app in Hdoc as [Hdoc | Hdoc].
      * destruct (Hcover doc Hdoc) as [d Hd].
        destruct (decide (id = doc_id doc)) as [-> | Hne].
        -- rewrite lookup_insert_eq. eauto.
        -- rewrite lookup_insert_ne by done. eauto.
      * apply list_elem_of_singleton in Hdoc as ->. rewrite Hid.
        rewrite lookup_insert_eq. eauto.
Qed.

Lemma mapM_lift_returns {A B} (f : A -> Outcome B) (l : list A)
    (w : World T Json (Collection.State T)) (bs : list B) w' :
  mapM (fun a => lift (f a)) l w = (Returns bs, w') ->
  w' = w /\ Forall2 (fun a b => f a = Returns b) l bs.
Proof.
  revert bs w'. induction l as [|a l IH]; intros bs w' Hrun; cbn in Hrun.
  - unfold ret in Hrun. injection Hrun as <- <-. by split.
  - unfold bind at 1, lift at 1 in Hrun.
    destruct (f a) as [b|e] eqn:Hfa; [| done].
    cbv beta iota in Hrun.
    destruct (mapM _ l w) as [[bs'|e] w1] eqn:Hrest; [| done].
    unfold ret in Hrun. injection Hrun as <- <-.
    destruct (IH bs' w1 eq_refl) as [-> Hall]. split; [done |].
    by constructor.
Qed.

(** The last step of a batch: a failure restores with [rollback]. *)
Lemma commit_failure_rolls_back {A} (result : A)
    (rollback : gmap string T -> gmap string T) (title message : string)
    (w : World T Json (Collection.State T)) (before : gmap string T) :
  resolves_with_failure (Collection.commit result rollback title message w) ->
  rollback (Collection.docsById (local w)) = before ->
  Collection.docsById
    (local (state_of (Collection.commit result rollback title message w)))
    = before.
Proof.
  unfold Collection.commit, Collection.setDocsById. unfold_monad. cbn.
  destruct (sdk_error BatchCommit); cbn; [done |].
  intros (? & ? & ? & ? & Hfail). done.
Qed.

(** [deleteDocs] through a callback whose [docsById] holds what the mirror
    holds for the ids of the batch: whenever the call resolves with a
    failure, the mirror is what it was before the call. *)
Lemma deleteDocs_restores_mirror (w : World T Json (Collection.State T))
    (docsById : gmap string T) (ids : list string) :
  (forall id, id ∈ ids -> docsById !! id = Collection.docsById (local w) !! id) ->
  resolves_with_failure (Collection.deleteDocs docsById ids w) ->
  Collection.docsById (local (state_of (Collection.deleteDocs docsById ids w)))
    = Collection.docsById (local w).
Proof.
  intros Hagree. unfold Collection.deleteDocs.
  destruct (Collection.collect_deletes _ ids ∅) as [failure|previousDocs]
    eqn:Hcollect; [done |].
  apply (collect_deletes_covers _ _ _ Hagree) in Hcollect as [Hsub Hcover];
    [| apply map_empty_subseteq].
  assert (Hrestore :
    Collection.restore_all previousDocs
      (Collection.delete_all ids (Collection.docsById (local w)))
    = Collection.docsById (local w))
    by (apply restore_all_deleted; [done | intros id Hid; apply Hcover; by left]).
  unfold bind at 1. unfold Collection.setDocsById at 1. unfold_monad. cbn.
  match goal with
  | |- context [mapM ?f ids ?w0] =>
      destruct (steady_mapM f ids (fun id => steady_api_try _) w0)
        as (batchResults & tr & ->)
  end.
  cbn.
  destruct (Collection.find_failed batchResults) as [[? ? ?|? ? ? ?]|].
  - intros Hfail. by apply commit_failure_rolls_back.
  - intros _. unfold Collection.setDocsById. unfold_monad. exact Hrestore.
  - intros Hfail. by apply commit_failure_rolls_back.
Qed.

(** [createDocs] of documents whose ids are absent from the mirror:
    whenever the call resolves with a failure, the mirror is what it was
    before the call. *)
Lemma createDocs_restores_fresh_mirror (w : World T Json (Collection.State T))
    (defs : list (CreateDocDef T)) :
  (forall def vars newDoc,
     def ∈ defs ->
     outcome_of (Collection.createAuthVars w) = Returns vars ->
     def vars = Returns newDoc ->
     Collection.docsById (local w) !! doc_id newDoc = None) ->
  resolves_with_failure (Collection.createDocs defs w) ->
  Collection.docsById (local (state_of (Collection.createDocs defs w)))
    = Collection.docsById (local w).
Proof.
  intros Hfresh. unfold Collection.createDocs, Collection.setDocsById.
  unfold_monad.
  destruct (Collection.createAuthVars w) as [[vars|e] w1] eqn:Hvars;
    [| by intros (? & ? & ? & ? & ?)].
  pose proof (createAuthVars_returns _ _ _ Hvars) as ->.
  specialize (fun def newDoc Hin => Hfresh def vars newDoc Hin eq_refl).
  match goal with
  | |- context [mapM ?f defs ?w1] =>
      destruct (mapM f defs w1) as [[newDocs|e] w0] eqn:Hdefs
  end; [| by intros (? & ? & ? & ? & ?)].
  apply (mapM_lift_returns (fun def => def vars)) in Hdefs as [-> Hdefs].
  assert (Hrestore :
    Collection.delete_all (map doc_id newDocs)
      (Collection.set_all newDocs (Collection.docsById (local w)))
    = Collection.docsById (local w)).
  { apply delete_all_set_all_fresh. intros doc Hdoc.
    apply list_elem_of_lookup in Hdoc as [i Hi].
    destruct (Forall2_lookup_r _ _ _ _ _ Hdefs Hi) as (def & Hdef & Hrun).
    eapply Hfresh; [| exact Hrun]. by eapply list_elem_of_lookup_2. }
  cbn.
  match goal with
  | |- context [mapM ?f newDocs ?w0] =>
      destruct (steady_mapM f newDocs (fun doc => steady_api_try _) w0)
        as (batchResults & tr & ->)
  end.
  cbn.
  destruct (Collection.find_failed batchResults) as [[? ? ?|? ? ? ?]|].
  - intros Hfail. by apply commit_failure_rolls_back.
  - intros _. exact Hrestore.
  - intros Hfail. by apply commit_failure_rolls_back.
Qed.

(** [updateDocs] through a callback whose [docsById] holds what the mirror
    holds for the ids of the batch, with transforms that keep the id of the
    document and a [toJson] that returns: whenever the call resolves with a
    failure, the mirror is what it was before the call. *)
Lemma updateDocs_restores_mirror (w : World T Json (Collection.State T))
    (docsById : gmap string T) (updates : list (string * UpdateDocDef T)) :
  toJson_returns ->
  (forall id def,
     (id, def) ∈ updates ->
     docsById !! id = Collection.docsById (local w) !! id) ->
  (forall id def current vars updatedDoc,
     (id, def) ∈ updates ->
     outcome_of (Collection.createAuthVars w) = Returns vars ->
     def current vars = Returns updatedDoc ->
     doc_id updatedDoc = id) ->
  resolves_with_failure (Collection.updateDocs docsById updates w) ->
  Collection.docsById
    (local (state_of (Collection.updateDocs docsById updates w)))
    = Collection.docsById (local w).
Proof.
  intros Hjson Hagree Hkeep.
  unfold Collection.updateDocs, Collection.setDocsById. unfold_monad.
  destruct (Collection.createAuthVars w) as [[vars|e] w1] eqn:Hvars;
    [| by intros (? & ? & ? & ? & ?)].
  pose proof (createAuthVars_returns _ _ _ Hvars) as ->.
  specialize (fun id def current updatedDoc Hin =>
                Hkeep id def current vars updatedDoc Hin eq_refl).
  destruct (Collection.collect_updates _ _ updates ∅ [])
    as [[failure|[previousDocs updatedDocs]]|e] eqn:Hcollect;
    [done | | by intros (? & ? & ? & ? & ?)].
  eapply (collect_updates_covers _ (Collection.docsById (local w)))
    in Hcollect as [Hsub Hcover];
    [| done | done | apply map_empty_subseteq
     | intros doc Hdoc; by apply elem_of_nil in Hdoc].
  assert (Hrestore :
    Collection.restore_all previousDocs
      (Collection.set_all updatedDocs (Collection.docsById (local w)))
    = Collection.docsById (local w))
    by by apply restore_all_set.
  cbn.
  match goal with
  | |- context [mapM ?f updatedDocs ?w0] =>
      destruct (steady_mapM f updatedDocs) with (w := w0)
        as (batchResults & tr & ->)
  end.
  { intros doc w1. destruct (Hjson doc) as [data ->]. cbn.
    apply steady_api_try. }
  cbn.
  destruct (Collection.find_failed batchResults) as [[? ? ?|? ? ? ?]|].
  - intros Hfail. by apply commit_failure_rolls_back.
  - intros _. exact Hrestore.
  - intros Hfail. by apply commit_failure_rolls_back.
Qed.

End batch.

(** C2 — batch atomicity, on the two inputs where the code loses it.
    [createDocs] of a document whose id is already in the mirror, while the
    remote store is unreachable, resolves with a failure and its rollback
    deletes the entry that was there before. [updateDocs] with a transform
    that changes the id of the document puts the new document under the
    new id, and its rollback, which only restores the requested id, leaves
    it there. *)
Theorem batch_rollback_misses_overwritten_entries :
  (resolves_with_failure
     (Collection.createDocs (env := Scenario.offline) [Scenario.create_milk]
        (Scenario.collection {[ "t1" := Scenario.milk_done ]})) /\
   Collection.docsById
     (local (Scenario.collection {[ "t1" := Scenario.milk_done ]})) !! "t1"
     = Some Scenario.milk_done /\
   Collection.docsById
     (local (state_of
        (Collection.createDocs (env := Scenario.offline) [Scenario.create_milk]
           (Scenario.collection {[ "t1" := Scenario.milk_done ]})))) !! "t1"
     = None) /\
  (resolves_with_failure
     (Collection.updateDocs (env := Scenario.commit_fails)
        {[ "t1" := Scenario.milk ]} [("t1", Scenario.rename)]
        (Scenario.collection {[ "t1" := Scenario.milk ]})) /\
   Collection.docsById
     (local (Scenario.collection {[ "t1" := Scenario.milk ]})) !! "t9" = None /\
   Collection.docsById
     (local (state_of
        (Collection.updateDocs (env := Scenario.commit_fails)
           {[ "t1" := Scenario.milk ]} [("t1", Scenario.rename)]
           (Scenario.collection {[ "t1" := Scenario.milk ]})))) !! "t9"
     = Some (Scenario.mkTask "t9" "Buy milk" false)).
Proof.
  split; (split; [| split]).
  - vm_compute. eauto 10.
  - reflexivity.
  - vm_compute. reflexivity.
  - vm_compute. eauto 10.
  - reflexivity.
  - vm_compute. reflexivity.
Qed.

(** ** The supervisors *)

#[local] Arguments remove : simpl never.

Lemma remove_nil (h : nat) : remove h [] = [].
Proof. done. Qed.

Lemma remove_singleton (h : nat) : remove h [h] = [].
Proof. unfold remove. cbn. by rewrite decide_False by (intros ?; congruence). Qed.

(** Releasing the second of two handles that were handed out in a row. *)
Lemma remove_second (n : nat) : remove (S n) [n; S n] = [n].
Proof.
  unfold remove. rewrite !filter_cons, filter_nil.
  rewrite decide_True by lia. by rewrite decide_False by (intros ?; congruence).
Qed.

(** Of two handles that are live, one ref holds one only. *)
Lemma two_handles_not_held (ref : option nat) (n : nat) :
  ~ held_in ref [n; S n].
Proof.
  intros Hheld.
  pose proof (Hheld n ltac:(by left)) as Hfirst.
  pose proof (Hheld (S n) ltac:(right; by left)) as Hsecond.
  rewrite Hfirst in Hsecond. injection Hsecond. lia.
Qed.

Lemma remove_held_in (h : nat) (l : list nat) :
  held_in (Some h) l -> remove h l = [].
Proof.
  unfold held_in, remove. induction l as [|x l IH]; intros Hheld; [done |].
  rewrite filter_cons.
  assert (x = h) as -> by (specialize (Hheld x); rewrite elem_of_cons in Hheld;
                           assert (Some h = Some x) by auto; congruence).
  rewrite decide_False by (intros ?; congruence).
  apply IH. intros y Hy. apply Hheld. by right.
Qed.

Lemma remove_held_held_in (ref : option nat) (l : list nat) :
  held_in ref l -> remove_held ref l = [].
Proof.
  destruct ref as [h|]; cbn; [apply remove_held_in |].
  intros Hheld. destruct l as [|x l]; [done |].
  specialize (Hheld x). rewrite elem_of_cons in Hheld.
  assert (None = Some x) by auto. congruence.
Qed.

Lemma held_in_nil (ref : option nat) : held_in ref [].
Proof. intros h Hh. by apply elem_of_nil in Hh. Qed.

Lemma held_in_singleton (h : nat) : held_in (Some h) [h].
Proof.
  intros h' Hh'. apply list_elem_of_singleton in Hh'. by subst.
Qed.

Ltac unfold_sup :=
  unfold Sup.update, Sup.read, Sup.emit, Sup.start_stream, Sup.stop_stream,
    Sup.setTimeout, Sup.clearTimeout, Sup.fire, Sup.when in *.

Ltac unfold_sync :=
  unfold AuthSync.onAuthStateChanged, AuthSync.handleSignOut,
    AuthSync.setupStream, AuthSync.overlapping_setups,
    AuthSync.setupStream_begin, AuthSync.setupStream_resume,
    AuthSync.handleStreamError, AuthSync.cleanupStream,
    AuthSync.onRetryTimeout, AuthSync.retry, AuthSync.as_exception in *.

Ltac unfold_auth_service :=
  unfold AuthService.onAuthStateChanged, AuthService.overlapping_reports,
    AuthService.onUser_begin, AuthService.onUser_stream,
    AuthService.onUser_assign, AuthService.onNoUser,
    AuthService.onStreamError,
    AuthService.onRetryTimeout, AuthService.tryInitialiseStream,
    AuthService._tryRetry, AuthService._resetStream,
    AuthService._resetRetryTimer, AuthService.fire_pending in *.

(** C5, as amended — sign-out clears state: when the authentication state
    is reported absent to a mounted [useAuthSync] (which holds in its refs
    the live stream and the pending timer, if any), afterwards the cached
    user id is none, the retry count is 0, no retry timer is held or
    pending (the one that was pending is cleared), no stream is held or live
    (the one that was live is stopped by one call of its unsubscribe
    function), and [onData(null, null)] is called once. In
    [FirebaseAuthService] the cached user id is cleared, the held stream is
    stopped by one call and [onData(null, null)] is called once; the retry
    count and the retry timer are left as they are. *)
Theorem sign_out_clears_state {V : Type} :
  (forall (options : AuthSync.Options) (env : Setup)
          (w : SupWorld V AuthSync.State),
     AuthSync.isMountedRef (sup w) = true ->
     sync_tracked w ->
     let w' := state_of (AuthSync.onAuthStateChanged options None env w) in
     AuthSync.cachedUserId (sup w') = None /\
     AuthSync.retryCount (sup w') = 0%Z /\
     AuthSync.retryTimeoutRef (sup w') = None /\
     pending_timers w' = [] /\
     AuthSync.streamUnsubscribeRef (sup w') = None /\
     live_streams w' = [] /\
     sync_phase (sup w') = SignedOut /\
     events w' =
       events w ++ stops (AuthSync.streamUnsubscribeRef (sup w))
                ++ clears (AuthSync.retryTimeoutRef (sup w))
                ++ [OnData None None]
                ++ (if AuthSync.has_onDone options
                    then [OnDone 0 (AuthSync.maxRetries options)] else [])) /\
  (forall (has_onAuth : bool) (env : Setup) (w : SupWorld V AuthService.State),
     let w' := state_of (AuthService.onAuthStateChanged has_onAuth None env w) in
     AuthService.cachedUserId (sup w') = None /\
     AuthService._subscription (sup w') = None /\
     live_streams w' =
       remove_held (AuthService._subscription (sup w)) (live_streams w) /\
     events w' =
       events w ++ stops (AuthService._subscription (sup w))
                ++ [OnData None None] /\
     AuthService._nrOfRetry (sup w') = AuthService._nrOfRetry (sup w) /\
     AuthService._retryTimer (sup w') = AuthService._retryTimer (sup w) /\
     pending_timers w' = pending_timers w).
Proof.
  split.
  - intros options env
      [[ready cached retrying count sref tref user mounted] evs n live pend]
      Hmounted [Hlive Hpend]; cbn in *; subst.
    apply remove_held_held_in in Hlive, Hpend.
    destruct sref as [h|], tref as [t|]; cbn in *;
      unfold_sync; unfold_sup; unfold_monad; cbn;
      rewrite ?Hlive, ?Hpend;
      destruct (AuthSync.has_onDone options); cbn;
      repeat split; by rewrite <- ?app_assoc.
  - intros has_onAuth env [[cached [h|] auth timer nr] evs n live pend];
      unfold_auth_service; unfold_sup; unfold_monad; cbn;
      repeat split; by rewrite <- ?app_assoc.
Qed.

Lemma live_listeners_app {T Json} (tr1 tr2 : list (Event T Json))
    (live : list nat) :
  live_listeners (tr1 ++ tr2) live
    = live_listeners tr2 (live_listeners tr1 live).
Proof.
  revert live. induction tr1 as [|ev tr1 IH]; intros live; [done |].
  destruct ev; cbn; apply IH.
Qed.


(** ** Invariants of the mirrors and of the hook *)

(** The ref of the single-document hook holds the document after a
    snapshot, and every mutator keeps it so, whatever its outcome. *)
Lemma onSnapshot_fills_ref {T Json : Type} (snapshot defaultValue : option T)
    (w : World T Json (Document.State T)) :
  Document.previousDocRef
    (local (state_of (Document.onSnapshot snapshot defaultValue w)))
  = Document.doc
      (local (state_of (Document.onSnapshot snapshot defaultValue w))).
Proof. reflexivity. Qed.

Lemma mutators_keep_ref {T Json : Type}
    {writeable : TurboWriteableId T Json} {env : Env T Json}
    (documentId : string) (w : World T Json (Document.State T)) :
  Document.previousDocRef (local w) = Document.doc (local w) ->
  (forall def,
     Document.previousDocRef
       (local (state_of (Document.createDoc documentId def w)))
     = Document.doc (local (state_of (Document.createDoc documentId def w)))) /\
  (forall def,
     Document.previousDocRef
       (local (state_of (Document.updateDoc documentId def w)))
     = Document.doc (local (state_of (Document.updateDoc documentId def w)))) /\
  (forall def,
     Document.previousDocRef
       (local (state_of (Document.upsertDoc documentId def w)))
     = Document.doc (local (state_of (Document.upsertDoc documentId def w)))) /\
  Document.previousDocRef (local (state_of (Document.deleteDoc documentId w)))
  = Document.doc (local (state_of (Document.deleteDoc documentId w))).
Proof.
  destruct w as [[doc ready ref] tr n]; cbn. intros ->.
  repeat apply conj; try intros def; unfold_document; unfold_monad; cbn.
  - case_vars; try done.
    case_outcome; [| done]. rewrite api_try_run; cbn. by case_error.
  - destruct doc as [current|]; cbn; [| done].
    case_vars; try done.
    case_outcome; [| done]. case_outcome; [| done].
    rewrite api_try_run; cbn. by case_error.
  - case_vars; try done.
    case_outcome; [| done]. rewrite api_try_run; cbn. by case_error.
  - rewrite api_try_run; cbn. by case_error.
Qed.

(** [TurboDocumentService] owns its listener: [stream] and [stopStream]
    keep [_unsubscribe] and the live listeners in step. *)
Lemma stream_keeps_listener {T Json : Type}
    {writeable : TurboWriteableId T Json} {env : Env T Json}
    (documentId : string) (w : World T Json (DocumentService.State T)) :
  service_tracked w ->
  service_tracked (state_of (DocumentService.stream documentId w)) /\
  service_tracked (state_of (DocumentService.stopStream w)).
Proof.
  destruct w as [[doc ref ready] tr n]. unfold service_tracked; cbn.
  intros Hlive.
  unfold DocumentService.stream, DocumentService.stopStream,
    Api.streamDocByIdWithConverter.
  destruct ref as [h|]; unfold_monad; cbn;
    destruct (sdk_error (OnSnapshot documentId)); cbn;
    rewrite <- ?app_assoc, ?live_listeners_app, Hlive; cbn;
    by rewrite ?remove_singleton, ?remove_nil.
Qed.

#[local] Arguments AuthSync.setupStream : simpl never.
#[local] Arguments sync_tracked : simpl never.

Section useAuthSync_invariant.
Context {V : Type} (options : AuthSync.Options).

(** [setupStream] keeps the refs and the handles in step. *)
Lemma setupStream_keeps_track (user : User) (env : Setup)
    (w : SupWorld V AuthSync.State) :
  sync_tracked w ->
  sync_tracked (state_of (AuthSync.setupStream options user env w)).
Proof.
  destruct w as
    [[ready cached retrying count sref tref cur mounted] evs n live pend].
  unfold sync_tracked; cbn -[AuthSync.setupStream]. intros [Hlive Hpend].
  apply remove_held_held_in in Hlive as Hlive', Hpend as Hpend'.
  unfold AuthSync.setupStream, AuthSync.setupStream_begin,
    AuthSync.setupStream_resume, AuthSync.handleStreamError,
    AuthSync.cleanupStream, AuthSync.as_exception.
  unfold_sup; unfold_monad.
  destruct mounted; cbn; [| by split].
  destruct sref as [h|], tref as [t|]; cbn in *; rewrite ?Hlive', ?Hpend';
    destruct (AuthSync.has_onAuth options),
      (onAuth_throws env), (stream_throws env); cbn;
    destruct (AuthSync.has_onError options); cbn;
    try (destruct (_ >=? _)%Z; cbn;
         destruct (AuthSync.has_onDone options); cbn);
    split; first [apply held_in_nil | apply held_in_singleton].
Qed.

(** Every callback of the hook keeps the refs and the handles in step. *)
Lemma callbacks_keep_track (w : SupWorld V AuthSync.State) :
  sync_tracked w ->
  (forall user env,
     sync_tracked (state_of (AuthSync.onAuthStateChanged options user env w))) /\
  (forall env, sync_tracked (state_of (AuthSync.retry options env w))) /\
  (forall env,
     sync_tracked (state_of (AuthSync.resetAndReinitialize options env w))) /\
  sync_tracked (state_of (AuthSync.unmount w)).
Proof.
  intros Htracked. split; [| split; [| split]].
  - intros [user|] env.
    + destruct w as
        [[ready cached retrying count sref tref cur mounted] evs n live pend].
      unfold AuthSync.onAuthStateChanged. unfold_sup; unfold_monad.
      destruct mounted; cbn; [| done].
      apply setupStream_keeps_track. exact Htracked.
    + destruct w as
        [[ready cached retrying count sref tref cur mounted] evs n live pend].
      destruct Htracked as [Hlive Hpend]; cbn in *.
      apply remove_held_held_in in Hlive as Hlive', Hpend as Hpend'.
      unfold sync_tracked.
      unfold_sync; unfold_sup; unfold_monad.
      destruct mounted; cbn; [| done].
      destruct sref as [h|], tref as [t|]; cbn in *;
        rewrite ?Hlive', ?Hpend';
        destruct (AuthSync.has_onDone options); cbn;
        split; apply held_in_nil.
  - intros env.
    destruct w as
      [[ready cached retrying count sref tref cur mounted] evs n live pend].
    unfold AuthSync.retry, AuthSync.onRetryTimeout.
    unfold_sup; unfold_monad; cbn.
    destruct tref as [t|]; cbn; [| done].
    destruct Htracked as [Hlive Hpend]; cbn in *.
    rewrite (remove_held_in _ _ Hpend).
    destruct mounted, cur as [user|]; cbn;
      try (split; [done | apply held_in_nil]).
    apply setupStream_keeps_track. split; [done | apply held_in_nil].
  - intros env.
    destruct w as
      [[ready cached retrying count sref tref cur mounted] evs n live pend].
    destruct Htracked as [Hlive Hpend]; cbn in *.
    apply remove_held_held_in in Hlive as Hlive', Hpend as Hpend'.
    unfold AuthSync.resetAndReinitialize, AuthSync.cleanupStream.
    unfold_sup; unfold_monad.
    destruct mounted; cbn; [| done].
    destruct sref as [h|], tref as [t|], cur as [user|]; cbn in *;
      rewrite ?Hlive', ?Hpend';
      first [ apply setupStream_keeps_track; split; apply held_in_nil
            | unfold sync_tracked; cbn; rewrite ?Hlive', ?Hpend';
              split; apply held_in_nil ].
  - destruct w as
      [[ready cached retrying count sref tref cur mounted] evs n live pend].
    destruct Htracked as [Hlive Hpend]; cbn in *.
    apply remove_held_held_in in Hlive as Hlive', Hpend as Hpend'.
    unfold AuthSync.unmount, AuthSync.cleanupStream, sync_tracked.
    unfold_sup; unfold_monad.
    destruct sref as [h|], tref as [t|]; cbn in *;
      rewrite ?Hlive', ?Hpend'; split; apply held_in_nil.
Qed.

End useAuthSync_invariant.

#[local] Arguments onDone_calls : simpl never.
#[local] Arguments AuthSync.retries : simpl never.

Lemma onDone_calls_app {V} (evs1 evs2 : list (SupEvent V)) :
  onDone_calls (evs1 ++ evs2) = onDone_calls evs1 ++ onDone_calls evs2.
Proof. unfold onDone_calls. apply omap_app. Qed.

Section useAuthSync_retry.
Context {V : Type} (options : AuthSync.Options).

(** A stream setup that fails counts one more failure; it sets the retry
    timer while the new count is below the maximum and spends the budget
    otherwise. *)
Lemma setupStream_failure (user : User) (env : Setup)
    (w : SupWorld V AuthSync.State) :
  AuthSync.isMountedRef (sup w) = true ->
  AuthSync.currentUserRef (sup w) = Some user ->
  held_in (AuthSync.retryTimeoutRef (sup w)) (pending_timers w) ->
  AuthSync.setup_fails options env = true ->
  exists w', AuthSync.setupStream options user env w = (Returns tt, w') /\
    if (AuthSync.retryCount (sup w) + 1 >=? AuthSync.maxRetries options)%Z
    then AuthSync.retryCount (sup w') = (AuthSync.retryCount (sup w) + 1)%Z /\
         AuthSync.isRetrying (sup w') = false /\
         AuthSync.streamUnsubscribeRef (sup w') = None /\
         AuthSync.retryTimeoutRef (sup w') = None /\
         pending_timers w' = [] /\
         sync_phase (sup w') = Exhausted /\
         (AuthSync.has_onDone options = true ->
          last (events w') =
            Some (OnDone (AuthSync.retryCount (sup w) + 1)
                         (AuthSync.maxRetries options)))
    else sync_retrying user (AuthSync.retryCount (sup w) + 1) w'.
Proof.
  destruct w as
    [[ready cached retrying count sref tref cur mounted] evs n live pend].
  cbn. intros -> -> Hheld Hfails.
  assert (Hpend : remove_held tref pend = [])
    by by apply remove_held_held_in.
  unfold AuthSync.setup_fails in Hfails.
  unfold sync_retrying, sync_phase.
  unfold_sync; unfold_sup; unfold_monad.
  destruct (AuthSync.has_onAuth options) eqn:Hauth,
    (onAuth_throws env) as [ea|] eqn:Hea,
    (stream_throws env) as [es|] eqn:Hes; cbn in Hfails; try done;
    destruct sref as [h|], tref as [t|]; cbn in *;
    destruct (AuthSync.has_onError options); cbn;
    destruct (count + 1 >=? AuthSync.maxRetries options)%Z; cbn;
    destruct (AuthSync.has_onDone options); cbn; rewrite ?Hpend;
    eexists; (split; [reflexivity |]); cbn;
    repeat split; eauto; try done; intros _; by rewrite last_snoc.
Qed.

(** From a waiting hook, failures up to the maximum spend the budget. *)
Lemma retries_exhaust (user : User) (envs : list Setup) :
  forall (count : Z) (w : SupWorld V AuthSync.State),
    sync_retrying user count w ->
    (count + Z.of_nat (length envs))%Z = AuthSync.maxRetries options ->
    Forall (fun env => AuthSync.setup_fails options env = true) envs ->
    envs <> [] ->
    exists w', AuthSync.retries options envs w = (Returns tt, w') /\
      sync_exhausted options w'.
Proof.
  induction envs as [|env envs IH]; intros count w Hw Hlen Hfail Hne; [done |].
  destruct Hw as (Hmounted & Huser & Hcount & Hretrying & Hsref & t & Htref & Hpend).
  apply Forall_cons in Hfail as [Hfail Hfails].
  unfold AuthSync.retries; fold (AuthSync.retries (V:=V) options envs).
  destruct w as
    [[ready cached retrying count' sref tref cur mounted] evs n live pend].
  cbn in Hmounted, Huser, Hcount, Hretrying, Hsref, Htref, Hpend.
  subst count'; subst.
  unfold AuthSync.retry, AuthSync.onRetryTimeout.
  unfold_sup. unfold_monad. cbn. rewrite remove_singleton.
  match goal with
  | |- context [AuthSync.setupStream options user env ?w0] =>
      destruct (setupStream_failure user env w0) as (w1 & Hrun & Hw1);
        [done | done | apply held_in_nil | done |]
  end.
  rewrite Hrun. cbn in Hw1.
  destruct (Z.geb_spec (count + 1) (AuthSync.maxRetries options)) as [Hge | Hlt].
  - assert (envs = []) as ->
      by (destruct envs; [done | cbn [length] in Hlen; lia]).
    cbn [length] in Hlen.
    assert ((count + 1)%Z = AuthSync.maxRetries options) as Heq by lia.
    rewrite Heq in Hw1. exists w1. split; [done | exact Hw1].
  - apply (IH (count + 1)%Z); [done | | done |].
    + cbn [length] in Hlen. lia.
    + intros ->. cbn [length] in Hlen. lia.
Qed.

End useAuthSync_retry.

Section FirebaseAuthService_retry.
Context {V : Type} (has_onAuth : bool).

Ltac onDone_unchanged :=
  unfold onDone_calls; rewrite ?omap_app; cbn; by rewrite ?app_nil_r.

(** While fewer than twenty retries were made, a stream error sets a retry
    timer. *)
Lemma onStreamError_sets_timer (error : AuthService.StreamError)
    (nrOfRetry : Z) (w : SupWorld V AuthService.State) :
  service_streaming nrOfRetry w ->
  (nrOfRetry < 20)%Z ->
  let w' := state_of (AuthService.onStreamError error w) in
  (exists t, pending_timers w' = [t]
             /\ AuthService._retryTimer (sup w') = Some t) /\
  live_streams w' = live_streams w /\
  onDone_calls (events w') = onDone_calls (events w).
Proof.
  destruct w as [[cached sub auth timer nr] evs n live pend].
  intros (Hnr & Htimer & Hpend & Hauth & h & Hsub & Hlive) Hlt;
    cbn in *; subst.
  unfold_auth_service; unfold_sup; unfold_monad; cbn.
  unfold AuthService._maxNrOfRetry.
  destruct (Z.ltb_spec nrOfRetry 20) as [_ | ?]; [| lia]. cbn.
  repeat split; [eauto | onDone_unchanged].
Qed.

(** Once twenty retries were made, a stream error stops the two
    subscriptions and sets no timer. *)
Lemma onStreamError_gives_up (error : AuthService.StreamError)
    (nrOfRetry : Z) (w : SupWorld V AuthService.State) :
  service_streaming nrOfRetry w ->
  (20 <= nrOfRetry)%Z ->
  let w' := state_of (AuthService.onStreamError error w) in
  pending_timers w' = [] /\
  AuthService._retryTimer (sup w') = None /\
  live_streams w' = [] /\
  AuthService._subscription (sup w') = None /\
  AuthService._userSubscription (sup w') = None /\
  AuthService._nrOfRetry (sup w') = nrOfRetry /\
  onDone_calls (events w') = onDone_calls (events w).
Proof.
  destruct w as [[cached sub auth timer nr] evs n live pend].
  intros (Hnr & Htimer & Hpend & [a Hauth] & h & Hsub & Hlive) Hge;
    cbn in *; subst.
  unfold_auth_service; unfold_sup; unfold_monad; cbn.
  unfold AuthService._maxNrOfRetry.
  destruct (Z.ltb_spec nrOfRetry 20) as [? | _]; [lia |]. cbn.
  rewrite remove_singleton.
  repeat split. onDone_unchanged.
Qed.

(** A stream error below the budget, the retry it schedules and the new
    report of the user bring the service back to streaming, with one more
    retry counted. *)
Lemma error_and_retry_cycle (user : User) (error : AuthService.StreamError)
    (nrOfRetry : Z) (w : SupWorld V AuthService.State) :
  service_streaming nrOfRetry w ->
  (nrOfRetry < 20)%Z ->
  exists w',
    AuthService.error_and_retry has_onAuth user error w = (Returns tt, w') /\
    service_streaming (nrOfRetry + 1) w' /\
    onDone_calls (events w') = onDone_calls (events w).
Proof.
  destruct w as [[cached sub auth timer nr] evs n live pend].
  intros (Hnr & Htimer & Hpend & [a Hauth] & h & Hsub & Hlive) Hlt;
    cbn in *; subst.
  unfold AuthService.error_and_retry, service_streaming.
  unfold_auth_service; unfold_sup; unfold_monad; cbn.
  unfold AuthService._maxNrOfRetry.
  destruct (Z.ltb_spec nrOfRetry 20) as [_ | ?]; [| lia]. cbn.
  rewrite !remove_singleton. cbn.
  destruct has_onAuth; cbn; eexists; (split; [reflexivity |]); cbn;
    (split; [repeat split; eauto | onDone_unchanged]).
Qed.

Lemma errors_and_retries_run (user : User)
    (errors : list AuthService.StreamError) :
  forall (nrOfRetry : Z) (w : SupWorld V AuthService.State),
    service_streaming nrOfRetry w ->
    (nrOfRetry + Z.of_nat (length errors) <= 20)%Z ->
    exists w',
      AuthService.errors_and_retries has_onAuth user errors w
        = (Returns tt, w') /\
      service_streaming (nrOfRetry + Z.of_nat (length errors)) w' /\
      onDone_calls (events w') = onDone_calls (events w).
Proof.
  induction errors as [|error errors IH]; intros nrOfRetry w Hw Hlen.
  - exists w. cbn [length Z.of_nat]. rewrite Z.add_0_r.
    split; [done | split; [exact Hw | done]].
  - cbn [length] in Hlen.
    destruct (error_and_retry_cycle user error nrOfRetry w Hw)
      as (w1 & Hrun & Hw1 & Hdone1); [lia |].
    destruct (IH (nrOfRetry + 1)%Z w1 Hw1) as (w2 & Hrun2 & Hw2 & Hdone2);
      [lia |].
    exists w2. split; [| split].
    + cbn [AuthService.errors_and_retries]. unfold bind at 1.
      by rewrite Hrun.
    + replace (nrOfRetry + Z.of_nat (length (error :: errors)))%Z
        with (nrOfRetry + 1 + Z.of_nat (length errors))%Z
        by (cbn [length]; lia).
      exact Hw2.
    + by rewrite Hdone2.
Qed.

End FirebaseAuthService_retry.

(** C4, as amended — retry bound: in [useAuthSync] with a positive
    [maxRetries], a sign-in whose stream setup fails, followed by the
    retries that fail too, [maxRetries] failures in all, ends with the
    budget spent: the retry count is [maxRetries], no stream and no timer
    is held, no timer is pending, and [onDone], when given, is the last
    callback, called with [(maxRetries, maxRetries)]. In
    [FirebaseAuthService] the retry count is incremented when a retry timer
    fires and the budget is twenty retries: after fewer than twenty retried
    errors a further stream error still sets a timer, so the twentieth
    consecutive error schedules a retry; after twenty retried errors the
    next error sets no timer and stops both subscriptions. *)
Theorem retry_budget_is_bounded {V : Type} :
  (forall (options : AuthSync.Options) (user : User) (env : Setup)
          (envs : list Setup) (w : SupWorld V AuthSync.State),
     AuthSync.isMountedRef (sup w) = true ->
     AuthSync.retryCount (sup w) = 0%Z ->
     held_in (AuthSync.retryTimeoutRef (sup w)) (pending_timers w) ->
     Z.of_nat (length (env :: envs)) = AuthSync.maxRetries options ->
     Forall (fun env => AuthSync.setup_fails options env = true)
            (env :: envs) ->
     sync_exhausted options
       (state_of (AuthSync.sign_in_and_retry options user env envs w))) /\
  (forall (has_onAuth : bool) (user : User)
          (errors : list AuthService.StreamError)
          (error : AuthService.StreamError)
          (w : SupWorld V AuthService.State),
     service_streaming 0 w ->
     let w' := state_of
       ((AuthService.errors_and_retries has_onAuth user errors ;;
         AuthService.onStreamError error) w) in
     (length errors < 20 ->
      exists t, pending_timers w' = [t]
                /\ AuthService._retryTimer (sup w') = Some t) /\
     (length errors = 20 ->
      pending_timers w' = [] /\
      AuthService._retryTimer (sup w') = None /\
      live_streams w' = [] /\
      AuthService._subscription (sup w') = None /\
      AuthService._userSubscription (sup w') = None /\
      AuthService._nrOfRetry (sup w') = 20%Z)).
Proof.
  split.
  - intros options user env envs w Hmounted Hcount Hheld Hlen Hfails.
    apply Forall_cons in Hfails as [Hfail Hfails].
    unfold AuthSync.sign_in_and_retry, AuthSync.onAuthStateChanged.
    destruct w as
      [[ready cached retrying count sref tref cur mounted] evs n live pend].
    cbn in Hmounted, Hcount, Hheld; subst.
    unfold_sup. unfold_monad. cbn.
    match goal with
    | |- context [AuthSync.setupStream options user env ?w0] =>
        destruct (setupStream_failure options user env w0)
          as (w1 & Hrun & Hw1); [done | done | done | done |]
    end.
    rewrite Hrun. cbn in Hw1.
    destruct (Z.geb_spec (0 + 1) (AuthSync.maxRetries options)) as [Hge | Hlt].
    + assert (envs = []) as ->
        by (destruct envs; [done | cbn [length] in Hlen; lia]).
      cbn [length] in Hlen.
      replace (0 + 1)%Z with (AuthSync.maxRetries options) in Hw1 by lia.
      exact Hw1.
    + destruct (retries_exhaust options user envs (0 + 1)%Z w1 Hw1)
        as (w2 & Hrun2 & Hw2); [cbn [length] in Hlen; lia | done | |].
      * intros ->. cbn [length] in Hlen. lia.
      * by rewrite Hrun2.
  - intros has_onAuth user errors error w Hw w'. subst w'.
    assert (Hrun : length errors <= 20 ->
      exists w1,
        (AuthService.errors_and_retries has_onAuth user errors ;;
         AuthService.onStreamError error) w
          = AuthService.onStreamError error w1 /\
        service_streaming (Z.of_nat (length errors)) w1 /\
        onDone_calls (events w1) = onDone_calls (events w)).
    { intros Hle.
      destruct (errors_and_retries_run has_onAuth user errors 0%Z w Hw)
        as (w1 & Hrun & Hw1 & Hdone1); [lia |].
      rewrite Z.add_0_l in Hw1. exists w1. split; [| done].
      unfold bind. by rewrite Hrun. }
    split.
    + intros Hlt. destruct Hrun as (w1 & Hrun1 & Hw1 & Hdone1); [lia |].
      rewrite Hrun1.
      destruct (onStreamError_sets_timer error _ w1 Hw1)
        as (Htimer & _ & _); [lia |]. exact Htimer.
    + intros Heq. destruct Hrun as (w1 & Hrun1 & Hw1 & Hdone1); [lia |].
      rewrite Hrun1.
      destruct (onStreamError_gives_up error _ w1 Hw1)
        as (? & ? & ? & ? & ? & Hnr & _); [lia |].
      rewrite Heq in Hnr. by repeat split.
Qed.

(** ** Concrete runs *)



(** C4, counterexample: in [FirebaseAuthService], after exactly twenty
    consecutive errors (twenty failed initialisations with no stream ever
    set up, or twenty stream errors) a retry timer is pending and [onDone]
    was never called. *)
Lemma retry_bound_counterexample :
  pending_timers Scenario.twenty_failed_initialisations = [19] /\
  onDone_calls (events Scenario.twenty_failed_initialisations) = [] /\
  AuthService._nrOfRetry (sup Scenario.twenty_failed_initialisations) = 19%Z /\
  pending_timers Scenario.twenty_stream_errors = [59] /\
  onDone_calls (events Scenario.twenty_stream_errors) = [] /\
  AuthService._nrOfRetry (sup Scenario.twenty_stream_errors) = 19%Z.
Proof. vm_compute. repeat split. Qed.

(** C5, counterexample: in [FirebaseAuthService] a sign-out leaves the
    pending retry timer pending, and leaves the retry count at 1 after one
    retry. *)
Lemma sign_out_counterexample :
  pending_timers Scenario.sign_out_while_retrying = [2] /\
  AuthService._retryTimer (sup Scenario.sign_out_while_retrying) = Some 2 /\
  AuthService.cachedUserId (sup Scenario.sign_out_after_retry) = None /\
  AuthService._nrOfRetry (sup Scenario.sign_out_after_retry) = 1%Z.
Proof. vm_compute. repeat split. Qed.




(** ** Witnesses: the theorems at concrete inputs *)





(** C4, witness: three failed setups with [maxRetries = 3]; twenty and
    nineteen retried stream errors followed by one more. *)
Lemma retry_budget_witness :
  sync_exhausted (Scenario.sync_options 3)
    (state_of
       (AuthSync.sign_in_and_retry (Scenario.sync_options 3) Scenario.alice
          Scenario.stream_fails [Scenario.stream_fails; Scenario.stream_fails]
          Scenario.mounted)) /\
  (pending_timers
     (state_of
        ((AuthService.errors_and_retries false Scenario.alice
            (replicate 20 Scenario.stream_error) ;;
          AuthService.onStreamError Scenario.stream_error)
           Scenario.streaming_service)) = [] /\
   AuthService._retryTimer
     (sup (state_of
        ((AuthService.errors_and_retries false Scenario.alice
            (replicate 20 Scenario.stream_error) ;;
          AuthService.onStreamError Scenario.stream_error)
           Scenario.streaming_service))) = None /\
   live_streams
     (state_of
        ((AuthService.errors_and_retries false Scenario.alice
            (replicate 20 Scenario.stream_error) ;;
          AuthService.onStreamError Scenario.stream_error)
           Scenario.streaming_service)) = [] /\
   AuthService._subscription
     (sup (state_of
        ((AuthService.errors_and_retries false Scenario.alice
            (replicate 20 Scenario.stream_error) ;;
          AuthService.onStreamError Scenario.stream_error)
           Scenario.streaming_service))) = None /\
   AuthService._userSubscription
     (sup (state_of
        ((AuthService.errors_and_retries false Scenario.alice
            (replicate 20 Scenario.stream_error) ;;
          AuthService.onStreamError Scenario.stream_error)
           Scenario.streaming_service))) = None /\
   AuthService._nrOfRetry
     (sup (state_of
        ((AuthService.errors_and_retries false Scenario.alice
            (replicate 20 Scenario.stream_error) ;;
          AuthService.onStreamError Scenario.stream_error)
           Scenario.streaming_service))) = 20%Z) /\
  (exists t,
     pending_timers
       (state_of
          ((AuthService.errors_and_retries false Scenario.alice
              (replicate 19 Scenario.stream_error) ;;
            AuthService.onStreamError Scenario.stream_error)
             Scenario.streaming_service)) = [t] /\
     AuthService._retryTimer
       (sup (state_of
          ((AuthService.errors_and_retries false Scenario.alice
              (replicate 19 Scenario.stream_error) ;;
            AuthService.onStreamError Scenario.stream_error)
             Scenario.streaming_service))) = Some t).
Proof.
  assert (Hstreaming : service_streaming 0 Scenario.streaming_service).
  { repeat split; [by exists 0 | by exists 1]. }
  split; [| split].
  - apply (proj1 (retry_budget_is_bounded (V := unit))
             (Scenario.sync_options 3) Scenario.alice Scenario.stream_fails
             [Scenario.stream_fails; Scenario.stream_fails] Scenario.mounted);
      [reflexivity | reflexivity | apply held_in_nil | reflexivity |].
    repeat constructor.
  - apply (proj2 (retry_budget_is_bounded (V := unit)) false Scenario.alice
             (replicate 20 Scenario.stream_error) Scenario.stream_error
             Scenario.streaming_service Hstreaming).
    reflexivity.
  - apply (proj2 (retry_budget_is_bounded (V := unit)) false Scenario.alice
             (replicate 19 Scenario.stream_error) Scenario.stream_error
             Scenario.streaming_service Hstreaming).
    vm_compute. lia.
Defined.

(** C5, witness: a sign-out while the hook streams for a user. *)
Lemma sign_out_witness :
  AuthSync.cachedUserId
    (sup (state_of
       (AuthSync.onAuthStateChanged (Scenario.sync_options 3) None
          Scenario.stream_starts Scenario.mounted_streaming))) = None /\
  AuthSync.retryCount
    (sup (state_of
       (AuthSync.onAuthStateChanged (Scenario.sync_options 3) None
          Scenario.stream_starts Scenario.mounted_streaming))) = 0%Z /\
  live_streams
    (state_of
       (AuthSync.onAuthStateChanged (Scenario.sync_options 3) None
          Scenario.stream_starts Scenario.mounted_streaming)) = [] /\
  events
    (state_of
       (AuthSync.onAuthStateChanged (Scenario.sync_options 3) None
          Scenario.stream_starts Scenario.mounted_streaming))
    = [OnAuth Scenario.alice; StreamStarted 0 Scenario.alice; StreamStopped 0;
       OnData None None; OnDone 0 3].
Proof.
  destruct (proj1 (sign_out_clears_state (V := unit))
              (Scenario.sync_options 3) Scenario.stream_starts
              Scenario.mounted_streaming eq_refl
              (conj (held_in_singleton 0) (held_in_nil None)))
    as (Hcached & Hcount & _ & _ & _ & Hlive & _ & Hevents).
  split; [exact Hcached |].
  split; [exact Hcount |].
  split; [exact Hlive | exact Hevents].
Defined.


(** * Further properties of the sources *)

(** ** TurboFirestoreApi: timestamps and local fields *)

(** Whatever the code, the exception built from an SDK error carries its
    message, code and stack, and the path passed in. *)
Lemma fromFirestoreError_fields (error : FirestoreError)
    (path query : option string) :
  exn_message (fromFirestoreError error path query) = fe_message error /\
  exn_code (fromFirestoreError error path query) = fe_code error /\
  exn_path (fromFirestoreError error path query) = path /\
  exn_stackTrace (fromFirestoreError error path query) = fe_stack error.
Proof.
  unfold fromFirestoreError.
  repeat match goal with
  | |- context [String.eqb ?a ?b] => destruct (String.eqb a b)
  end; by cbn.
Qed.

Section api_data.
Context {Value : Type} (serverTimestamp : Value) (string_value : string -> Value).
Context (this : ApiData.Fields).

(** [addTimestamps] only writes the two timestamp fields: every other
    field of the payload comes out as it went in, and no field is lost. *)
Theorem addTimestamps_touches_only_timestamps
    (data : gmap string Value) (timestampType : ApiData.TurboTimestampType)
    (isCreate : bool) (field : string) :
  let result :=
    ApiData.addTimestamps serverTimestamp this data timestampType isCreate in
  (field <> ApiData.createdAtFieldName this ->
   field <> ApiData.updatedAtFieldName this ->
   result !! field = data !! field) /\
  (is_Some (data !! field) -> is_Some (result !! field)).
Proof.
  cbn. unfold ApiData.addTimestamps. split.
  - intros Hc Hu.
    destruct timestampType, isCreate;
      repeat (case_bool_decide; try congruence); cbn;
      repeat (rewrite lookup_insert_ne; [| congruence]); done.
  - intros Hsome.
    destruct timestampType, isCreate;
      repeat (case_bool_decide; try congruence); cbn;
      rewrite ?lookup_insert_is_Some'; auto.
Qed.

(** The timestamps of a write, by operation. With the default timestamp
    type a create stamps both fields with the server's time, whatever the
    writeable held there; an update stamps the update field only and, when
    the two fields have different names, leaves the creation field as the
    caller passed it. An update asked to stamp the creation time only stamps
    nothing. *)
Theorem timestamps_by_operation (data : gmap string Value) :
  let created := ApiData.createDoc_data serverTimestamp this data None in
  let updated := ApiData.updateDoc_data serverTimestamp this data None in
  created !! ApiData.createdAtFieldName this = Some serverTimestamp /\
  created !! ApiData.updatedAtFieldName this = Some serverTimestamp /\
  updated !! ApiData.updatedAtFieldName this = Some serverTimestamp /\
  (ApiData.createdAtFieldName this <> ApiData.updatedAtFieldName this ->
   updated !! ApiData.createdAtFieldName this
     = data !! ApiData.createdAtFieldName this) /\
  ApiData.updateDoc_data serverTimestamp this data (Some ApiData.CreatedAt)
    = data /\
  ApiData.updateDoc_data serverTimestamp this data (Some ApiData.NoTimestamps)
    = data.
Proof.
  cbn. unfold ApiData.createDoc_data, ApiData.updateDoc_data,
    ApiData.addTimestamps; cbn.
  repeat (case_bool_decide; try congruence); cbn.
  split_and!; try done.
  - destruct (decide (ApiData.updatedAtFieldName this
                      = ApiData.createdAtFieldName this)) as [-> | Hne].
    + by rewrite lookup_insert_eq.
    + by rewrite lookup_insert_ne, lookup_insert_eq.
  - by rewrite lookup_insert_eq.
  - by rewrite lookup_insert_eq.
  - intros Hne. rewrite lookup_insert_ne; [done | congruence].
Qed.

Context (collectionPathFn : string).
Context (getDoc : string -> string
                  -> FirestoreError + ApiData.DocumentSnapshot (Value:=Value)).

(** [getById] reads the collection named by the override, or else by
    [collectionPathFn]. A document that is absent is a success with no data,
    not a failure. For a document that exists and an API that adds the local
    id (the default), the record handed back holds the snapshot's id in the
    id field, whatever was stored there, unless the document reference is
    written to a field of the same name; the other stored fields, that of
    the document reference apart, are handed back as stored. A failed read
    is a failure result whose exception carries the default collection
    path, not the override. *)
Theorem getById_adds_the_document_id (id : string)
    (collectionPathOverride : option string) :
  let response :=
    ApiData.getById string_value this collectionPathFn getDoc id
      collectionPathOverride in
  match getDoc (default collectionPathFn collectionPathOverride) id with
  | inr docSnap =>
      match ApiData.snap_data docSnap with
      | None => response = Success None None None
      | Some stored =>
          exists data, response = Success (Some data) None None /\
            (ApiData.tryAddLocalId this = true ->
             ApiData.tryAddLocalDocumentReference this = false \/
             ApiData.documentReferenceFieldName this
               <> ApiData.idFieldName this ->
             data !! ApiData.idFieldName this
               = Some (string_value (ApiData.snap_id docSnap))) /\
            (forall field,
               field <> ApiData.idFieldName this ->
               field <> ApiData.documentReferenceFieldName this ->
               data !! field = stored !! field)
      end
  | inl firestoreError =>
      exists exception,
        response = Fail (JsException exception) None
                        (Some (fe_message firestoreError))
                        (fe_stack firestoreError) /\
        exn_path exception = Some collectionPathFn /\
        exn_code exception = fe_code firestoreError
  end.
Proof.
  cbn. unfold ApiData.getById, ApiData.collection_path.
  destruct (getDoc _ id) as [firestoreError | docSnap].
  - exists (fromFirestoreError firestoreError (Some collectionPathFn) None).
    destruct (fromFirestoreError_fields firestoreError (Some collectionPathFn)
                None) as (-> & -> & -> & ->).
    done.
  - destruct (ApiData.snap_data docSnap) as [stored|]; [| done].
    eexists. split; [reflexivity |]. unfold ApiData.addLocalFields. split.
    + intros -> [-> | Hne]; [by rewrite lookup_insert_eq |].
      destruct (ApiData.tryAddLocalDocumentReference this).
      * by rewrite lookup_insert_ne, lookup_insert_eq.
      * by rewrite lookup_insert_eq.
    + intros field Hid Href.
      destruct (ApiData.tryAddLocalId this),
        (ApiData.tryAddLocalDocumentReference this);
        repeat (rewrite lookup_insert_ne; [| congruence]); done.
Qed.

End api_data.

(** ** The type guards *)

Lemma typeof_function (value : Guards.JsValue) :
  String.eqb (Guards.typeof value) "function" = true
  <-> value = Guards.JsFunction.
Proof. destruct value; cbn; split; intros H; congruence. Qed.

Lemma typeof_id (value : Guards.JsValue) :
  String.eqb (Guards.typeof value) "string"
  || String.eqb (Guards.typeof value) "number" = true
  <-> (exists s, value = Guards.JsString s)
      \/ (exists n, value = Guards.JsNumber n).
Proof.
  destruct value; cbn; split; intros H; try congruence;
    try (destruct H as [[? H] | [? H]]; congruence); eauto.
Qed.

(** The two type guards. [isTurboWriteableId] is [isTurboWriteable] with
    the test of the [id] added; [isTurboWriteable] accepts exactly the
    objects whose [toJson] is a function, and [isTurboWriteableId] those
    that also have an [id] that is a string or a number. Neither looks at
    [isLocalDefault] or [validate], and [null], [undefined], primitives
    and functions are rejected without an exception. *)
Theorem guards_accept_the_interfaces (obj : Guards.JsValue) :
  Guards.isTurboWriteableId obj
    = Guards.isTurboWriteable obj
      && Guards.has_property "id" obj
      && (String.eqb (Guards.typeof (Guards.get_property "id" obj)) "string"
          || String.eqb (Guards.typeof (Guards.get_property "id" obj)) "number") /\
  (Guards.isTurboWriteable obj = true <->
   exists properties,
     obj = Guards.JsObject properties /\
     Guards.lookup_property "toJson" properties = Some Guards.JsFunction) /\
  (Guards.isTurboWriteableId obj = true <->
   exists properties,
     obj = Guards.JsObject properties /\
     Guards.lookup_property "toJson" properties = Some Guards.JsFunction /\
     ((exists s, Guards.lookup_property "id" properties
                 = Some (Guards.JsString s)) \/
      (exists n, Guards.lookup_property "id" properties
                 = Some (Guards.JsNumber n)))).
Proof.
  split; [| split].
  - unfold Guards.isTurboWriteableId, Guards.isTurboWriteable.
    destruct obj; cbn; try reflexivity.
    repeat match goal with
    | |- context [bool_decide ?P] => destruct (bool_decide P)
    | |- context [String.eqb ?a ?b] => destruct (String.eqb a b)
    end; reflexivity.
  - unfold Guards.isTurboWriteable. split.
    + destruct obj as [| | | | | | properties]; cbn; try discriminate.
      intros H. exists properties. split; [done |].
      apply andb_prop in H as [Hhas Hfun].
      apply bool_decide_eq_true in Hhas as [value Hvalue].
      rewrite Hvalue in Hfun |- *; cbn in Hfun.
      apply typeof_function in Hfun. by subst.
    + intros (properties & -> & Hjson); cbn. rewrite Hjson; cbn.
      by rewrite ?bool_decide_eq_true_2 by eauto.
  - unfold Guards.isTurboWriteableId. split.
    + destruct obj as [| | | | | | properties]; cbn; try discriminate.
      intros H. exists properties. split; [done |].
      apply andb_prop in H as [H Hfun].
      apply andb_prop in H as [H Hhas].
      apply andb_prop in H as [Hid Htype].
      apply bool_decide_eq_true in Hhas as [value Hvalue].
      apply bool_decide_eq_true in Hid as [ident Hident].
      rewrite Hvalue in Hfun |- *; cbn in Hfun.
      rewrite Hident in Htype |- *; cbn in Htype.
      apply typeof_function in Hfun. apply typeof_id in Htype. subst.
      split; [done |].
      destruct Htype as [[s ->] | [n ->]]; eauto.
    + intros (properties & -> & Hjson & Hid); cbn. rewrite Hjson; cbn.
      destruct Hid as [[s Hs] | [n Hn]].
      * rewrite Hs; cbn. by rewrite ?bool_decide_eq_true_2 by eauto.
      * rewrite Hn; cbn. by rewrite ?bool_decide_eq_true_2 by eauto.
Qed.

(** ** Snapshots and lookups of the collection mirrors *)

Section collection_lookups.
Context {T Json : Type} {writeable : TurboWriteableId T Json} {env : Env T Json}.

(** A map built from a list of documents holds, under an id, the last
    document of the list with that id. *)
Lemma by_id_lookup (docs : list T) (id : string) :
  CollectionLocal.by_id docs !! id = last (with_id id docs).
Proof.
  unfold CollectionLocal.by_id, with_id.
  induction docs as [|doc docs IH] using rev_ind; [done |].
  rewrite rev_app_distr; cbn. rewrite filter_app, filter_cons, filter_nil.
  destruct (decide (doc_id doc = id)) as [<- | Hne].
  - by rewrite lookup_insert_eq, last_snoc.
  - rewrite lookup_insert_ne by done. by rewrite app_nil_r.
Qed.

Lemma by_id_nil : CollectionLocal.by_id (T:=T) [] = ∅.
Proof. done. Qed.

Lemma hasDocs_by_id (docs : list T) :
  CollectionLocal.hasDocs (CollectionLocal.by_id docs) = true <-> docs <> [].
Proof.
  unfold CollectionLocal.hasDocs. rewrite bool_decide_eq_true.
  destruct docs as [|doc docs] using rev_ind.
  - rewrite by_id_nil, map_size_empty. split; [lia | done].
  - split; [by destruct docs |]. intros _.
    unfold CollectionLocal.by_id. rewrite rev_app_distr; cbn.
    apply Nat.neq_0_lt_0. intros Hsize. apply map_size_empty_inv in Hsize.
    by apply insert_non_empty in Hsize.
Qed.

(** A snapshot replaces the mirror. After the snapshot callback of the
    collection hook, and after [_handleStreamData] of the collection
    service with no [beforeSync] and [afterSync] callback set, the mirror
    holds under every id the last document of the
    snapshot with that id, and nothing else: an entry that is not in the
    snapshot, such as an optimistic one, is gone. The mirror is ready, it
    has documents exactly when the snapshot is not empty, and no remote
    call is made. The service also keeps the list as received and is
    loaded. The first state of the hook is built from [initialDocs] in the
    same way and is not ready. *)
Theorem snapshot_replaces_the_mirror (newDocs : list T) :
  (forall (w : World T Json (Collection.State T)),
     let w' := state_of (Collection.onSnapshot newDocs w) in
     (forall id, Collection.docsById (local w') !! id
                 = last (with_id id newDocs)) /\
     Collection.isReady (local w') = true /\
     (CollectionLocal.hasDocs (Collection.docsById (local w')) = true
      <-> newDocs <> []) /\
     stays_local w w') /\
  (forall (w : World T Json (CollectionService.State T)),
     let w' := state_of (CollectionService._handleStreamData newDocs w) in
     (forall id, CollectionService._docsById (local w') !! id
                 = last (with_id id newDocs)) /\
     CollectionService._docsInformer (local w') = newDocs /\
     CollectionService._isLoaded (local w') = true /\
     CollectionService._isLoading (local w') = false /\
     CollectionService._isReadyResolved (local w') = true /\
     CollectionService._unsubscribe (local w')
       = CollectionService._unsubscribe (local w) /\
     (CollectionService.hasDocs (local w') = true <-> newDocs <> []) /\
     stays_local w w') /\
  (forall id, Collection.docsById (CollectionLocal.initial (Some newDocs)) !! id
              = last (with_id id newDocs)) /\
  Collection.isReady (CollectionLocal.initial (Some newDocs)) = false /\
  Collection.docsById (CollectionLocal.initial (T:=T) None) = ∅.
Proof.
  split_and!.
  - intros [[docs ready] tr n]; cbn. split_and!; try done.
    + intros id. apply by_id_lookup.
    + apply hasDocs_by_id.
  - intros [[docs informer resolved loaded loading unsub] tr n].
    unfold CollectionService._handleStreamData, CollectionService._markReady.
    unfold_monad; cbn.
    destruct resolved; cbn; (split_and!; try done);
      try (intros id; apply by_id_lookup); apply hasDocs_by_id.
  - intros id. apply by_id_lookup.
  - done.
  - done.
Qed.

End collection_lookups.

(** ** Local mutators *)

Lemma stays_local_refl {T Json L} (w : World T Json L) : stays_local w w.
Proof. done. Qed.

Lemma stays_local_trans {T Json L} (w1 w2 w3 : World T Json L) :
  stays_local w1 w2 -> stays_local w2 w3 -> stays_local w1 w3.
Proof. intros [H1 H2] [H3 H4]. split; congruence. Qed.

Lemma stays_local_bind {T Json L A B} (m : M (World T Json L) A)
    (k : A -> M (World T Json L) B) :
  (forall w, stays_local w (state_of (m w))) ->
  (forall a w, stays_local w (state_of (k a w))) ->
  forall w, stays_local w (state_of (bind m k w)).
Proof.
  intros Hm Hk w. unfold bind. specialize (Hm w).
  destruct (m w) as [[a | e] w1]; cbn in *; [| done].
  eapply stays_local_trans; [exact Hm | apply Hk].
Qed.

Lemma stays_local_mapM {T Json L A B} (f : A -> M (World T Json L) B)
    (l : list A) :
  (forall a w, stays_local w (state_of (f a w))) ->
  forall w, stays_local w (state_of (mapM f l w)).
Proof.
  intros Hf. induction l as [|a l IH]; intros w; cbn; [done |].
  apply stays_local_bind; [apply Hf |]. intros b w1.
  apply stays_local_bind; [apply IH | done].
Qed.

Section local_mutators.
Context {T Json : Type} {writeable : TurboWriteableId T Json} {env : Env T Json}.

Lemma service_updateLocalDoc_stays_local (id : string) (doc : UpdateDocDef T)
    (w : World T Json (CollectionService.State T)) :
  stays_local w (state_of (CollectionService.updateLocalDoc id doc w)).
Proof.
  destruct w as [s tr n].
  unfold CollectionService.updateLocalDoc, CollectionService.findById,
    CollectionService.updateCurrent.
  unfold_monad; cbn.
  destruct (CollectionService._docsById s !! id); cbn; [| done].
  case_vars; try done. by case_outcome.
Qed.

Lemma service_upsertLocalDoc_stays_local (id : string) (doc : UpsertDocDef T)
    (w : World T Json (CollectionService.State T)) :
  stays_local w (state_of (CollectionService.upsertLocalDoc id doc w)).
Proof.
  destruct w as [s tr n].
  unfold CollectionService.upsertLocalDoc, CollectionService.tryFindById,
    CollectionService.updateCurrent.
  unfold_monad; cbn.
  destruct (truthy id); unfold_monad; cbn;
    (case_vars; try done; by case_outcome).
Qed.

(** The local mutators read and write nothing of the remote store and
    register no listener, whatever the transform and [getUserId] do, return
    or throw. The mutators that build their vars with a generated id,
    [createLocalDoc] and [updateLocalDoc] of the two hooks and
    [createLocalDoc] of the two services, make at most one call to the SDK,
    the one that builds a reference with a generated id. The others,
    [deleteLocalDoc] everywhere, [updateLocalDoc] and [upsertLocalDoc] of
    the two services and the mutators on lists of the collection service,
    make no call to the SDK. *)
Theorem local_mutators_only_generate_ids :
  (forall (w : World T Json (Collection.State T)),
     (forall def,
        at_most_generates_an_id w
          (state_of (CollectionLocal.createLocalDoc def w))) /\
     (forall docsById id def,
        at_most_generates_an_id w
          (state_of (CollectionLocal.updateLocalDoc docsById id def w))) /\
     (forall id, stays_local w (state_of (CollectionLocal.deleteLocalDoc id w)))) /\
  (forall documentId (w : World T Json (Document.State T)),
     (forall def,
        at_most_generates_an_id w
          (state_of (DocumentLocal.createLocalDoc def w))) /\
     (forall def,
        at_most_generates_an_id w
          (state_of (DocumentLocal.updateLocalDoc documentId def w))) /\
     stays_local w (state_of (DocumentLocal.deleteLocalDoc w))) /\
  (forall (w : World T Json (DocumentService.State T)),
     (forall doc,
        at_most_generates_an_id w
          (state_of (DocumentService.createLocalDoc doc w))) /\
     (forall doc, stays_local w (state_of (DocumentService.updateLocalDoc doc w))) /\
     (forall id doc,
        stays_local w (state_of (DocumentService.upsertLocalDoc id doc w))) /\
     stays_local w (state_of (DocumentService.deleteLocalDoc w))) /\
  (forall (w : World T Json (CollectionService.State T)),
     (forall doc,
        at_most_generates_an_id w
          (state_of (CollectionService.createLocalDoc doc w))) /\
     (forall id doc,
        stays_local w (state_of (CollectionService.updateLocalDoc id doc w))) /\
     (forall id doc,
        stays_local w (state_of (CollectionService.upsertLocalDoc id doc w))) /\
     (forall id, stays_local w (state_of (CollectionService.deleteLocalDoc id w))) /\
     (forall ids doc,
        stays_local w (state_of (CollectionService.updateLocalDocs ids doc w))) /\
     (forall ids doc,
        stays_local w (state_of (CollectionService.upsertLocalDocs ids doc w))) /\
     (forall ids,
        stays_local w (state_of (CollectionService.deleteLocalDocs ids w)))).
Proof.
  split_and!.
  - intros [s tr n]. split_and!.
    + intros def. unfold CollectionLocal.createLocalDoc, Collection.setDocsById.
      unfold_monad; cbn. case_vars; try by right. right. by case_outcome.
    + intros docsById id def.
      unfold CollectionLocal.updateLocalDoc, CollectionLocal.findById,
        Collection.setDocsById.
      unfold_monad; cbn. destruct (docsById !! id); cbn; [| by left].
      case_vars; try by right. right. by case_outcome.
    + done.
  - intros documentId [s tr n]. split_and!.
    + intros def.
      unfold DocumentLocal.createLocalDoc, Document.updateLocalState.
      unfold_monad; cbn. case_vars; try (by left); try (by right).
      right. by case_outcome.
    + intros def.
      unfold DocumentLocal.updateLocalDoc, Document.updateLocalState.
      unfold_monad; cbn.
      destruct (Document.previousDocRef s); cbn; [| by left].
      case_vars; try (by left); try (by right).
      right. by case_outcome.
    + done.
  - intros [s tr n]. split_and!.
    + intros doc. unfold_service. unfold_monad; cbn.
      case_vars; try by right. right. by case_outcome.
    + intros doc. unfold_service. unfold_monad; cbn.
      destruct (DocumentService._doc s); cbn; [| done].
      case_vars; try done. by case_outcome.
    + intros id doc. unfold_service. unfold_monad; cbn.
      case_vars; try done. by case_outcome.
    + done.
  - intros w. split_and!.
    + intros doc. destruct w as [s tr n].
      unfold CollectionService.createLocalDoc, CollectionService.updateCurrent.
      unfold_monad; cbn. case_vars; try by right. right. by case_outcome.
    + intros id doc. apply service_updateLocalDoc_stays_local.
    + intros id doc. apply service_upsertLocalDoc_stays_local.
    + done.
    + intros ids doc. unfold CollectionService.updateLocalDocs.
      apply stays_local_mapM. intros id w1.
      apply service_updateLocalDoc_stays_local.
    + intros ids doc. unfold CollectionService.upsertLocalDocs.
      apply stays_local_mapM. intros id w1.
      apply service_upsertLocalDoc_stays_local.
    + intros ids. unfold CollectionService.deleteLocalDocs.
      apply stays_local_bind; [| done].
      apply stays_local_mapM. done.
Qed.

End local_mutators.

(** ** The collection hook: local documents and lookups *)

Section collection_hook_local.
Context {T Json : Type} {writeable : TurboWriteableId T Json} {env : Env T Json}.

(** In the collection hook a document created locally is found again: when
    the vars are built and the transform returns a document,
    [createLocalDoc] returns it, the next render's [findById] and [exists]
    find it under its id, and the entries of the other ids are as before. [deleteLocalDoc] has no guard: it
    returns whether the id is in the mirror or not, afterwards [exists] is
    false and [findById] throws for that id, the other entries are as
    before, and when the id was absent the mirror is unchanged. *)
Theorem local_documents_are_found (w : World T Json (Collection.State T)) :
  (forall def w1 vars newDoc,
     Collection.createAuthVars w = (Returns vars, w1) ->
     def vars = Returns newDoc ->
     let r := CollectionLocal.createLocalDoc def w in
     let docs' := Collection.docsById (local (state_of r)) in
     outcome_of r = Returns newDoc /\
     CollectionLocal.findById docs' (doc_id newDoc) = Returns newDoc /\
     CollectionLocal.exists_ docs' (doc_id newDoc) = true /\
     (forall id, id <> doc_id newDoc ->
                 docs' !! id = Collection.docsById (local w) !! id)) /\
  (forall id,
     let r := CollectionLocal.deleteLocalDoc id w in
     let docs' := Collection.docsById (local (state_of r)) in
     outcome_of r = Returns tt /\
     CollectionLocal.exists_ docs' id = false /\
     CollectionLocal.findById docs' id
       = Throws (CollectionLocal.not_in_collection id) /\
     (forall id', id' <> id ->
                  docs' !! id' = Collection.docsById (local w) !! id') /\
     (Collection.docsById (local w) !! id = None -> state_of r = w)).
Proof.
  destruct w as [[docs ready] tr n]. split.
  - intros def w1 vars newDoc Hvars Hdef.
    pose proof (createAuthVars_returns _ _ _ Hvars) as ->.
    unfold CollectionLocal.createLocalDoc, Collection.setDocsById,
      CollectionLocal.findById, CollectionLocal.exists_.
    unfold_monad; cbn. rewrite Hvars; cbn. rewrite Hdef; cbn.
    rewrite lookup_insert_eq. split_and!; try done.
    intros id Hid. by rewrite lookup_insert_ne.
  - intros id.
    unfold CollectionLocal.deleteLocalDoc, Collection.setDocsById,
      CollectionLocal.findById, CollectionLocal.exists_.
    unfold_monad; cbn. rewrite lookup_delete_eq. split_and!; try done.
    + intros id' Hid'. by rewrite lookup_delete_ne.
    + intros Habsent. by rewrite delete_id.
Qed.

(** [updateLocalDoc] of the collection hook throws on an id that the
    render's mirror does not hold, and leaves the world as it was, where
    [updateDoc] resolves with a failure result. On an id the mirror holds
    and with the vars built it returns the transformed document and stores
    it under the id it was called with. [updateLocalDoc] of the collection
    service reads the
    current mirror, throws the same error on a missing id, and stores the
    transformed document under the document's own id: a transform that
    changes the id leaves the entry of the old id in place. *)
Theorem updateLocalDoc_keys :
  (forall (w : World T Json (Collection.State T)) docsById id def,
     docsById !! id = None ->
     CollectionLocal.updateLocalDoc docsById id def w
       = (Throws (CollectionLocal.not_in_collection id), w)) /\
  (forall (w w1 : World T Json (Collection.State T)) docsById id def
          current vars updatedDoc,
     docsById !! id = Some current ->
     Collection.createAuthVars w = (Returns vars, w1) ->
     def current vars = Returns updatedDoc ->
     let r := CollectionLocal.updateLocalDoc docsById id def w in
     outcome_of r = Returns updatedDoc /\
     Collection.docsById (local (state_of r))
       = <[id := updatedDoc]> (Collection.docsById (local w))) /\
  (forall (w : World T Json (CollectionService.State T)) id doc,
     CollectionService._docsById (local w) !! id = None ->
     CollectionService.updateLocalDoc id doc w
       = (Throws (CollectionLocal.not_in_collection id), w)) /\
  (forall (w w1 : World T Json (CollectionService.State T)) id doc current
          vars pDoc,
     CollectionService._docsById (local w) !! id = Some current ->
     CollectionService.turboVars (Some id) w = (Returns vars, w1) ->
     doc current vars = Returns pDoc ->
     let r := CollectionService.updateLocalDoc id doc w in
     outcome_of r = Returns pDoc /\
     CollectionService._docsById (local (state_of r))
       = <[doc_id pDoc := pDoc]> (CollectionService._docsById (local w)) /\
     (doc_id pDoc <> id ->
      CollectionService._docsById (local (state_of r)) !! id = Some current)).
Proof.
  split_and!.
  - intros [s tr n] docsById id def Habsent.
    unfold CollectionLocal.updateLocalDoc, CollectionLocal.findById.
    unfold_monad. by rewrite Habsent.
  - intros [[docs ready] tr n] w1 docsById id def current vars updatedDoc
      Hcur Hvars Hdef.
    pose proof (createAuthVars_returns _ _ _ Hvars) as ->.
    unfold CollectionLocal.updateLocalDoc, CollectionLocal.findById,
      Collection.setDocsById.
    unfold_monad. rewrite Hcur; cbn. rewrite Hvars; cbn. by rewrite Hdef.
  - intros [s tr n] id doc Habsent; cbn in Habsent.
    unfold CollectionService.updateLocalDoc, CollectionService.findById.
    unfold_monad; cbn. by rewrite Habsent.
  - intros [[docs informer resolved loaded loading unsub] tr n] w1
      id doc current vars pDoc Hcur Hvars Hdoc; cbn in Hcur.
    pose proof (collection_turboVars_returns _ _ _ _ Hvars) as ->.
    unfold CollectionService.updateLocalDoc, CollectionService.findById,
      CollectionService.updateCurrent.
    unfold_monad; cbn. rewrite Hcur; cbn. rewrite Hvars; cbn.
    rewrite Hdoc; cbn.
    split_and!; try done.
    intros Hne. by rewrite lookup_insert_ne.
Qed.

End collection_hook_local.

(** ** Mutations that the remote store accepts *)

Section accepted_mutations.
Context {T Json : Type} {writeable : TurboWriteableId T Json} {env : Env T Json}.

(** When no call of a sequence throws, all of them are made. *)
Lemma attempted_all (calls : list (SdkCall T Json)) :
  Api.error_of calls = None -> Api.attempted calls = calls.
Proof.
  induction calls as [|c calls IH]; cbn; [done |].
  destruct (sdk_error c); [done |]. intros H. by rewrite IH.
Qed.

(** An API method whose SDK calls all return. *)
Lemma api_try_accepted {L : Type} (calls : list (SdkCall T Json))
    (w : World T Json L) :
  Api.error_of calls = None ->
  Api.api_try calls w =
    (Returns (Success tt None None),
     mkWorld (local w) (trace w ++ map Call calls) (next_handle w)).
Proof.
  intros Hok. rewrite api_try_run, Hok. by rewrite attempted_all.
Qed.

(** A mutation that the remote store accepts keeps its optimistic value.
    In the collection hook, once the vars are built, [createDoc],
    [updateDoc] and [deleteDoc] resolve with a success that carries the
    transformed document, the mirror holds it under the id of the call (the
    entry is gone after a delete), and after the building of the vars the
    SDK saw the two calls of the one write and nothing else. The
    single-document hook does the same on its one document and always
    writes to [documentId], whatever id the transformed document carries.
    The document service writes a created document under the document's own
    id, and updates and deletes under the id of the document it held. *)
Theorem accepted_mutation_is_kept :
  (forall (w : World T Json (Collection.State T)),
     (forall def w1 vars newDoc,
        Collection.createAuthVars w = (Returns vars, w1) ->
        def vars = Returns newDoc ->
        Api.error_of (Api.createDoc_calls newDoc (doc_id newDoc) false) = None ->
        Collection.createDoc def w =
          (Returns (Success newDoc None None),
           mkWorld
             (Collection.mkState
                (<[doc_id newDoc := newDoc]> (Collection.docsById (local w)))
                (Collection.isReady (local w)))
             (trace w1 ++ map Call
                (Api.createDoc_calls newDoc (doc_id newDoc) false))
             (next_handle w))) /\
     (forall docsById id def w1 current vars updatedDoc data,
        Collection.tryFindById docsById id = Some current ->
        Collection.createAuthVars w = (Returns vars, w1) ->
        def current vars = Returns updatedDoc ->
        toJson updatedDoc = Returns data ->
        Api.error_of (Api.updateDoc_calls id data) = None ->
        Collection.updateDoc docsById id def w =
          (Returns (Success updatedDoc None None),
           mkWorld
             (Collection.mkState
                (<[id := updatedDoc]> (Collection.docsById (local w)))
                (Collection.isReady (local w)))
             (trace w1 ++ map Call (Api.updateDoc_calls id data))
             (next_handle w))) /\
     (forall docsById id current,
        Collection.tryFindById docsById id = Some current ->
        Api.error_of (Api.deleteDoc_calls (T:=T) (Json:=Json) id) = None ->
        Collection.deleteDoc docsById id w =
          (Returns (Success tt None None),
           mkWorld
             (Collection.mkState
                (delete id (Collection.docsById (local w)))
                (Collection.isReady (local w)))
             (trace w ++ map Call (Api.deleteDoc_calls id))
             (next_handle w)))) /\
  (forall documentId (w : World T Json (Document.State T)),
     (forall def w1 vars newDoc,
        Document.generateAuthVars w = (Returns vars, w1) ->
        def vars = Returns newDoc ->
        Api.error_of (Api.createDoc_calls newDoc documentId false) = None ->
        Document.createDoc documentId def w =
          (Returns (Success newDoc None None),
           mkWorld
             (Document.mkState (Some newDoc) (Document.isReady (local w))
                (Some newDoc))
             (trace w1 ++ map Call (Api.createDoc_calls newDoc documentId false))
             (next_handle w))) /\
     (forall def w1 current vars updatedDoc data,
        Document.previousDocRef (local w) = Some current ->
        Document.generateAuthVars w = (Returns vars, w1) ->
        def current vars = Returns updatedDoc ->
        toJson updatedDoc = Returns data ->
        Api.error_of (Api.updateDoc_calls documentId data) = None ->
        Document.updateDoc documentId def w =
          (Returns (Success updatedDoc None None),
           mkWorld
             (Document.mkState (Some updatedDoc) (Document.isReady (local w))
                (Some updatedDoc))
             (trace w1 ++ map Call (Api.updateDoc_calls documentId data))
             (next_handle w))) /\
     (Api.error_of (Api.deleteDoc_calls (T:=T) (Json:=Json) documentId) = None ->
      Document.deleteDoc documentId w =
        (Returns (Success tt None None),
         mkWorld
           (Document.mkState None (Document.isReady (local w)) None)
           (trace w ++ map Call (Api.deleteDoc_calls documentId))
           (next_handle w)))) /\
  (forall (w : World T Json (DocumentService.State T)),
     (forall doc w1 vars pDoc,
        DocumentService.turboVars None w = (Returns vars, w1) ->
        doc vars = Returns pDoc ->
        Api.error_of (Api.createDoc_calls pDoc (doc_id pDoc) false) = None ->
        DocumentService.createDoc doc w =
          (Returns (Success pDoc None None),
           mkWorld
             (DocumentService.mkState (Some pDoc)
                (DocumentService._unsubscribe (local w))
                (DocumentService._isReadyResolved (local w)))
             (trace w1 ++ map Call (Api.createDoc_calls pDoc (doc_id pDoc) false))
             (next_handle w))) /\
     (forall doc w1 current vars pDoc data,
        DocumentService._doc (local w) = Some current ->
        DocumentService.turboVars (Some (doc_id current)) w
          = (Returns vars, w1) ->
        doc current vars = Returns pDoc ->
        toJson pDoc = Returns data ->
        Api.error_of (Api.updateDoc_calls (doc_id current) data) = None ->
        DocumentService.updateDoc doc w =
          (Returns (Success pDoc None None),
           mkWorld
             (DocumentService.mkState (Some pDoc)
                (DocumentService._unsubscribe (local w))
                (DocumentService._isReadyResolved (local w)))
             (trace w ++ map Call (Api.updateDoc_calls (doc_id current) data))
             (next_handle w))) /\
     (forall current,
        DocumentService._doc (local w) = Some current ->
        Api.error_of (Api.deleteDoc_calls (T:=T) (Json:=Json) (doc_id current))
          = None ->
        DocumentService.deleteDoc w =
          (Returns (Success tt None None),
           mkWorld
             (DocumentService.mkState None
                (DocumentService._unsubscribe (local w))
                (DocumentService._isReadyResolved (local w)))
             (trace w ++ map Call (Api.deleteDoc_calls (doc_id current)))
             (next_handle w)))).
Proof.
  split_and!.
  - intros [[docs ready] tr n]. split_and!.
    + intros def w1 vars newDoc Hvars Hdef Hok.
      pose proof (createAuthVars_returns _ _ _ Hvars) as ->.
      unfold Collection.createDoc, Collection.setDocsById, Api.createDoc.
      unfold_monad; cbn. rewrite Hvars; cbn. rewrite Hdef; cbn.
      by rewrite (api_try_accepted _ _ Hok).
    + intros docsById id def w1 current vars updatedDoc data
        Hcur Hvars Hdef Hjson Hok.
      pose proof (createAuthVars_returns _ _ _ Hvars) as ->.
      unfold Collection.updateDoc, Collection.setDocsById, Api.updateDoc.
      rewrite Hcur. unfold_monad; cbn. rewrite Hvars; cbn.
      rewrite Hdef; cbn. rewrite Hjson; cbn.
      by rewrite (api_try_accepted _ _ Hok).
    + intros docsById id current Hcur Hok.
      unfold Collection.deleteDoc, Collection.setDocsById, Api.deleteDoc.
      rewrite Hcur. unfold_monad; cbn.
      by rewrite (api_try_accepted _ _ Hok).
  - intros documentId [[doc ready ref] tr n]. split_and!.
    + intros def w1 vars newDoc Hvars Hdef Hok.
      pose proof (generateAuthVars_returns _ _ _ Hvars) as ->.
      unfold Document.createDoc, Document.updateLocalState, Api.createDoc.
      unfold_monad; cbn. rewrite Hvars; cbn. rewrite Hdef; cbn.
      by rewrite (api_try_accepted _ _ Hok).
    + intros def w1 current vars updatedDoc data Hcur Hvars Hdef Hjson Hok;
        cbn in Hcur; subst ref.
      pose proof (generateAuthVars_returns _ _ _ Hvars) as ->.
      unfold Document.updateDoc, Document.updateLocalState, Api.updateDoc.
      unfold_monad; cbn. rewrite Hvars; cbn.
      rewrite Hdef; cbn.
      rewrite Hjson; cbn. by rewrite (api_try_accepted _ _ Hok).
    + intros Hok.
      unfold Document.deleteDoc, Document.updateLocalState, Api.deleteDoc.
      unfold_monad; cbn. by rewrite (api_try_accepted _ _ Hok).
  - intros [[held unsub ready] tr n]. split_and!.
    + intros doc w1 vars pDoc Hvars Hdoc Hok.
      pose proof (service_turboVars_returns _ _ _ _ Hvars) as ->.
      unfold_service. unfold_monad; cbn. rewrite Hvars; cbn.
      rewrite Hdoc; cbn. by rewrite (api_try_accepted _ _ Hok).
    + intros doc w1 current vars pDoc data Hcur Hvars Hdoc Hjson Hok;
        cbn in Hcur; subst held.
      pose proof (service_turboVars_returns _ _ _ _ Hvars) as ->.
      unfold_service. unfold_monad; cbn.
      rewrite Hvars; cbn.
      rewrite Hdoc; cbn. rewrite Hjson; cbn.
      by rewrite (api_try_accepted _ _ Hok).
    + intros current Hcur Hok; cbn in Hcur.
      unfold_service. unfold_monad; cbn. rewrite Hcur; cbn.
      by rewrite (api_try_accepted _ _ Hok).
Qed.

End accepted_mutations.

(** ** The single-document hook: the ref and the displayed document *)

Section document_hook.
Context {T Json : Type} {writeable : TurboWriteableId T Json} {env : Env T Json}.

(** Once the ref of the single-document hook holds the displayed document,
    every operation keeps it so, whatever its outcome: the snapshot
    callback (which establishes it and makes the hook ready), the error
    callback of the stream, the three local mutators and the four remote
    mutators. *)
Theorem ref_tracks_the_document (documentId : string)
    (w : World T Json (Document.State T)) :
  let tracked (w' : World T Json (Document.State T)) :=
    Document.previousDocRef (local w') = Document.doc (local w') in
  (forall snapshot defaultValue,
     let w' := state_of (Document.onSnapshot snapshot defaultValue w) in
     tracked w' /\
     Document.doc (local w')
       = match snapshot with Some d => Some d | None => defaultValue end /\
     Document.isReady (local w') = true) /\
  (tracked w ->
   tracked (state_of (DocumentLocal.onStreamError w)) /\
   (forall def, tracked (state_of (DocumentLocal.createLocalDoc def w))) /\
   (forall def,
      tracked (state_of (DocumentLocal.updateLocalDoc documentId def w))) /\
   tracked (state_of (DocumentLocal.deleteLocalDoc w)) /\
   (forall def, tracked (state_of (Document.createDoc documentId def w))) /\
   (forall def, tracked (state_of (Document.updateDoc documentId def w))) /\
   (forall def, tracked (state_of (Document.upsertDoc documentId def w))) /\
   tracked (state_of (Document.deleteDoc documentId w))).
Proof.
  cbn. split; [done |].
  intros Href.
  destruct (mutators_keep_ref documentId w Href) as (Hc & Hu & Hs & Hd).
  destruct w as [[doc ready ref] tr n]; cbn in Href; subst.
  split_and!; try done.
  - intros def.
    unfold DocumentLocal.createLocalDoc, Document.updateLocalState.
    unfold_monad; cbn. case_vars; try done. by case_outcome.
  - intros def.
    unfold DocumentLocal.updateLocalDoc, Document.updateLocalState.
    unfold_monad; cbn. destruct doc; cbn; [| done].
    case_vars; try done. by case_outcome.
Qed.

(** Before the first snapshot the initial value of the single-document
    hook is displayed but not tracked: [exists] is true and [id] is the
    value's id, yet the ref is empty. So [updateDoc] resolves with the
    not-found failure and makes no remote call, [updateLocalDoc] throws,
    both leaving the world as it was; the transform of [upsertDoc] is handed
    no current document; and a [createDoc] that the remote store refuses
    puts no document back, where the initial value was displayed. *)
Theorem initial_value_is_not_tracked (documentId : string) (initialValue : T)
    (tr : list (Event T Json)) (n : nat) :
  let w := mkWorld (Document.initial (Some initialValue)) tr n in
  DocumentLocal.exists_ (local w) = true /\
  DocumentLocal.id (local w) = Some (doc_id initialValue) /\
  (forall def,
     Document.updateDoc documentId def w =
       (Returns (Fail (JsException (Document.not_found_exception documentId))
                      None (Some "Cannot update: document does not exist")
                      None), w)) /\
  (forall def,
     DocumentLocal.updateLocalDoc documentId def w =
       (Throws (JsException (DocumentLocal.not_found_locally documentId)), w)) /\
  (forall def,
     Document.upsertDoc documentId def w
       = Document.upsertDoc documentId (fun _ vars => def None vars) w) /\
  (forall def w1 vars newDoc error,
     Document.generateAuthVars w = (Returns vars, w1) ->
     def vars = Returns newDoc ->
     Api.error_of (Api.createDoc_calls newDoc documentId false) = Some error ->
     Document.doc (local (state_of (Document.createDoc documentId def w)))
       = None).
Proof.
  cbn. split_and!; try done.
  intros def w1 vars newDoc error Hvars Hdef Herr.
  pose proof (generateAuthVars_returns _ _ _ Hvars) as ->.
  unfold Document.createDoc, Document.updateLocalState, Api.createDoc.
  unfold_monad; cbn. rewrite Hvars; cbn. rewrite Hdef; cbn.
  rewrite api_try_run, Herr. done.
Qed.

End document_hook.

(** ** TurboCollectionService *)

Ltac unfold_collection_service :=
  unfold CollectionService.createDoc, CollectionService.updateDoc,
    CollectionService.upsertDoc, CollectionService.deleteDoc,
    CollectionService.createLocalDoc, CollectionService.updateLocalDoc,
    CollectionService.upsertLocalDoc, CollectionService.deleteLocalDoc,
    CollectionService.findById, CollectionService.tryFindById,
    CollectionService.updateCurrent, CollectionService.catch_fail,
    Api.createDoc, Api.updateDoc, Api.deleteDoc in *.

Section collection_service.
Context {T Json : Type} {writeable : TurboWriteableId T Json} {env : Env T Json}.

(** The four remote mutators of the collection service keep their
    optimistic change whatever the remote store answers. Once the vars are
    built, each applies the change to the mirror, issues the one remote
    write, and resolves with a
    success that carries the document when the write is accepted and with a
    failure result when it is refused; the mirror is the same in both
    cases, there is no rollback. [upsertDoc] writes to the remote store
    under the id it is called with and to the mirror under the id of the
    document the transform returns. *)
Theorem service_mutators_keep_the_change
    (w : World T Json (CollectionService.State T)) :
  let docs := CollectionService._docsById (local w) in
  (forall doc w1 vars pDoc,
     CollectionService.turboVars None w = (Returns vars, w1) ->
     doc vars = Returns pDoc ->
     let r := CollectionService.createDoc doc w in
     sdk_calls (trace (state_of r)) =
       sdk_calls (trace w1)
         ++ Api.attempted (Api.createDoc_calls pDoc (doc_id pDoc) false) /\
     CollectionService._docsById (local (state_of r))
       = <[doc_id pDoc := pDoc]> docs /\
     match Api.error_of (Api.createDoc_calls pDoc (doc_id pDoc) false) with
     | None => outcome_of r = Returns (Success pDoc None None)
     | Some error => outcome_of r = Returns (api_failure error)
     end) /\
  (forall id doc w1 current vars pDoc data,
     docs !! id = Some current ->
     CollectionService.turboVars (Some id) w = (Returns vars, w1) ->
     doc current vars = Returns pDoc ->
     toJson pDoc = Returns data ->
     let r := CollectionService.updateDoc id doc w in
     sdk_calls (trace (state_of r)) =
       sdk_calls (trace w) ++ Api.attempted (Api.updateDoc_calls id data) /\
     CollectionService._docsById (local (state_of r))
       = <[doc_id pDoc := pDoc]> docs /\
     match Api.error_of (Api.updateDoc_calls id data) with
     | None => outcome_of r = Returns (Success pDoc None None)
     | Some error => outcome_of r = Returns (api_failure error)
     end) /\
  (forall id doc w1 vars pDoc,
     CollectionService.turboVars (Some id) w = (Returns vars, w1) ->
     doc (Collection.tryFindById docs id) vars = Returns pDoc ->
     let r := CollectionService.upsertDoc id doc w in
     sdk_calls (trace (state_of r)) =
       sdk_calls (trace w) ++ Api.attempted (Api.createDoc_calls pDoc id true) /\
     CollectionService._docsById (local (state_of r))
       = <[doc_id pDoc := pDoc]> docs /\
     match Api.error_of (Api.createDoc_calls pDoc id true) with
     | None => outcome_of r = Returns (Success pDoc None None)
     | Some error => outcome_of r = Returns (api_failure error)
     end) /\
  (forall id,
     let r := CollectionService.deleteDoc id w in
     sdk_calls (trace (state_of r)) =
       sdk_calls (trace w) ++ Api.attempted (Api.deleteDoc_calls id) /\
     CollectionService._docsById (local (state_of r)) = delete id docs /\
     match Api.error_of (Api.deleteDoc_calls (T:=T) (Json:=Json) id) with
     | None => outcome_of r = Returns (Success tt None None)
     | Some error => outcome_of r = Returns (api_failure error)
     end).
Proof.
  destruct w as [[docs informer resolved loaded loading unsub] tr n]; cbn.
  split_and!.
  - intros doc w1 vars pDoc Hvars Hdoc.
    pose proof (collection_turboVars_returns _ _ _ _ Hvars) as ->.
    unfold_collection_service. unfold_monad; cbn.
    rewrite Hvars; cbn. rewrite Hdoc; cbn. rewrite api_try_run; cbn.
    case_error; by rewrite sdk_calls_app, sdk_calls_map_Call.
  - intros id doc w1 current vars pDoc data Hcur Hvars Hdoc Hjson.
    pose proof (collection_turboVars_returns _ _ _ _ Hvars) as ->.
    unfold_collection_service. unfold_monad; cbn.
    rewrite Hcur; cbn. rewrite Hvars; cbn. rewrite Hdoc; cbn.
    rewrite Hjson; cbn. rewrite api_try_run; cbn.
    case_error; by rewrite sdk_calls_app, sdk_calls_map_Call.
  - intros id doc w1 vars pDoc Hvars Hdoc.
    pose proof (collection_turboVars_returns _ _ _ _ Hvars) as ->.
    unfold_collection_service.
    unfold Collection.tryFindById in Hdoc. unfold_monad; cbn.
    destruct (truthy id); unfold_monad; cbn; rewrite Hvars; cbn;
      rewrite Hdoc; cbn; rewrite api_try_run; cbn;
      case_error; by rewrite sdk_calls_app, sdk_calls_map_Call.
  - intros id. unfold_collection_service. unfold_monad; cbn.
    rewrite api_try_run; cbn.
    case_error; by rewrite sdk_calls_app, sdk_calls_map_Call.
Qed.

(** An identity the mirror of the collection service does not hold. An
    [updateDoc] of it resolves with the failure that wraps the error of
    [findById], makes no remote call and leaves the mirror as it was. A
    [deleteDoc] of it has no guard: the remote delete is issued all the
    same, the mirror stays as it was, and the call resolves with what the
    remote store answers. *)
Theorem service_missing_identity
    (w : World T Json (CollectionService.State T)) (id : string) :
  CollectionService._docsById (local w) !! id = None ->
  (forall doc,
     CollectionService.updateDoc id doc w =
       (Returns (Fail (CollectionLocal.not_in_collection id) None None None),
        w)) /\
  (let r := CollectionService.deleteDoc id w in
   sdk_calls (trace (state_of r)) =
     sdk_calls (trace w) ++ Api.attempted (Api.deleteDoc_calls id) /\
   local (state_of r) = local w /\
   match Api.error_of (Api.deleteDoc_calls (T:=T) (Json:=Json) id) with
   | None => outcome_of r = Returns (Success tt None None)
   | Some error => outcome_of r = Returns (api_failure error)
   end).
Proof.
  destruct w as [[docs informer resolved loaded loading unsub] tr n]; cbn.
  intros Habsent. split.
  - intros doc. unfold_collection_service. unfold_monad; cbn.
    by rewrite Habsent.
  - unfold_collection_service. unfold_monad; cbn.
    rewrite api_try_run; cbn.
    unfold CollectionService.set_docsById; cbn. rewrite (delete_id _ _ Habsent).
    case_error; by rewrite sdk_calls_app, sdk_calls_map_Call.
Qed.

End collection_service.

(** ** Batches of the collection service *)

Section collection_service_batches.
Context {T Json : Type} {writeable : TurboWriteableId T Json} {env : Env T Json}.

Lemma error_of_app (calls1 calls2 : list (SdkCall T Json)) :
  Api.error_of (calls1 ++ calls2) =
    match Api.error_of calls1 with
    | Some error => Some error
    | None => Api.error_of calls2
    end.
Proof.
  induction calls1 as [|c calls1 IH]; cbn; [done |].
  by destruct (sdk_error c).
Qed.

Lemma attempted_app (calls1 calls2 : list (SdkCall T Json)) :
  Api.attempted (calls1 ++ calls2) =
    match Api.error_of calls1 with
    | Some _ => Api.attempted calls1
    | None => calls1 ++ Api.attempted calls2
    end.
Proof.
  induction calls1 as [|c calls1 IH]; cbn; [done |].
  destruct (sdk_error c); [done |]. rewrite IH.
  by destruct (Api.error_of calls1).
Qed.

(** Staging a batch: the calls of the elements are made in order up to the
    first that throws, whose failure ends the loop. *)
Lemma stage_run {A B : Type} (calls_of : A -> list (SdkCall T Json))
    (xs : list A) (w : World T Json (CollectionService.State T)) :
  CollectionService.stage (B:=B) (fun x => Api.api_try (calls_of x)) xs w =
    (Returns (match Api.error_of (flat_map calls_of xs) with
              | Some error => Some (api_failure error)
              | None => None
              end),
     mkWorld (local w)
       (trace w ++ map Call (Api.attempted (flat_map calls_of xs)))
       (next_handle w)).
Proof.
  revert w. induction xs as [|x xs IH]; intros w; cbn.
  - unfold_monad. by rewrite app_nil_r, world_eta.
  - unfold bind at 1. rewrite api_try_run.
    rewrite error_of_app, attempted_app.
    destruct (Api.error_of (calls_of x)) as [error|] eqn:Hx; cbn; [done |].
    rewrite IH; cbn. rewrite map_app, app_assoc, (attempted_all _ Hx).
    by destruct (Api.error_of (flat_map calls_of xs)).
Qed.

(** The mirror after a run of local deletes. *)
Lemma mapM_deleteLocalDoc (ids : list string)
    (w : World T Json (CollectionService.State T)) :
  mapM CollectionService.deleteLocalDoc ids w =
    (Returns (map (fun _ => tt) ids),
     mkWorld
       (CollectionService.set_docsById (Collection.delete_all ids) (local w))
       (trace w) (next_handle w)).
Proof.
  revert w. induction ids as [|id ids IH]; intros [s tr n].
  - by destruct s.
  - cbn [mapM]. unfold bind at 1.
    unfold CollectionService.deleteLocalDoc at 1,
      CollectionService.updateCurrent, Api.update_local, modify; cbn.
    unfold bind at 1. rewrite IH. by destruct s.
Qed.

Lemma deleteLocalDocs_run (ids : list string)
    (w : World T Json (CollectionService.State T)) :
  CollectionService.deleteLocalDocs ids w =
    (Returns tt,
     mkWorld
       (CollectionService.set_docsById (Collection.delete_all ids) (local w))
       (trace w) (next_handle w)).
Proof.
  unfold CollectionService.deleteLocalDocs, bind.
  by rewrite mapM_deleteLocalDoc.
Qed.

Lemma deleteDocs_run (ids : list string)
    (w : World T Json (CollectionService.State T)) :
  let staged := flat_map (fun id => [DocRef id; BatchDelete id]) ids in
  CollectionService.deleteDocs ids w =
    (Returns (match Api.error_of staged with
              | Some error => api_failure error
              | None => committed tt
              end),
     mkWorld
       (CollectionService.set_docsById (Collection.delete_all ids) (local w))
       (trace w ++ map Call (Api.attempted (staged ++ [BatchCommit])))
       (next_handle w)).
Proof.
  cbn zeta.
  unfold CollectionService.deleteDocs, CollectionService.commit,
    CollectionService.catch_fail, committed, Api.deleteDocInBatch.
  unfold try_catch, bind at 1. rewrite deleteLocalDocs_run.
  unfold bind at 1.
  rewrite (stage_run (fun id => [DocRef id; BatchDelete id])).
  rewrite attempted_app.
  destruct (Api.error_of (flat_map _ ids)) as [error|] eqn:Hstaged; cbn;
    [done |].
  unfold_monad; cbn. rewrite (attempted_all _ Hstaged).
  destruct (sdk_error BatchCommit) as [error|]; cbn;
    by rewrite map_app, app_assoc.
Qed.

Lemma upsertDocs_run (ids : list string) (doc : UpsertDocDef T)
    (w w1 : World T Json (CollectionService.State T)) (pDocs : list T) :
  CollectionService.upsertLocalDocs ids doc w = (Returns pDocs, w1) ->
  let staged :=
    flat_map (fun pDoc => [DocRef (doc_id pDoc);
                           BatchSet (doc_id pDoc) pDoc true]) pDocs in
  CollectionService.upsertDocs ids doc w =
    (Returns (match Api.error_of staged with
              | Some error => api_failure error
              | None => committed pDocs
              end),
     mkWorld (local w1)
       (trace w1 ++ map Call (Api.attempted (staged ++ [BatchCommit])))
       (next_handle w1)).
Proof.
  intros Hlocal. cbn zeta.
  unfold CollectionService.upsertDocs, CollectionService.commit,
    CollectionService.catch_fail, committed, Api.createDocInBatch.
  unfold try_catch, bind at 1. rewrite Hlocal.
  unfold bind at 1.
  rewrite (stage_run (fun pDoc => [DocRef (doc_id pDoc);
                                   BatchSet (doc_id pDoc) pDoc true])).
  rewrite attempted_app.
  destruct (Api.error_of (flat_map _ pDocs)) as [error|] eqn:Hstaged; cbn;
    [done |].
  unfold_monad; cbn. rewrite (attempted_all _ Hstaged).
  destruct (sdk_error BatchCommit) as [error|]; cbn;
    by rewrite map_app, app_assoc.
Qed.

Lemma upsertLocalDocs_stays_local (ids : list string) (doc : UpsertDocDef T)
    (w : World T Json (CollectionService.State T)) :
  stays_local w (state_of (CollectionService.upsertLocalDocs ids doc w)).
Proof.
  unfold CollectionService.upsertLocalDocs.
  apply stays_local_mapM. intros id w0.
  apply service_upsertLocalDoc_stays_local.
Qed.

(** A batch of the collection service. [deleteDocs] first removes every id
    from the mirror, then stages one delete per id, in order, and stops
    staging at the first that throws; it commits only when every delete
    was staged. It resolves with a success after the commit, with the
    failure of the staging call that threw, or with a failure that wraps
    what the commit threw. In all three cases the mirror is left without
    the ids: there is no rollback. [upsertDocs] does the same with the
    documents its local upserts returned, staged as merging writes under
    their own ids; when a transform throws it resolves with a failure that
    wraps the thrown value, makes no remote call, and the local upserts
    made before stay. *)
Theorem service_batch_is_staged_then_committed
    (w : World T Json (CollectionService.State T)) :
  (forall ids,
     let calls :=
       flat_map (fun id => [DocRef id; BatchDelete id]) ids ++ [BatchCommit] in
     let r := CollectionService.deleteDocs ids w in
     sdk_calls (trace (state_of r)) = sdk_calls (trace w) ++ Api.attempted calls /\
     CollectionService._docsById (local (state_of r))
       = Collection.delete_all ids (CollectionService._docsById (local w)) /\
     outcome_of r =
       Returns
         (match Api.error_of
                  (flat_map (fun id => [DocRef id; BatchDelete id]) ids) with
          | Some error => api_failure error
          | None =>
              match sdk_error BatchCommit with
              | Some error => Fail (JsFirestoreError error) None None None
              | None => Success tt None None
              end
          end)) /\
  (forall ids doc pDocs w1,
     CollectionService.upsertLocalDocs ids doc w = (Returns pDocs, w1) ->
     let staged :=
       flat_map (fun pDoc => [DocRef (doc_id pDoc);
                              BatchSet (doc_id pDoc) pDoc true]) pDocs in
     let r := CollectionService.upsertDocs ids doc w in
     sdk_calls (trace (state_of r))
       = sdk_calls (trace w) ++ Api.attempted (staged ++ [BatchCommit]) /\
     local (state_of r) = local w1 /\
     outcome_of r =
       Returns
         (match Api.error_of staged with
          | Some error => api_failure error
          | None =>
              match sdk_error BatchCommit with
              | Some error => Fail (JsFirestoreError error) None None None
              | None => Success pDocs None None
              end
          end)) /\
  (forall ids doc error w1,
     CollectionService.upsertLocalDocs ids doc w = (Throws error, w1) ->
     CollectionService.upsertDocs ids doc w
       = (Returns (Fail error None None None), w1) /\
     trace w1 = trace w).
Proof.
  split_and!.
  - intros ids. cbn zeta. rewrite deleteDocs_run. cbn.
    split_and!; [by rewrite sdk_calls_app, sdk_calls_map_Call | done |].
    unfold committed. by destruct (Api.error_of _).
  - intros ids doc pDocs w1 Hlocal. cbn zeta.
    rewrite (upsertDocs_run _ _ _ _ _ Hlocal). cbn.
    pose proof (upsertLocalDocs_stays_local ids doc w) as [Htrace _].
    rewrite Hlocal in Htrace; cbn in Htrace. rewrite Htrace.
    split_and!; [by rewrite sdk_calls_app, sdk_calls_map_Call | done |].
    unfold committed. by destruct (Api.error_of _).
  - intros ids doc error w1 Hlocal. split.
    + unfold CollectionService.upsertDocs, CollectionService.catch_fail.
      unfold try_catch, bind at 1. by rewrite Hlocal.
    + pose proof (upsertLocalDocs_stays_local ids doc w) as [Htrace _].
      by rewrite Hlocal in Htrace.
Qed.

End collection_service_batches.

(** ** Lists of local updates, reads and listeners of the services *)

Lemma mapM_app {S A B : Type} (f : A -> M S B) (l1 l2 : list A) (s : S) :
  mapM f (l1 ++ l2) s =
    match mapM f l1 s with
    | (Returns bs, s1) =>
        match mapM f l2 s1 with
        | (Returns cs, s2) => (Returns (bs ++ cs), s2)
        | (Throws e, s2) => (Throws e, s2)
        end
    | (Throws e, s1) => (Throws e, s1)
    end.
Proof.
  revert s. induction l1 as [|a l1 IH]; intros s; cbn [mapM app].
  - unfold ret. by destruct (mapM f l2 s) as [[cs | e] s2].
  - unfold bind, ret. destruct (f a s) as [[b | e] s0]; [| done].
    rewrite IH.
    destruct (mapM f l1 s0) as [[bs | e] s1]; [| done].
    by destruct (mapM f l2 s1) as [[cs | e] s2].
Qed.

Section collection_service_lists.
Context {T Json : Type} {writeable : TurboWriteableId T Json} {env : Env T Json}.

(** A list of updates of the collection service is not atomic. When the
    local updates of the first ids of the list went through and the next id
    is not in the mirror they left, [updateLocalDocs] throws the error of
    [findById] and [updateDocs] resolves with a failure that wraps it; both
    leave the mirror with the updates made so far, and no remote call is
    made. *)
Theorem service_updates_are_not_atomic
    (w w1 : World T Json (CollectionService.State T))
    (before after : list string) (id : string) (doc : UpdateDocDef T)
    (pDocs : list T) :
  CollectionService.updateLocalDocs before doc w = (Returns pDocs, w1) ->
  CollectionService._docsById (local w1) !! id = None ->
  CollectionService.updateLocalDocs (before ++ id :: after) doc w
    = (Throws (CollectionLocal.not_in_collection id), w1) /\
  CollectionService.updateDocs (before ++ id :: after) doc w
    = (Returns (Fail (CollectionLocal.not_in_collection id) None None None),
       w1) /\
  trace w1 = trace w.
Proof.
  intros Hbefore Habsent.
  assert (Hthrow :
    CollectionService.updateLocalDocs (before ++ id :: after) doc w
      = (Throws (CollectionLocal.not_in_collection id), w1)).
  { unfold CollectionService.updateLocalDocs in *.
    rewrite mapM_app, Hbefore. cbn [mapM]. unfold bind at 1.
    unfold CollectionService.updateLocalDoc at 1, CollectionService.findById.
    destruct w1 as [s1 tr1 n1]; cbn in Habsent.
    unfold_monad; cbn. by rewrite Habsent. }
  split_and!; [done | |].
  - unfold CollectionService.updateDocs, CollectionService.catch_fail.
    unfold try_catch, bind at 1. by rewrite Hthrow.
  - pose proof (stays_local_mapM
      (fun id => CollectionService.updateLocalDoc id doc) before
      (fun id w0 => service_updateLocalDoc_stays_local id doc w0) w)
      as [Htrace _].
    unfold CollectionService.updateLocalDocs in Hbefore.
    by rewrite Hbefore in Htrace.
Qed.

(** [fetchById] reads through the mirror. A document the mirror holds is
    returned without a remote call. Otherwise the remote store is read
    once; the call resolves with the document when the read succeeds and
    the document exists, and with no document when it does not exist or the
    read fails. In every case the mirror is left as it was: a fetched
    document is not stored. *)
Theorem fetchById_reads_through (snapshot_data : string -> T)
    (w : World T Json (CollectionService.State T)) (id : string) :
  let r := CollectionService.fetchById snapshot_data id w in
  local (state_of r) = local w /\
  match CollectionService._docsById (local w) !! id with
  | Some cached => r = (Returns (Some cached), w)
  | None =>
      sdk_calls (trace (state_of r))
        = sdk_calls (trace w) ++ Api.attempted [DocRef id; GetDoc id] /\
      outcome_of r =
        Returns (match Api.error_of [DocRef id; GetDoc id] with
                 | Some _ => None
                 | None =>
                     if snapshot_exists id then Some (snapshot_data id)
                     else None
                 end)
  end.
Proof.
  destruct w as [[docs informer resolved loaded loading unsub] tr n].
  unfold CollectionService.fetchById, CollectionService.getByIdWithConverter.
  unfold_monad; cbn.
  destruct (docs !! id) as [cached|]; cbn; [done |].
  destruct (sdk_error (DocRef id)); cbn;
    [by rewrite sdk_calls_app |].
  destruct (sdk_error (GetDoc id)); cbn;
    [by rewrite <- app_assoc, sdk_calls_app |].
  destruct (snapshot_exists id); cbn; by rewrite <- app_assoc, sdk_calls_app.
Qed.

(** The services own at most one listener. When [_unsubscribe] of the
    collection service holds the one listener that is live, if any, it
    still does after [stream], [streamByQuery], [stopStream] and
    [dispose], whether building the stream throws or not. A stream that
    starts leaves exactly the new listener live, the previous one having
    been released first; [stopStream] and [dispose] leave none, and
    [dispose] resolves the ready promise. The same holds for [dispose] of
    the document service. *)
Theorem services_own_one_listener :
  (forall (w : World T Json (CollectionService.State T)),
     collection_service_tracked w ->
     (forall throws,
        collection_service_tracked
          (state_of (CollectionService.stream throws w)) /\
        collection_service_tracked
          (state_of (CollectionService.streamByQuery throws w))) /\
     (let w' := state_of (CollectionService.stream None w) in
      trace w' = trace w
                   ++ unsubscribes (CollectionService._unsubscribe (local w))
                   ++ [Listening (next_handle w)] /\
      live_listeners (trace w') [] = [next_handle w] /\
      CollectionService._unsubscribe (local w') = Some (next_handle w)) /\
     (let w' := state_of (CollectionService.stopStream w) in
      live_listeners (trace w') [] = [] /\
      CollectionService._unsubscribe (local w') = None) /\
     (let w' := state_of (CollectionService.dispose w) in
      live_listeners (trace w') [] = [] /\
      CollectionService._unsubscribe (local w') = None /\
      CollectionService._isReadyResolved (local w') = true)) /\
  (forall (w : World T Json (DocumentService.State T)),
     service_tracked w ->
     let w' := state_of (DocumentServiceLife.dispose w) in
     live_listeners (trace w') [] = [] /\
     DocumentService._unsubscribe (local w') = None /\
     DocumentService._isReadyResolved (local w') = true).
Proof.
  split.
  - intros [[docs informer resolved loaded loading unsub] tr n].
    unfold collection_service_tracked; cbn. intros Hlive.
    unfold CollectionService.stream, CollectionService.streamByQuery,
      CollectionService.dispose, CollectionService._markReady,
      CollectionService.stopStream, CollectionService.listen.
    split_and!.
    + intros [error|]; destruct unsub as [h|]; unfold_monad; cbn;
        rewrite ?live_listeners_app, Hlive; cbn;
        by rewrite ?remove_singleton, ?remove_nil.
    + destruct unsub as [h|]; unfold_monad; cbn; by rewrite <- ?app_assoc.
    + destruct unsub as [h|]; unfold_monad; cbn;
        rewrite ?live_listeners_app, Hlive; cbn;
        by rewrite ?remove_singleton, ?remove_nil.
    + destruct unsub as [h|]; unfold_monad; cbn; done.
    + destruct unsub as [h|]; unfold_monad; cbn;
        rewrite ?live_listeners_app, Hlive; cbn;
        by rewrite ?remove_singleton, ?remove_nil.
    + destruct unsub as [h|]; unfold_monad; cbn; done.
    + destruct unsub as [h|], resolved; unfold_monad; cbn;
        rewrite ?live_listeners_app, Hlive; cbn;
        by rewrite ?remove_singleton, ?remove_nil.
    + destruct unsub as [h|], resolved; unfold_monad; cbn; done.
    + destruct unsub as [h|], resolved; unfold_monad; cbn; done.
  - intros [[doc unsub resolved] tr n].
    unfold service_tracked; cbn. intros Hlive.
    unfold DocumentServiceLife.dispose, DocumentServiceLife._markReady,
      DocumentService.stopStream.
    destruct unsub as [h|], resolved; unfold_monad; cbn;
      rewrite ?live_listeners_app, Hlive; cbn;
      by rewrite ?remove_singleton, ?remove_nil.
Qed.

End collection_service_lists.

(** ** The life cycle of the supervisors *)

Section useAuthSync_life.
Context {V : Type} (options : AuthSync.Options).

(** Unmounting [useAuthSync] is final. The cleanup of the effect releases
    the stream and clears the retry timer the hook holds, so that, for a
    hook that holds every live stream and pending timer, none is left; and
    from then on every callback of the hook returns at once: a report of
    the authentication state, a stream setup, a stream error, a sign-out, a
    reset and the retry leave the state as it is and call nothing. *)
Theorem unmounted_hook_is_inert (w : SupWorld V AuthSync.State) :
  sync_tracked w ->
  let w' := state_of (AuthSync.unmount w) in
  AuthSync.isMountedRef (sup w') = false /\
  live_streams w' = [] /\
  pending_timers w' = [] /\
  events w' =
    events w ++ stops (AuthSync.streamUnsubscribeRef (sup w))
             ++ clears (AuthSync.retryTimeoutRef (sup w)) /\
  (forall user env,
     AuthSync.onAuthStateChanged options user env w' = (Returns tt, w')) /\
  (forall user env, AuthSync.setupStream options user env w' = (Returns tt, w')) /\
  (forall error, AuthSync.handleStreamError options error w' = (Returns tt, w')) /\
  AuthSync.handleSignOut options w' = (Returns tt, w') /\
  (forall env, AuthSync.resetAndReinitialize options env w' = (Returns tt, w')) /\
  (forall env, AuthSync.retry options env w' = (Returns tt, w')).
Proof.
  destruct w as
    [[ready cached retrying count sref tref cur mounted] evs n live pend].
  intros [Hlive Hpend]; cbn in Hlive, Hpend.
  apply remove_held_held_in in Hlive, Hpend.
  unfold AuthSync.unmount, AuthSync.resetAndReinitialize, AuthSync.setupStream,
    AuthSync.setupStream_begin, AuthSync.setupStream_resume.
  unfold_sync; unfold_sup; unfold_monad.
  destruct sref as [h|], tref as [t|]; cbn in *; rewrite ?Hlive, ?Hpend;
    split_and!; try done; by rewrite <- ?app_assoc, ?app_nil_r.
Qed.

Lemma setupStream_success (w : SupWorld V AuthSync.State) (user : User)
    (env : Setup) :
  AuthSync.isMountedRef (sup w) = true ->
  sync_tracked w ->
  AuthSync.setup_fails options env = false ->
  sync_streaming (fresh w) (state_of (AuthSync.setupStream options user env w)).
Proof.
  destruct w as
    [[ready cached retrying count sref tref cur mounted] evs n live pend].
  cbn. intros -> [Hlive Hpend] Hok; cbn in Hlive, Hpend.
  apply remove_held_held_in in Hlive as Hlive', Hpend as Hpend'.
  unfold AuthSync.setup_fails in Hok.
  apply orb_false_elim in Hok as [Hauth Hstream].
  apply bool_decide_eq_false in Hstream.
  destruct (stream_throws env) eqn:Hs; [by destruct Hstream |].
  unfold sync_streaming, AuthSync.setupStream, AuthSync.setupStream_begin,
    AuthSync.setupStream_resume.
  unfold_sync; unfold_sup; unfold_monad.
  destruct (AuthSync.has_onAuth options); cbn in *.
  - apply bool_decide_eq_false in Hauth.
    destruct (onAuth_throws env) eqn:Ha; [by destruct Hauth |].
    destruct sref as [h|], tref as [t|]; cbn in *; rewrite ?Hs; cbn;
      rewrite ?Hlive', ?Hpend'; by split_and!.
  - destruct sref as [h|], tref as [t|]; cbn in *; rewrite ?Hs; cbn;
      rewrite ?Hlive', ?Hpend'; by split_and!.
Qed.

(** A stream setup that succeeds gives [useAuthSync] its whole retry
    budget back. For a mounted hook that holds every live stream and
    pending timer, a [setupStream] in which neither [onAuth] nor [stream]
    throws leaves the hook streaming: ready, retry count 0, not retrying,
    no timer held or pending, and exactly one stream live, the new one.
    This is so when the setup is run by the retry timer after earlier
    failures, and when [resetAndReinitialize] runs it for the signed-in
    user, a hook that spent its budget included; without a signed-in user
    [resetAndReinitialize] releases what is held, sets the count to 0 and
    starts nothing. *)
Theorem successful_setup_restores_the_budget (w : SupWorld V AuthSync.State)
    (env : Setup) :
  AuthSync.isMountedRef (sup w) = true ->
  sync_tracked w ->
  AuthSync.setup_fails options env = false ->
  (forall user,
     sync_streaming (fresh w)
       (state_of (AuthSync.setupStream options user env w))) /\
  (forall user,
     AuthSync.currentUserRef (sup w) = Some user ->
     is_Some (AuthSync.retryTimeoutRef (sup w)) ->
     sync_streaming (fresh w) (state_of (AuthSync.retry options env w))) /\
  (forall user,
     AuthSync.currentUserRef (sup w) = Some user ->
     sync_streaming (fresh w)
       (state_of (AuthSync.resetAndReinitialize options env w))) /\
  (AuthSync.currentUserRef (sup w) = None ->
   let w' := state_of (AuthSync.resetAndReinitialize options env w) in
   AuthSync.retryCount (sup w') = 0%Z /\
   AuthSync.isRetrying (sup w') = false /\
   live_streams w' = [] /\
   pending_timers w' = [] /\
   events w' =
     events w ++ stops (AuthSync.streamUnsubscribeRef (sup w))
              ++ clears (AuthSync.retryTimeoutRef (sup w))).
Proof.
  intros Hmounted Htracked Hok. split_and!.
  - intros user. by apply setupStream_success.
  - destruct w as
      [[ready cached retrying count sref tref cur mounted] evs n live pend].
    cbn in Hmounted. subst mounted.
    destruct Htracked as [Hlive Hpend]; cbn in Hlive, Hpend.
    intros user Huser [t Ht]; cbn in Huser, Ht; subst.
    unfold AuthSync.retry, AuthSync.onRetryTimeout.
    unfold_sup; unfold_monad; cbn.
    rewrite (remove_held_in _ _ Hpend).
    apply (setupStream_success
             (mkSupWorld
                (AuthSync.mkState ready cached retrying count sref (Some t)
                   (Some user) true) (evs ++ [TimerFired t]) n live []));
      [done | | done].
    split; [done | apply held_in_nil].
  - destruct w as
      [[ready cached retrying count sref tref cur mounted] evs n live pend].
    cbn in Hmounted. subst mounted.
    destruct Htracked as [Hlive Hpend]; cbn in Hlive, Hpend.
    apply remove_held_held_in in Hlive as Hlive', Hpend as Hpend'.
    intros user Huser; cbn in Huser; subst.
    unfold AuthSync.resetAndReinitialize, AuthSync.cleanupStream.
    unfold_sup; unfold_monad.
    destruct sref as [h|], tref as [t|]; cbn in *; rewrite ?Hlive', ?Hpend';
      match goal with
      | |- context [AuthSync.setupStream _ _ _ ?w1] =>
          apply (setupStream_success w1); [done | | done];
          split; apply held_in_nil
      end.
  - destruct w as
      [[ready cached retrying count sref tref cur mounted] evs n live pend].
    cbn in Hmounted. subst mounted.
    destruct Htracked as [Hlive Hpend]; cbn in Hlive, Hpend.
    apply remove_held_held_in in Hlive as Hlive', Hpend as Hpend'.
    intros Huser; cbn in Huser; subst.
    unfold AuthSync.resetAndReinitialize, AuthSync.cleanupStream.
    unfold_sup; unfold_monad.
    destruct sref as [h|], tref as [t|]; cbn in *; rewrite ?Hlive', ?Hpend';
      split_and!; try done; by rewrite <- ?app_assoc, ?app_nil_r.
Qed.

(** [useAuthSync] holds its stream and its timer as long as its stream
    setups do not overlap. When [streamUnsubscribeRef] holds every live
    stream and [retryTimeoutRef] every pending timer, this still holds after
    every callback of the hook that runs to its end before the next one
    starts, whatever the caller's code does: a report of the authentication
    state (user or none), the retry timer, [resetAndReinitialize] and the
    unmount cleanup; and after two calls of [setupStream] in a row when no
    [onAuth] is given. With an [onAuth] a second setup that starts while
    the first waits for [onAuth] breaks this: the stream was released
    before the wait and nothing is checked after it, so both setups start
    a stream; two streams are live, the hook holds the second only, and
    the unmount cleanup leaves the first one live. *)
Theorem setups_keep_track_unless_overlapping (w : SupWorld V AuthSync.State) :
  sync_tracked w ->
  ((forall user env,
      sync_tracked
        (state_of (AuthSync.onAuthStateChanged options user env w))) /\
   (forall env, sync_tracked (state_of (AuthSync.retry options env w))) /\
   (forall env,
      sync_tracked (state_of (AuthSync.resetAndReinitialize options env w))) /\
   sync_tracked (state_of (AuthSync.unmount w))) /\
  (forall user1 env1 user2 env2,
     AuthSync.has_onAuth options = false ->
     sync_tracked
       (state_of
          (AuthSync.overlapping_setups options user1 env1 user2 env2 w))) /\
  (forall user1 env1 user2 env2,
     AuthSync.has_onAuth options = true ->
     AuthSync.isMountedRef (sup w) = true ->
     onAuth_throws env1 = None -> stream_throws env1 = None ->
     onAuth_throws env2 = None -> stream_throws env2 = None ->
     let w' :=
       state_of
         (AuthSync.overlapping_setups options user1 env1 user2 env2 w) in
     live_streams w' = [fresh w; S (fresh w)] /\
     AuthSync.streamUnsubscribeRef (sup w') = Some (S (fresh w)) /\
     ~ sync_tracked w' /\
     live_streams (state_of (AuthSync.unmount w')) = [fresh w]).
Proof.
  intros Htracked. split; [| split].
  - by apply callbacks_keep_track.
  - intros user1 env1 user2 env2 Hgiven.
    unfold AuthSync.overlapping_setups. rewrite Hgiven.
    unfold bind at 1.
    pose proof (setupStream_keeps_track options user1 env1 w Htracked)
      as Hfirst.
    destruct (AuthSync.setupStream options user1 env1 w) as [[[]|e] w1];
      cbn in *; [| done].
    by apply setupStream_keeps_track.
  - intros user1 env1 user2 env2 Hgiven Hmounted Hauth1 Hstream1 Hauth2
      Hstream2.
    destruct w as
      [[ready cached retrying count sref tref cur mounted] evs n live pend].
    cbn in Hmounted. subst mounted.
    destruct Htracked as [Hlive Hpend]; cbn in Hlive, Hpend.
    apply remove_held_held_in in Hlive as Hlive', Hpend as Hpend'.
    unfold AuthSync.unmount.
    unfold_sync; unfold_sup; unfold_monad.
    rewrite Hgiven, Hauth1, Hstream1, Hauth2, Hstream2.
    destruct sref as [h|], tref as [t|]; cbn in *; rewrite ?Hlive', ?Hpend';
      cbn; rewrite ?remove_second;
      (split_and!;
       [done | done | intros [Hheld _]; by apply two_handles_not_held in Hheld
       | done]).
Qed.

End useAuthSync_life.

Section FirebaseAuthService_life.
Context {V : Type}.

(** [dispose] of [FirebaseAuthService] releases what the service holds and
    gives it its whole retry budget back: the authentication listener and
    the data stream it holds are stopped, the retry timer it holds is
    cleared, and the retry count is 0. The service can be started again:
    a [tryInitialiseStream] after it listens to the authentication state
    anew, and a stream error after it schedules a retry. *)
Theorem dispose_releases_and_restores (w : SupWorld V AuthService.State) :
  let w' := state_of (AuthService.dispose w) in
  AuthService._userSubscription (sup w') = None /\
  AuthService._subscription (sup w') = None /\
  AuthService._retryTimer (sup w') = None /\
  AuthService._nrOfRetry (sup w') = 0%Z /\
  live_streams w'
    = remove_held (AuthService._subscription (sup w)) (live_streams w) /\
  pending_timers w'
    = remove_held (AuthService._retryTimer (sup w)) (pending_timers w) /\
  events w' =
    events w ++ auth_stops (AuthService._userSubscription (sup w))
             ++ stops (AuthService._subscription (sup w))
             ++ clears (AuthService._retryTimer (sup w)) /\
  (let w2 := state_of (AuthService.tryInitialiseStream None w') in
   AuthService._userSubscription (sup w2) = Some (fresh w) /\
   events w2 = events w' ++ [AuthListening (fresh w)]) /\
  (forall error,
     let w2 := state_of (AuthService.onStreamError error w') in
     AuthService._retryTimer (sup w2) = Some (fresh w) /\
     pending_timers w2 = pending_timers w' ++ [fresh w] /\
     events w2 = events w' ++ [OnError (AuthService.as_exception error);
                               TimerSet (fresh w) 10000]).
Proof.
  destruct w as [[cached sub auth timer nr] evs n live pend].
  unfold AuthService.dispose.
  unfold_auth_service; unfold_sup; unfold_monad.
  destruct auth as [a|], sub as [h|], timer as [t|]; cbn;
    split_and!; try done; try (intros error; split_and!);
    by rewrite <- ?app_assoc, ?app_nil_r.
Qed.

(** [resetAndTryInitialiseStream] of [FirebaseAuthService] releases the
    authentication listener and the data stream the service holds and
    listens to the authentication state anew. The retry count, the retry
    timer and the cached user id are left as they are. *)
Theorem reset_listens_anew (w : SupWorld V AuthService.State) :
  let w' := state_of (AuthService.resetAndTryInitialiseStream None w) in
  AuthService._userSubscription (sup w') = Some (fresh w) /\
  AuthService._subscription (sup w') = None /\
  live_streams w'
    = remove_held (AuthService._subscription (sup w)) (live_streams w) /\
  events w' =
    events w ++ auth_stops (AuthService._userSubscription (sup w))
             ++ stops (AuthService._subscription (sup w))
             ++ [AuthListening (fresh w)] /\
  AuthService._nrOfRetry (sup w') = AuthService._nrOfRetry (sup w) /\
  AuthService._retryTimer (sup w') = AuthService._retryTimer (sup w) /\
  pending_timers w' = pending_timers w /\
  AuthService.cachedUserId (sup w') = AuthService.cachedUserId (sup w).
Proof.
  destruct w as [[cached sub auth timer nr] evs n live pend].
  unfold AuthService.resetAndTryInitialiseStream.
  unfold_auth_service; unfold_sup; unfold_monad.
  destruct auth as [a|], sub as [h|]; cbn;
    split_and!; try done; by rewrite <- ?app_assoc, ?app_nil_r.
Qed.

(** A retry of [FirebaseAuthService] whose re-initialisation throws loses
    the handle of the timer it schedules. When the retry timer fires and
    [onAuthStateChanged] throws while retries are left, the [catch] block
    schedules the next retry, and the timer callback then sets
    [_retryTimer] to [null]: the new timer is pending but no longer held.
    A [dispose] after that clears no timer and leaves it pending. *)
Theorem failed_retry_loses_its_timer (w : SupWorld V AuthService.State)
    (t : nat) (error : AuthService.StreamError) :
  (AuthService._nrOfRetry (sup w) + 1 < AuthService._maxNrOfRetry)%Z ->
  let w1 := state_of (AuthService.onRetryTimeout t (Some error) w) in
  AuthService._nrOfRetry (sup w1) = (AuthService._nrOfRetry (sup w) + 1)%Z /\
  AuthService._retryTimer (sup w1) = None /\
  fresh w ∈ pending_timers w1 /\
  last (events w1) = Some (TimerSet (fresh w) 10000) /\
  let w2 := state_of (AuthService.dispose w1) in
  pending_timers w2 = pending_timers w1 /\
  events w2 = events w1.
Proof.
  destruct w as [[cached sub auth timer nr] evs n live pend]; cbn.
  intros Hleft. apply Z.ltb_lt in Hleft.
  unfold AuthService.dispose.
  unfold_auth_service; unfold_sup; unfold_monad.
  destruct auth as [a|], sub as [h|], timer as [t'|]; cbn;
    rewrite Hleft; cbn;
    (split_and!;
     [ done | done | set_solver
     | by rewrite ?app_assoc, last_snoc | done | done ]).
Qed.

(** When [_subscription] holds every data stream that is live, it still
    does after each operation of the service that runs to its end before
    the next one starts, whatever the caller's code does: starting to
    listen, a report of the authentication state (a user or none, with
    [onAuth] or [stream] throwing or not), a value or an error from the
    stream, the retry timer, a reset and a dispose. *)
Lemma operations_keep_stream_held (has_onAuth : bool)
    (w : SupWorld V AuthService.State) :
  stream_held w ->
  (forall throws, stream_held (state_of (AuthService.tryInitialiseStream throws w))) /\
  (forall user env,
     stream_held (state_of (AuthService.onAuthStateChanged has_onAuth user env w))) /\
  (forall value user, stream_held (state_of (AuthService.onValue value user w))) /\
  (forall error, stream_held (state_of (AuthService.onStreamError error w))) /\
  (forall t throws,
     stream_held (state_of (AuthService.onRetryTimeout t throws w))) /\
  (forall throws,
     stream_held (state_of (AuthService.resetAndTryInitialiseStream throws w))) /\
  stream_held (state_of (AuthService.dispose w)).
Proof.
  destruct w as [[cached sub auth timer nr] evs n live pend].
  unfold stream_held; cbn. intros Hheld.
  apply remove_held_held_in in Hheld as Hlive.
  unfold AuthService.dispose, AuthService.resetAndTryInitialiseStream,
    AuthService.onValue.
  unfold_auth_service; unfold_sup; unfold_monad.
  split_and!.
  - intros [error|]; destruct auth as [a|]; cbn; try done;
      destruct (nr <? AuthService._maxNrOfRetry)%Z; cbn;
      destruct timer as [t|], sub as [h|]; cbn in *; rewrite ?Hlive;
      first [done | apply held_in_nil].
  - intros [user|] env.
    + destruct has_onAuth; cbn;
        destruct (onAuth_throws env), (stream_throws env), sub as [h|];
        cbn in *; subst; first [done | apply held_in_singleton | idtac].
    + destruct sub as [h|]; cbn in *; rewrite ?Hlive; apply held_in_nil.
  - done.
  - intros error.
    destruct (nr <? AuthService._maxNrOfRetry)%Z; cbn;
      destruct auth as [a|], timer as [t|], sub as [h|]; cbn in *;
      rewrite ?Hlive; first [done | apply held_in_nil].
  - intros t [error|];
      destruct auth as [a|], sub as [h|]; cbn in *; rewrite ?Hlive;
      try apply held_in_nil;
      destruct (nr + 1 <? AuthService._maxNrOfRetry)%Z; cbn;
      destruct timer as [t'|]; cbn; apply held_in_nil.
  - intros [error|];
      destruct auth as [a|], sub as [h|]; cbn in *; rewrite ?Hlive;
      try apply held_in_nil;
      destruct (nr <? AuthService._maxNrOfRetry)%Z; cbn;
      destruct timer as [t'|]; cbn; apply held_in_nil.
  - destruct auth as [a|], sub as [h|], timer as [t|]; cbn in *;
      rewrite ?Hlive; apply held_in_nil.
Qed.

(** [FirebaseAuthService] holds its data streams as long as its operations
    do not overlap. When [_subscription] holds every data stream that is
    live, it still does after each operation of the service that runs to
    its end before the next one starts. Two reports of a user that overlap
    break this: when the service holds no stream and none is live, both
    reports find [_subscription] empty before either has assigned it, both
    start a stream, and the assignment of the second report overwrites that
    of the first: two streams are live, the service holds the second only,
    and a [dispose] leaves the first one live. *)
Theorem service_holds_every_stream (has_onAuth : bool)
    (w : SupWorld V AuthService.State) :
  (stream_held w ->
   (forall throws,
      stream_held (state_of (AuthService.tryInitialiseStream throws w))) /\
   (forall user env,
      stream_held
        (state_of (AuthService.onAuthStateChanged has_onAuth user env w))) /\
   (forall value user,
      stream_held (state_of (AuthService.onValue value user w))) /\
   (forall error, stream_held (state_of (AuthService.onStreamError error w))) /\
   (forall t throws,
      stream_held (state_of (AuthService.onRetryTimeout t throws w))) /\
   (forall throws,
      stream_held
        (state_of (AuthService.resetAndTryInitialiseStream throws w))) /\
   stream_held (state_of (AuthService.dispose w))) /\
  (forall user1 env1 user2 env2,
     AuthService._subscription (sup w) = None ->
     live_streams w = [] ->
     onAuth_throws env1 = None -> stream_throws env1 = None ->
     onAuth_throws env2 = None -> stream_throws env2 = None ->
     let w' :=
       state_of
         (AuthService.overlapping_reports has_onAuth user1 env1 user2 env2 w) in
     live_streams w' = [fresh w; S (fresh w)] /\
     AuthService._subscription (sup w') = Some (S (fresh w)) /\
     ~ stream_held w' /\
     live_streams (state_of (AuthService.dispose w')) = [fresh w]).
Proof.
  split; [apply operations_keep_stream_held |].
  intros user1 env1 user2 env2 Hsub Hlive Hauth1 Hstream1 Hauth2 Hstream2.
  destruct w as [[cached sub auth timer nr] evs n live pend];
    cbn in Hsub, Hlive; subst sub live.
  unfold AuthService.overlapping_reports, AuthService.settled,
    AuthService.dispose.
  unfold_auth_service; unfold_sup; unfold_monad.
  rewrite Hauth1, Hstream1, Hauth2, Hstream2.
  destruct has_onAuth, auth as [a|], timer as [t|]; cbn;
    rewrite ?remove_second;
    (split_and!; [done | done | apply two_handles_not_held | done]).
Qed.

End FirebaseAuthService_life.

(** ** Batches of the collection hook *)

Section hook_batches.
Context {T Json : Type} {writeable : TurboWriteableId T Json} {env : Env T Json}.

Lemma collect_deletes_missing (docs : gmap string T) (ids : list string)
    (id : string) (acc : gmap string T) :
  id ∈ ids ->
  Collection.tryFindById docs id = None ->
  exists missing,
    missing ∈ ids /\
    Collection.collect_deletes docs ids acc =
      inl (Fail (Collection.not_found_error missing)
                (Some "Batch Delete Failed")
                (Some (Collection.cannot "delete" missing)) None).
Proof.
  revert acc. induction ids as [|i ids IH]; intros acc Hin Hmissing.
  - by apply elem_of_nil in Hin.
  - cbn. destruct (Collection.tryFindById docs i) as [current|] eqn:Hi.
    + apply elem_of_cons in Hin as [-> | Hin]; [congruence |].
      destruct (IH (<[i := current]> acc) Hin Hmissing)
        as (missing & Hmem & Hrun).
      exists missing. split; [by right | done].
    + exists i. split; [by left | done].
Qed.

(** The first loop of a batch ends early with a failure result only. *)
Lemma collect_deletes_fails (docs : gmap string T) (ids : list string)
    (acc : gmap string T) (failure : TurboResponse unit) :
  Collection.collect_deletes docs ids acc = inl failure ->
  isSuccess failure = false.
Proof.
  revert acc. induction ids as [|i ids IH]; intros acc; cbn; [done |].
  destruct (Collection.tryFindById docs i); [apply IH |]. by intros [= <-].
Qed.

Lemma collect_updates_fails (docs : gmap string T) (vars : TurboAuthVars)
    (updates : list (string * UpdateDocDef T)) (acc : gmap string T)
    (updated : list T) (failure : TurboResponse (list T)) :
  Collection.collect_updates docs vars updates acc updated
    = Returns (inl failure) ->
  isSuccess failure = false.
Proof.
  revert acc updated. induction updates as [|[i def] updates IH];
    intros acc updated; cbn; [done |].
  destruct (Collection.tryFindById docs i); [| by intros [= <-]].
  destruct (def _ _); [apply IH | done].
Qed.

(** A batch of the collection hook leaves all of its changes or none.
    [deleteDocs] with an id that the [docsById] of its callback does not
    hold is refused before anything is changed: it resolves with a
    not-found failure for an id of the list, and the mirror and the trace
    of remote calls are as before. Whenever [deleteDocs] resolves with a
    failure the mirror is what it was before the call, provided the
    callback's [docsById] holds what the mirror holds for the ids of the
    batch; and so it is for [createDocs] when the new documents have ids
    the mirror did not hold, and for [updateDocs] when the callback's
    [docsById] holds what the mirror holds for the ids of the batch, the
    transforms keep the id of the document and [toJson] returns. Whenever
    one of the three resolves with a success, the mirror holds exactly the
    changes of the batch. *)
Theorem hook_batch_is_all_or_nothing (w : World T Json (Collection.State T))
    (docsById : gmap string T) :
  let docs := Collection.docsById (local w) in
  (forall ids id,
     id ∈ ids ->
     Collection.tryFindById docsById id = None ->
     exists missing,
       missing ∈ ids /\
       Collection.deleteDocs docsById ids w =
         (Returns (Fail (Collection.not_found_error missing)
                        (Some "Batch Delete Failed")
                        (Some (Collection.cannot "delete" missing)) None),
          w)) /\
  (forall ids,
     let r := Collection.deleteDocs docsById ids w in
     ((forall id, id ∈ ids -> docsById !! id = docs !! id) ->
      resolves_with_failure r ->
      Collection.docsById (local (state_of r)) = docs) /\
     (forall title message,
        outcome_of r = Returns (Success tt title message) ->
        Collection.docsById (local (state_of r))
          = Collection.delete_all ids docs)) /\
  (forall defs,
     let r := Collection.createDocs defs w in
     ((forall def vars newDoc,
         def ∈ defs ->
         outcome_of (Collection.createAuthVars w) = Returns vars ->
         def vars = Returns newDoc ->
         docs !! doc_id newDoc = None) ->
      resolves_with_failure r ->
      Collection.docsById (local (state_of r)) = docs) /\
     (forall newDocs title message,
        outcome_of r = Returns (Success newDocs title message) ->
        Collection.docsById (local (state_of r))
          = Collection.set_all newDocs docs)) /\
  (forall updates,
     toJson_returns ->
     let r := Collection.updateDocs docsById updates w in
     ((forall id def, (id, def) ∈ updates -> docsById !! id = docs !! id) ->
      (forall id def current vars updatedDoc,
         (id, def) ∈ updates ->
         outcome_of (Collection.createAuthVars w) = Returns vars ->
         def current vars = Returns updatedDoc ->
         doc_id updatedDoc = id) ->
      resolves_with_failure r ->
      Collection.docsById (local (state_of r)) = docs) /\
     (forall updatedDocs title message,
        outcome_of r = Returns (Success updatedDocs title message) ->
        Collection.docsById (local (state_of r))
          = Collection.set_all updatedDocs docs)).
Proof.
  cbn zeta. split_and!.
  - intros ids id Hin Hmissing.
    destruct (collect_deletes_missing _ ids id ∅ Hin Hmissing)
      as (missing & Hmem & Hrun).
    exists missing. split; [done |].
    unfold Collection.deleteDocs. by rewrite Hrun.
  - intros ids. split; [apply deleteDocs_restores_mirror |].
    intros title message.
    unfold Collection.deleteDocs.
    destruct (Collection.collect_deletes _ ids ∅) as [failure|previousDocs]
      eqn:Hcollect.
    { apply collect_deletes_fails in Hcollect.
      unfold_monad; cbn. intros [= ->]. done. }
    unfold bind at 1. unfold Collection.setDocsById at 1. unfold_monad. cbn.
    match goal with
    | |- context [mapM ?f ids ?w0] =>
        destruct (steady_mapM f ids (fun id => steady_api_try _) w0)
          as (batchResults & tr & ->)
    end.
    cbn.
    destruct (Collection.find_failed batchResults) as [[? ? ?|? ? ? ?]|];
      try done;
      unfold Collection.commit, Collection.setDocsById; unfold_monad; cbn;
      by destruct (sdk_error BatchCommit).
  - intros defs. split; [apply createDocs_restores_fresh_mirror |].
    intros newDocs title message.
    unfold Collection.createDocs, Collection.setDocsById. unfold_monad.
    destruct (Collection.createAuthVars w) as [[vars|e] w1] eqn:Hvars;
      [| done].
    pose proof (createAuthVars_returns _ _ _ Hvars) as ->.
    match goal with
    | |- context [mapM ?f defs ?w1] =>
        destruct (mapM f defs w1) as [[made|e] w0] eqn:Hdefs
    end; [| done].
    apply (mapM_lift_returns (fun def => def vars)) in Hdefs as [-> Hdefs].
    cbn.
    match goal with
    | |- context [mapM ?f made ?w0] =>
        destruct (steady_mapM f made (fun doc => steady_api_try _) w0)
          as (batchResults & tr & ->)
    end.
    cbn.
    destruct (Collection.find_failed batchResults) as [[? ? ?|? ? ? ?]|];
      try done;
      unfold Collection.commit, Collection.setDocsById; unfold_monad; cbn;
      destruct (sdk_error BatchCommit); cbn; try done; by intros [= <- _ _].
  - intros updates Hjson. split; [by apply updateDocs_restores_mirror |].
    intros updatedDocs title message.
    unfold Collection.updateDocs, Collection.setDocsById. unfold_monad.
    destruct (Collection.createAuthVars w) as [[vars|e] w1] eqn:Hvars;
      [| done].
    pose proof (createAuthVars_returns _ _ _ Hvars) as ->.
    destruct (Collection.collect_updates _ _ updates ∅ [])
      as [[failure|[previousDocs made]]|e] eqn:Hcollect; [| | done].
    { apply collect_updates_fails in Hcollect. intros [= ->]. done. }
    cbn.
    match goal with
    | |- context [mapM ?f made ?w0] =>
        destruct (steady_mapM f made) with (w := w0)
          as (batchResults & tr & ->)
    end.
    { intros doc w1. destruct (Hjson doc) as [data ->]. cbn.
      apply steady_api_try. }
    cbn.
    destruct (Collection.find_failed batchResults) as [[? ? ?|? ? ? ?]|];
      try done;
      unfold Collection.commit, Collection.setDocsById; unfold_monad; cbn;
      destruct (sdk_error BatchCommit); cbn; try done; by intros [= <- _ _].
Qed.

End hook_batches.

(** ** The writes of the API *)


Section api_writes.
Context {T Json L : Type} {env : Env T Json}.



End api_writes.

Section onAuth_failures.
Context {V : Type}.

(** An [onAuth] that throws. In [useAuthSync] the throw is caught like a
    failure of [stream]: [setupStream] returns, no stream is started, the
    error callback (when given) receives the exception made of the thrown
    value right after [onAuth], and one more failure is counted. In
    [FirebaseAuthService] nothing catches it: the callback of
    [onAuthStateChanged] rejects with the thrown value after the cached
    user id is set, no stream is started, [onError] is not called and no
    retry is scheduled. *)
Theorem onAuth_failure_is_caught_by_the_hook_only (user : User) (env : Setup)
    (error : Thrown) :
  onAuth_throws env = Some error ->
  (forall (options : AuthSync.Options) (w : SupWorld V AuthSync.State),
     AuthSync.isMountedRef (sup w) = true ->
     AuthSync.has_onAuth options = true ->
     let r := AuthSync.setupStream options user env w in
     outcome_of r = Returns tt /\
     AuthSync.streamUnsubscribeRef (sup (state_of r)) = None /\
     live_streams (state_of r)
       = remove_held (AuthSync.streamUnsubscribeRef (sup w)) (live_streams w) /\
     AuthSync.retryCount (sup (state_of r))
       = (AuthSync.retryCount (sup w) + 1)%Z /\
     exists rest,
       events (state_of r) =
         events w ++ stops (AuthSync.streamUnsubscribeRef (sup w))
                  ++ clears (AuthSync.retryTimeoutRef (sup w))
                  ++ [OnAuth user]
                  ++ (if AuthSync.has_onError options
                      then [OnError (AuthSync.as_exception error)] else [])
                  ++ rest) /\
  (forall (w : SupWorld V AuthService.State),
     AuthService.onAuthStateChanged true (Some user) env w =
       (Throws error,
        mkSupWorld
          (AuthService.set_cachedUserId (Some (uid user)) (sup w))
          (events w ++ [OnAuth user]) (fresh w) (live_streams w)
          (pending_timers w))).
Proof.
  intros Hthrows. split.
  - intros options
      [[ready cached retrying count sref tref cur mounted] evs n live pend]
      Hmounted Hgiven; cbn in Hmounted, Hgiven; subst.
    unfold AuthSync.setupStream, AuthSync.setupStream_begin,
      AuthSync.setupStream_resume.
    unfold_sync; unfold_sup; unfold_monad.
    rewrite Hgiven; cbn. rewrite Hthrows.
    destruct sref as [h|], tref as [t|]; cbn;
      destruct (AuthSync.has_onError options); cbn;
      destruct (_ >=? _)%Z; cbn;
      destruct (AuthSync.has_onDone options); cbn;
      (split_and!; try done); eexists; rewrite <- ?app_assoc; cbn;
      repeat f_equal; try reflexivity;
      rewrite ?app_nil_r; reflexivity.
  - intros [[cached sub auth timer nr] evs n live pend].
    unfold_auth_service; unfold_sup; unfold_monad; cbn.
    by rewrite Hthrows.
Qed.

End onAuth_failures.

(** ** Further witnesses *)

(** The title of a record goes through [addTimestamps] untouched. *)
Lemma addTimestamps_witness :
  ApiData.addTimestamps Cases.server_time Cases.default_fields Cases.stored
    ApiData.Both true !! "title" = Cases.stored !! "title" /\
  is_Some
    (ApiData.addTimestamps Cases.server_time Cases.default_fields Cases.stored
       ApiData.Both true !! "title").
Proof.
  destruct (addTimestamps_touches_only_timestamps Cases.server_time
              Cases.default_fields Cases.stored ApiData.Both true "title")
    as [Hsame Hkept].
  split; [apply Hsame; vm_compute; discriminate |].
  apply Hkept. exists "Buy milk". by vm_compute.
Defined.

(** An update with the default options leaves the creation time alone. *)
Lemma timestamps_witness :
  ApiData.updateDoc_data Cases.server_time Cases.default_fields Cases.stored
    None !! "createdAt" = Cases.stored !! "createdAt".
Proof.
  destruct (timestamps_by_operation Cases.server_time Cases.default_fields
              Cases.stored) as (_ & _ & _ & Hcreated & _).
  apply Hcreated. vm_compute. discriminate.
Defined.

(** A read of the task 't1' hands back its id in place of the stored one. *)
Lemma getById_witness :
  exists data,
    ApiData.getById (fun s => s) Cases.default_fields "tasks"
      Cases.tasks_getDoc "t1" None = Success (Some data) None None /\
    data !! "id" = Some "t1" /\
    data !! "title" = Some "Buy milk".
Proof.
  pose proof (getById_adds_the_document_id (fun s => s) Cases.default_fields
                "tasks" Cases.tasks_getDoc "t1" None) as H.
  cbn in H. destruct H as (data & Hresponse & Hid & Hother).
  exists data. split; [exact Hresponse |]. split.
  - apply Hid; [done | by left].
  - rewrite Hother; [by vm_compute | | ]; vm_compute; discriminate.
Defined.

(** A task created locally in an empty collection is found again. *)
Lemma local_documents_witness :
  CollectionLocal.findById
    (Collection.docsById
       (local (state_of
          (CollectionLocal.createLocalDoc (env := Scenario.online)
             Scenario.create_milk Scenario.no_tasks)))) "t1"
  = Returns Scenario.milk.
Proof.
  destruct (proj1 (local_documents_are_found (env := Scenario.online)
                     Scenario.no_tasks) Scenario.create_milk _ _ Scenario.milk
              eq_refl eq_refl) as (_ & Hfound & _).
  exact Hfound.
Defined.

(** A local update of a task that an empty collection does not hold. *)
Lemma updateLocalDoc_witness :
  CollectionLocal.updateLocalDoc (env := Scenario.online)
    (Collection.docsById (local Scenario.no_tasks)) "t1" Scenario.complete
    Scenario.no_tasks
  = (Throws (CollectionLocal.not_in_collection "t1"), Scenario.no_tasks).
Proof.
  destruct (updateLocalDoc_keys (env := Scenario.online)) as (Hmissing & _).
  apply Hmissing. done.
Defined.

(** A task created in an empty collection while the remote store answers. *)
Lemma accepted_mutation_witness :
  outcome_of (Collection.createDoc (env := Scenario.online)
                Scenario.create_milk Scenario.no_tasks)
  = Returns (Success Scenario.milk None None).
Proof.
  destruct (accepted_mutation_is_kept (env := Scenario.online))
    as (Hcollection & _).
  destruct (Hcollection Scenario.no_tasks) as (Hcreate & _).
  by rewrite (Hcreate Scenario.create_milk _ _ Scenario.milk eq_refl eq_refl
                eq_refl).
Defined.

(** A local update of the task the single-document hook shows. *)
Lemma ref_tracks_witness :
  Document.previousDocRef
    (local (state_of
       (DocumentLocal.updateLocalDoc (env := Scenario.online) "t1"
          Scenario.complete (Scenario.document (Some Scenario.milk)))))
  = Document.doc
      (local (state_of
         (DocumentLocal.updateLocalDoc (env := Scenario.online) "t1"
            Scenario.complete (Scenario.document (Some Scenario.milk))))).
Proof.
  destruct (ref_tracks_the_document (env := Scenario.online) "t1"
              (Scenario.document (Some Scenario.milk))) as (_ & Hkept).
  destruct (Hkept eq_refl) as (_ & _ & Hupdate & _).
  apply Hupdate.
Defined.

(** A task created over an initial value while the remote store is
    unreachable. *)
Lemma initial_value_witness :
  Document.doc
    (local (state_of
       (Document.createDoc (env := Scenario.offline) "t1" Scenario.create_milk
          (mkWorld (Document.initial (Some Scenario.milk_done)) [] 0))))
  = None.
Proof.
  destruct (initial_value_is_not_tracked (env := Scenario.offline) "t1"
              Scenario.milk_done [] 0) as (_ & _ & _ & _ & _ & Hcreate).
  eapply (Hcreate Scenario.create_milk _ _ Scenario.milk Scenario.unavailable);
    reflexivity.
Defined.

(** A task created by the collection service while the remote store is
    unreachable stays in its mirror. *)
Lemma service_mutators_witness :
  CollectionService._docsById
    (local (state_of
       (CollectionService.createDoc (env := Scenario.offline)
          Scenario.create_milk (Cases.collection_service ∅))))
  = {[ "t1" := Scenario.milk ]}.
Proof.
  destruct (service_mutators_keep_the_change (env := Scenario.offline)
              (Cases.collection_service ∅)) as (Hcreate & _).
  destruct (Hcreate Scenario.create_milk _ _ Scenario.milk eq_refl eq_refl)
    as (_ & Hdocs & _).
  exact Hdocs.
Defined.

(** An update of a task that the collection service does not hold. *)
Lemma service_missing_identity_witness :
  CollectionService.updateDoc (env := Scenario.online) "t1" Scenario.complete
    (Cases.collection_service ∅)
  = (Returns (Fail (CollectionLocal.not_in_collection "t1") None None None),
     Cases.collection_service ∅).
Proof.
  destruct (service_missing_identity (env := Scenario.online)
              (Cases.collection_service ∅) "t1" (lookup_empty _))
    as (Hupdate & _).
  apply Hupdate.
Defined.

(** A batch of one upsert by the collection service while the remote
    store answers. *)
Lemma service_batch_witness :
  outcome_of
    (CollectionService.upsertDocs (env := Scenario.online) ["t1"]
       Scenario.upsert_milk (Cases.collection_service ∅))
  = Returns (Success [Scenario.milk_done] None None).
Proof.
  destruct (service_batch_is_staged_then_committed (env := Scenario.online)
              (Cases.collection_service ∅)) as (_ & Hupsert & _).
  destruct (Hupsert ["t1"] Scenario.upsert_milk [Scenario.milk_done]
              Cases.one_task_done) as (_ & _ & Houtcome).
  - by vm_compute.
  - exact Houtcome.
Defined.

(** Two updates by the collection service, the second of a task it does
    not hold: the first stays. *)
Lemma service_updates_witness :
  CollectionService.updateDocs (env := Scenario.online) ["t1"; "t2"]
    Scenario.complete Cases.one_task_service
  = (Returns (Fail (CollectionLocal.not_in_collection "t2") None None None),
     Cases.one_task_done).
Proof.
  destruct (service_updates_are_not_atomic (env := Scenario.online)
              Cases.one_task_service Cases.one_task_done ["t1"] [] "t2"
              Scenario.complete [Scenario.milk_done])
    as (_ & Hupdate & _).
  - by vm_compute.
  - by vm_compute.
  - exact Hupdate.
Defined.

(** A collection service that streams starts a second stream. *)
Lemma services_listener_witness :
  live_listeners
    (trace (state_of (CollectionService.stream None
                        Cases.streaming_collection_service))) []
  = [1].
Proof.
  destruct (services_own_one_listener (T := Scenario.Task)
              (Json := Scenario.Task)) as (Hcollection & _).
  destruct (Hcollection Cases.streaming_collection_service eq_refl)
    as (_ & (_ & Hlive & _) & _).
  exact Hlive.
Defined.

(** The hook is unmounted while it streams, then told of a sign-in. *)
Lemma unmounted_hook_witness :
  live_streams (state_of (AuthSync.unmount Scenario.mounted_streaming)) = [] /\
  AuthSync.onAuthStateChanged (Scenario.sync_options 3) (Some Scenario.alice)
    Scenario.stream_starts
    (state_of (AuthSync.unmount Scenario.mounted_streaming))
  = (Returns tt, state_of (AuthSync.unmount Scenario.mounted_streaming)).
Proof.
  destruct (unmounted_hook_is_inert (V := unit) (Scenario.sync_options 3)
              Scenario.mounted_streaming
              (conj (held_in_singleton 0) (held_in_nil None)))
    as (_ & Hlive & _ & _ & Hauth & _).
  split; [exact Hlive | apply Hauth].
Defined.

(** The retry after one failed setup succeeds. *)
Lemma successful_setup_witness :
  sync_streaming 1
    (state_of (AuthSync.retry (Scenario.sync_options 3) Scenario.stream_starts
                 Cases.mounted_retrying)).
Proof.
  destruct (successful_setup_restores_the_budget (V := unit)
              (Scenario.sync_options 3) Cases.mounted_retrying
              Scenario.stream_starts eq_refl
              (conj (held_in_nil None) (held_in_singleton 0)) eq_refl)
    as (_ & Hretry & _).
  apply (Hretry Scenario.alice eq_refl). by exists 0.
Defined.

(** The retry of a service whose stream failed once finds that listening
    to the authentication state throws. *)
Lemma failed_retry_witness :
  AuthService._retryTimer
    (sup (state_of (AuthService.onRetryTimeout 2 (Some Scenario.stream_error)
                      Cases.service_retrying))) = None /\
  pending_timers
    (state_of (AuthService.dispose
       (state_of (AuthService.onRetryTimeout 2 (Some Scenario.stream_error)
                    Cases.service_retrying))))
  = [3].
Proof.
  destruct (failed_retry_loses_its_timer (V := unit) Cases.service_retrying 2
              Scenario.stream_error eq_refl)
    as (_ & Htimer & _ & _ & Hpending & _).
  split; [exact Htimer | exact Hpending].
Defined.

(** A service that streams is disposed of; a service that listens is told
    of the user twice, the second time while the first report is
    suspended. *)
Lemma service_holds_witness :
  stream_held (state_of (AuthService.dispose Scenario.streaming_service)) /\
  live_streams Scenario.signed_in_twice_overlapping = [1; 2] /\
  AuthService._subscription (sup Scenario.signed_in_twice_overlapping)
    = Some 2 /\
  live_streams
    (state_of (AuthService.dispose Scenario.signed_in_twice_overlapping))
    = [1].
Proof.
  split.
  - destruct (proj1 (service_holds_every_stream (V := unit) false
                       Scenario.streaming_service) (held_in_singleton 1))
      as (_ & _ & _ & _ & _ & _ & Hdispose).
    exact Hdispose.
  - destruct (proj2 (service_holds_every_stream (V := unit) false
                       (state_of (AuthService.tryInitialiseStream None
                                    Scenario.constructed)))
                Scenario.alice Scenario.stream_starts
                Scenario.alice Scenario.stream_starts
                eq_refl eq_refl eq_refl eq_refl eq_refl eq_refl)
      as (Hlive & Hheld & _ & Hleft).
    split; [exact Hlive |]. split; [exact Hheld | exact Hleft].
Defined.

(** A batch delete of a task that an empty collection does not hold, and
    one of a task that the collection holds while the remote store is
    unreachable. *)
Lemma hook_batch_witness :
  (exists missing,
     missing ∈ ["t1"] /\
     Collection.deleteDocs (env := Scenario.online)
       (Collection.docsById (local Scenario.no_tasks)) ["t1"] Scenario.no_tasks
     = (Returns (Fail (Collection.not_found_error missing)
                      (Some "Batch Delete Failed")
                      (Some (Collection.cannot "delete" missing)) None),
        Scenario.no_tasks)) /\
  Collection.docsById
    (local (state_of
       (Collection.deleteDocs (env := Scenario.offline)
          (Collection.docsById (local Scenario.one_task)) ["t1"]
          Scenario.one_task)))
  = Collection.docsById (local Scenario.one_task).
Proof.
  split.
  - destruct (hook_batch_is_all_or_nothing (env := Scenario.online)
                Scenario.no_tasks (Collection.docsById (local Scenario.no_tasks)))
      as (Hmissing & _).
    apply (Hmissing ["t1"] "t1"); [by left | done].
  - destruct (hook_batch_is_all_or_nothing (env := Scenario.offline)
                Scenario.one_task (Collection.docsById (local Scenario.one_task)))
      as (_ & Hdelete & _).
    apply (proj1 (Hdelete ["t1"])); [done |].
    apply failure_resolves.
Defined.

(** The hook is unmounted while it streams: nothing is left untracked. A
    mounted hook sets its stream up twice, the second time while the first
    setup waits for [onAuth]. *)
Lemma setups_keep_track_witness :
  sync_tracked (state_of (AuthSync.unmount Scenario.mounted_streaming)) /\
  live_streams Scenario.set_up_twice_overlapping = [0; 1] /\
  AuthSync.streamUnsubscribeRef (sup Scenario.set_up_twice_overlapping)
    = Some 1 /\
  live_streams (state_of (AuthSync.unmount Scenario.set_up_twice_overlapping))
    = [0].
Proof.
  split.
  - destruct (setups_keep_track_unless_overlapping (V := unit)
                (Scenario.sync_options 3) Scenario.mounted_streaming
                (conj (held_in_singleton 0) (held_in_nil None)))
      as ((_ & _ & _ & Hunmount) & _).
    exact Hunmount.
  - destruct (setups_keep_track_unless_overlapping (V := unit)
                (Scenario.sync_options 3) Scenario.mounted
                (conj (held_in_nil None) (held_in_nil None)))
      as (_ & _ & Hoverlap).
    destruct (Hoverlap Scenario.alice Scenario.stream_starts
                Scenario.alice Scenario.stream_starts
                eq_refl eq_refl eq_refl eq_refl eq_refl eq_refl)
      as (Hlive & Hheld & _ & Hleft).
    split; [exact Hlive |]. split; [exact Hheld | exact Hleft].
Defined.

(** A document service that streams one task is pointed at another. *)
Lemma stream_keeps_listener_witness :
  service_tracked
    (state_of (DocumentService.stream (env := Scenario.online) "t2"
                 Cases.streaming_document_service)).
Proof.
  destruct (stream_keeps_listener (env := Scenario.online) "t2"
              Cases.streaming_document_service eq_refl) as (Hstream & _).
  exact Hstream.
Defined.

(** A sign-in reported to a service whose [onAuth] throws. *)
Lemma onAuth_failure_witness :
  outcome_of
    (AuthSync.setupStream (Scenario.sync_options 3) Scenario.alice
       Cases.onAuth_fails Scenario.mounted) = Returns tt /\
  AuthService.onAuthStateChanged true (Some Scenario.alice) Cases.onAuth_fails
    Scenario.constructed
  = (Throws (JsError "onAuth failed"),
     mkSupWorld
       (AuthService.set_cachedUserId (Some "alice") AuthService.initial)
       [OnAuth Scenario.alice] 0 [] []).
Proof.
  destruct (onAuth_failure_is_caught_by_the_hook_only (V := unit)
              Scenario.alice Cases.onAuth_fails (JsError "onAuth failed")
              eq_refl) as (Hhook & Hservice).
  split.
  - destruct (Hhook (Scenario.sync_options 3) Scenario.mounted eq_refl
                eq_refl) as (Hreturns & _).
    exact Hreturns.
  - apply (Hservice Scenario.constructed).
Defined.
